(** * Placeholder substitution and template materialization

    A shallow embedding of the scaffolding extension's core:
    - [String.prototype.replaceName] (src/utils/tools.ts),
    - [replacePlaceholdersInContent], [replacePlaceholdersInPath],
      [fixDartImports], [getAllTemplateFiles] and
      [copyInitialTemplatesFromFolder] (src/commands/create_initials.ts),
    - the template loop of [createUsecase] (src/commands/create_usecase.ts),
    - around them: [getClickedFolder] and [getPackageName] (tools.ts),
      [createInitials] (create_initials.ts), and of the reworked sources
      [getFilteredTestTemplateFiles], [getFeatureNameFromPath],
      [processUsecaseTemplate] and [createUsecase], and the check
      [usecaseTemplatesOk] of extension.ts.

    JavaScript strings are modelled as lists of characters ([list ascii]);
    the built-in string methods the code calls ([includes], [startsWith],
    [endsWith], [replaceAll], [replace], [split], [toLowerCase],
    [toUpperCase]) are written out with the behaviour ECMAScript gives them
    on such strings, including the [$]-patterns that [replaceAll] and
    [replace] interpret inside a replacement string.  Case mapping is the
    ASCII one.  The change-case package is an interface ([ChangeCase]); a
    directory is a finite tree of named entries, without symbolic links. *)

From Stdlib Require Import List Ascii String Bool Arith Lia Permutation.
Import ListNotations.

(** ** Strings *)

Definition str := list ascii.

Notation "` s" := (list_ascii_of_string s%string) (at level 1, only parsing).

Abbreviation length := List.length.
Abbreviation concat := List.concat.

Local Open Scope char_scope.
Local Open Scope list_scope.

Module JS.

(** [s.startsWith(p)] *)
Fixpoint startsWith (s p : str) {struct p} : bool :=
  match p with
  | [] => true
  | c :: p' =>
    match s with
    | [] => false
    | d :: s' => Ascii.eqb d c && startsWith s' p'
    end
  end.

(** [s.includes(p)] *)
Fixpoint includes (s p : str) {struct s} : bool :=
  startsWith s p ||
  match s with
  | [] => false
  | _ :: s' => includes s' p
  end.

(** [s.endsWith(p)] *)
Definition endsWith (s p : str) : bool := startsWith (rev s) (rev p).

(** Case mapping on the ASCII letters (the only cased characters of the
    model's alphabet). *)
Definition isUpper (c : ascii) : bool :=
  Nat.leb 65 (nat_of_ascii c) && Nat.leb (nat_of_ascii c) 90.

Definition isLower (c : ascii) : bool :=
  Nat.leb 97 (nat_of_ascii c) && Nat.leb (nat_of_ascii c) 122.

Definition isDigit (c : ascii) : bool :=
  Nat.leb 48 (nat_of_ascii c) && Nat.leb (nat_of_ascii c) 57.

Definition lowerChar (c : ascii) : ascii :=
  if isUpper c then ascii_of_nat (nat_of_ascii c + 32) else c.

Definition upperChar (c : ascii) : ascii :=
  if isLower c then ascii_of_nat (nat_of_ascii c - 32) else c.

(** [s.toLowerCase()] and [s.toUpperCase()] *)
Definition toLowerCase (s : str) : str := map lowerChar s.
Definition toUpperCase (s : str) : str := map upperChar s.

(** The abstract operation GetSubstitution of ECMAScript for a pattern
    without capture groups: inside the replacement string, [$$] stands for
    a dollar sign, [$&] for the matched text, [$`] for the text before the
    match and [$'] for the text after it; every other character, and a
    dollar sign followed by anything else, is copied. *)
Fixpoint getSubstitution (matched before after rep : str) {struct rep} : str :=
  match rep with
  | [] => []
  | c :: r =>
    if Ascii.eqb c "$" then
      match r with
      | [] => [c]
      | d :: r' =>
        if Ascii.eqb d "$" then "$" :: getSubstitution matched before after r'
        else if Ascii.eqb d "&" then matched ++ getSubstitution matched before after r'
        else if Ascii.eqb d "`" then before ++ getSubstitution matched before after r'
        else if Ascii.eqb d "'" then after ++ getSubstitution matched before after r'
        else c :: getSubstitution matched before after r
      end
    else c :: getSubstitution matched before after r
  end.

(** [s.replaceAll(search, rep)] for a non-empty [search]: the matches are
    found from left to right and do not overlap; [skip] counts the
    characters of the current match still to be passed over and [before]
    is the part of the subject already passed. *)
Fixpoint replaceAll_from (search rep : str) (skip : nat) (before s : str)
  {struct s} : str :=
  match s with
  | [] => []
  | c :: s' =>
    match skip with
    | S k => replaceAll_from search rep k (before ++ [c]) s'
    | O =>
      if startsWith s search
      then getSubstitution search before (skipn (length search) s) rep
           ++ replaceAll_from search rep (length search - 1) (before ++ [c]) s'
      else c :: replaceAll_from search rep 0 (before ++ [c]) s'
    end
  end.

(** [replaceAll] with the empty string as pattern: it matches at every
    position, the end of the subject included. *)
Fixpoint replaceAll_empty (rep : str) (before s : str) {struct s} : str :=
  getSubstitution [] before s rep ++
  match s with
  | [] => []
  | c :: s' => c :: replaceAll_empty rep (before ++ [c]) s'
  end.

Definition replaceAll (s search rep : str) : str :=
  match search with
  | [] => replaceAll_empty rep [] s
  | _ :: _ => replaceAll_from search rep 0 [] s
  end.

(** [s.replace(search, rep)] with a string pattern: the first match only. *)
Fixpoint replace_from (search rep : str) (before s : str) {struct s} : str :=
  if startsWith s search
  then getSubstitution search before (skipn (length search) s) rep
       ++ skipn (length search) s
  else match s with
       | [] => []
       | c :: s' => c :: replace_from search rep (before ++ [c]) s'
       end.

Definition replace (s search rep : str) : str := replace_from search rep [] s.

(** [s.split(sep)] for a one-character separator. *)
Fixpoint split_from (sep : ascii) (cur : str) (s : str) : list str :=
  match s with
  | [] => [cur]
  | c :: s' =>
    if Ascii.eqb c sep then cur :: split_from sep [] s'
    else split_from sep (cur ++ [c]) s'
  end.

Definition split (s : str) (sep : ascii) : list str := split_from sep [] s.

(** [parts.join(sep)] *)
Fixpoint join (sep : str) (parts : list str) : str :=
  match parts with
  | [] => []
  | [w] => w
  | w :: parts' => w ++ sep ++ join sep parts'
  end.

End JS.

Import JS.

(** ** The case transforms of the change-case package *)

(** tools.ts imports [snakeCase], [pascalCase] and [camelCase] from the
    change-case package; the code of the repository only calls them. *)
Class ChangeCase := {
  snakeCase : str -> str;
  pascalCase : str -> str;
  camelCase : str -> str
}.

(** ** tools.ts: [String.prototype.replaceName] *)

Section ReplaceName.

Context {CC : ChangeCase}.

Definition replaceName (this searchTerm replaceFor : str) : str :=
  let targetText := this in
  let targetText :=
    if includes searchTerm `"lowerCase"
    then replaceAll targetText searchTerm (toLowerCase replaceFor)
    else targetText in
  let targetText :=
    if includes searchTerm `"upperCase"
    then replaceAll targetText searchTerm (toUpperCase replaceFor)
    else targetText in
  let targetText :=
    if includes searchTerm `"snakeCase"
    then replaceAll targetText searchTerm (snakeCase replaceFor)
    else targetText in
  let targetText :=
    if includes searchTerm `"pascalCase"
    then replaceAll targetText searchTerm (pascalCase replaceFor)
    else targetText in
  let targetText :=
    if includes searchTerm `"camelCase"
    then replaceAll targetText searchTerm (camelCase replaceFor)
    else targetText in
  replaceAll targetText searchTerm replaceFor.

(** ** create_initials.ts: the rewriting routines *)

(** The six calls made for one key of the placeholders object. *)
Definition replaceKey (result key value : str) : str :=
  let result := replaceName result (`"{{" ++ key ++ `"}}") value in
  let result := replaceName result (`"{{" ++ key ++ `".lowerCase}}") value in
  let result := replaceName result (`"{{" ++ key ++ `".upperCase}}") value in
  let result := replaceName result (`"{{" ++ key ++ `".snakeCase}}") value in
  let result := replaceName result (`"{{" ++ key ++ `".pascalCase}}") value in
  replaceName result (`"{{" ++ key ++ `".camelCase}}") value.

(** The style suffixes of a token, in the order of the six calls, and the
    rules [(token, value)] they make for one key. *)
Definition styles : list str :=
  [ [] ; `".lowerCase"; `".upperCase"; `".snakeCase"; `".pascalCase";
    `".camelCase"].

Definition keyRules (kv : str * str) : list (str * str) :=
  map (fun style => (`"{{" ++ fst kv ++ style ++ `"}}", snd kv)) styles.

(** The rewriter underlying every routine: [replaceName] called once per
    rule, each call on the result of the one before. *)
Definition rewrite (text : str) (rules : list (str * str)) : str :=
  fold_left (fun t rule => replaceName t (fst rule) (snd rule)) rules text.

(** The placeholders object is an association list in the order
    [Object.keys] enumerates it (insertion order for the keys the code
    uses). *)
Definition replacePlaceholdersInContent (content : str)
  (placeholders : list (str * str)) : str :=
  fold_left (fun result kv => replaceKey result (fst kv) (snd kv))
            placeholders content.

Definition replacePlaceholdersInPath (path : str)
  (placeholders : list (str * str)) : str :=
  fold_left (fun result kv => replaceKey result (fst kv) (snd kv))
            placeholders path.

(** [content.replace(/package:gymtor\//g, `package:${packageName}/`)]: a
    global replacement whose pattern is a literal text without groups. *)
Definition fixDartImports (content packageName : str) : str :=
  replaceAll content `"package:gymtor/" (`"package:" ++ packageName ++ `"/").

End ReplaceName.

(** ** The case transformer *)

Module CaseTransformer.

(** Modelled from the spec: the change-case package that tools.ts imports
    is not part of the sources.  Section 4.1 of the specification describes
    its three transforms: the raw text is split into words on case and
    separator boundaries (camel humps, spaces, hyphens, underscores);
    snakeCase joins the lowercased words with an underscore; pascalCase
    capitalizes the first letter of each word and concatenates the words;
    camelCase is the same but the first word's leading letter is
    lowercased. *)
Definition isSeparator (c : ascii) : bool :=
  Ascii.eqb c " " || Ascii.eqb c "-" || Ascii.eqb c "_".

(** A word starts at an upper-case letter that follows a lower-case letter
    or a digit, and at the last upper-case letter of a run of upper-case
    letters that a lower-case letter follows. *)
Definition hump (prev : option ascii) (c : ascii) (next : option ascii) : bool :=
  match prev with
  | None => false
  | Some p =>
    isUpper c &&
    (isLower p || isDigit p ||
     (isUpper p && match next with Some n => isLower n | None => false end))
  end.

Definition flush (cur : str) : list str :=
  match cur with
  | [] => []
  | _ :: _ => [cur]
  end.

Fixpoint splitWords (prev : option ascii) (cur : str) (s : str) : list str :=
  match s with
  | [] => flush cur
  | c :: s' =>
    if isSeparator c then flush cur ++ splitWords None [] s'
    else if hump prev c (hd_error s') then flush cur ++ splitWords (Some c) [c] s'
    else splitWords (Some c) (cur ++ [c]) s'
  end.

Definition words (s : str) : list str := splitWords None [] s.

Definition capitalize (w : str) : str :=
  match w with
  | [] => []
  | c :: w' => upperChar c :: w'
  end.

Definition uncapitalize (w : str) : str :=
  match w with
  | [] => []
  | c :: w' => lowerChar c :: w'
  end.

Definition snake (s : str) : str := join `"_" (map toLowerCase (words s)).

Definition pascal (s : str) : str := concat (map capitalize (words s)).

Definition camel (s : str) : str :=
  match words s with
  | [] => []
  | w :: ws => uncapitalize w ++ concat (map capitalize ws)
  end.

#[global] Instance changeCase : ChangeCase :=
  {| snakeCase := snake; pascalCase := pascal; camelCase := camel |}.

End CaseTransformer.

(** ** Exceptions *)

Inductive result (A : Type) : Type :=
| Ok (a : A)
| Throw (error : str).

Arguments Ok {A} a.
Arguments Throw {A} error.

(** ** create_initials.ts: [getAllTemplateFiles] *)

(** What the file system holds at a path: a file with its content or a
    directory with its entries, in the order [readdirSync] lists them. *)
#[local] Unset Elimination Schemes.

Inductive node : Type :=
| File (content : str)
| Dir (entries : list (str * node)).

#[local] Set Elimination Schemes.

(** The body of [getAllTemplateFiles] for a directory that exists: the loop
    over [readdirSync(dir)]; [statSync(fullPath).isDirectory()] is the
    shape of the entry's node. *)
Fixpoint templateFilesIn (dir : str) (n : node) {struct n} : list str :=
  match n with
  | File _ => []
  | Dir entries =>
    (fix loop (items : list (str * node)) : list str :=
       match items with
       | [] => []
       | (item, child) :: rest =>
         let fullPath := dir ++ `"/" ++ item in
         match child with
         | Dir _ => templateFilesIn fullPath child
         | File _ => if endsWith item `".template" then [fullPath] else []
         end ++ loop rest
       end) entries
  end.

(** [getAllTemplateFiles(dir)], given what the file system has at [dir]
    ([None] when [existsSync(dir)] is false).  [readdirSync] throws on a
    path that is not a directory. *)
Definition getAllTemplateFiles (dir : str) (at_dir : option node)
  : result (list str) :=
  match at_dir with
  | None => Ok []
  | Some (File _) => Throw `"ENOTDIR"
  | Some (Dir _ as n) => Ok (templateFilesIn dir n)
  end.

(** ** create_initials.ts: [copyInitialTemplatesFromFolder] *)

(** [destinationPath.replace(/\.template$/, '.dart')] *)
Definition replaceTemplateSuffix (path : str) : str :=
  if endsWith path `".template"
  then firstn (length path - 9) path ++ `".dart"
  else path.

Section Materializer.

Context {CC : ChangeCase}.

(** The file system as the loop sees it: a read may throw ([None]); a write
    (directory creation, then the file) changes the world and resolves
    ([true]) or rejects ([false]). *)
Variable World : Type.
Variable readFileSync : World -> str -> option str.
Variable writeFileExtPromise : World -> str -> str -> World * bool.

(** What the loop reports: [console.log] of a created file, and
    [console.error] with [window.showErrorMessage] for a failed template. *)
Inductive event : Type :=
| Created (destinationPath : str)
| ErrorProcessing (templateFile : str).

Record loopState : Type := {
  world : World;
  events : list event;
  filesCreated : nat
}.

Definition destinationOf (templateFolder rootFolder clickedFolder packageName
                          folderType templateFile : str) : str :=
  let relativePath := replace templateFile (templateFolder ++ `"/") [] in
  let destinationPath :=
    if list_eq_dec ascii_dec folderType `"config"
    then rootFolder ++ `"/lib/config/" ++ relativePath
    else if list_eq_dec ascii_dec folderType `"core"
    then rootFolder ++ `"/lib/core/" ++ relativePath
    else if list_eq_dec ascii_dec folderType `"test"
    then rootFolder ++ `"/test/" ++ relativePath
    else rootFolder ++ `"/" ++ folderType ++ `"/" ++ relativePath in
  let destinationPath := replaceTemplateSuffix destinationPath in
  replacePlaceholdersInPath destinationPath
    [(`"custom_folder", clickedFolder);
     (`"package_name", packageName);
     (`"root_folder", rootFolder)].

Definition contentOf (rootFolder clickedFolder packageName templateContent : str)
  : str :=
  let templateContent :=
    replacePlaceholdersInContent templateContent
      [(`"custom_folder", clickedFolder);
       (`"package_name", packageName);
       (`"root_folder", rootFolder)] in
  fixDartImports templateContent packageName.

(** One iteration of the loop: the body of the [try] and its [catch]. *)
Definition processTemplate (templateFolder rootFolder clickedFolder packageName
                            folderType : str)
  (st : loopState) (templateFile : str) : loopState :=
  let destinationPath :=
    destinationOf templateFolder rootFolder clickedFolder packageName
                  folderType templateFile in
  match readFileSync (world st) templateFile with
  | None =>
    {| world := world st;
       events := events st ++ [ErrorProcessing templateFile];
       filesCreated := filesCreated st |}
  | Some templateContent =>
    let templateContent :=
      contentOf rootFolder clickedFolder packageName templateContent in
    match writeFileExtPromise (world st) destinationPath templateContent with
    | (w, true) =>
      {| world := w;
         events := events st ++ [Created destinationPath];
         filesCreated := S (filesCreated st) |}
    | (w, false) =>
      {| world := w;
         events := events st ++ [ErrorProcessing templateFile];
         filesCreated := filesCreated st |}
    end
  end.

(** The [for] loop over the template files. *)
Definition copyLoop (templateFolder rootFolder clickedFolder packageName
                     folderType : str)
  (templateFiles : list str) (st : loopState) : loopState :=
  fold_left (processTemplate templateFolder rootFolder clickedFolder
                             packageName folderType)
            templateFiles st.

(** [copyInitialTemplatesFromFolder]: the walk, then the loop from a count
    of zero; the final state carries the returned [filesCreated]. *)
Definition copyInitialTemplatesFromFolder
  (w : World) (at_folder : option node)
  (templateFolder rootFolder clickedFolder packageName folderType : str)
  : result loopState :=
  match getAllTemplateFiles templateFolder at_folder with
  | Throw e => Throw e
  | Ok templateFiles =>
    Ok (copyLoop templateFolder rootFolder clickedFolder packageName folderType
                 templateFiles
                 {| world := w; events := []; filesCreated := 0 |})
  end.

End Materializer.

Arguments world {World} _.
Arguments events {World} _.
Arguments filesCreated {World} _.
Arguments Build_loopState {World} _ _ _.
Arguments processTemplate {CC World}.
Arguments copyLoop {CC World}.
Arguments copyInitialTemplatesFromFolder {CC World}.

(** ** create_usecase.ts: the template loop of [createUsecase] *)

Module Usecase.

Section CreateUsecase.

Context {CC : ChangeCase}.

(** [getTemplatesFileList] *)
Definition getTemplatesFileList (filePathConfig : list str) : list str :=
  filter (fun element => endsWith element `".template") filePathConfig.

Definition isFeature (item : str) : bool := includes item `"feature_name".

(** [array.indexOf(x, from)]; [None] stands for -1. *)
Fixpoint indexOf_at (i : nat) (l : list str) (x : str) (from : nat) : option nat :=
  match l with
  | [] => None
  | y :: l' =>
    if Nat.leb from i && (if list_eq_dec ascii_dec y x then true else false)
    then Some i
    else indexOf_at (S i) l' x from
  end.

Definition indexOf (l : list str) (x : str) (from : nat) : option nat :=
  indexOf_at 0 l x from.

(** [getFeatureName]; [None] stands for [undefined] (an index outside the
    array).  [rootFsPath] is [utils.getRootFolder(uri)]. *)
Definition getFeatureName (clickedFolder template rootFsPath : str) : option str :=
  let template := replaceName template `"{{root_folder}}" rootFsPath in
  let templateArray := split template "/" in
  let clickedArray := split clickedFolder "/" in
  let indexOfFeatureName :=
    match find isFeature templateArray with
    | Some featureName => indexOf templateArray featureName 3
    | None => Some 0
    end in
  match indexOfFeatureName with
  | Some (S _) =>
    match indexOf clickedArray `"domain" 0 with
    | Some (S i) => nth_error clickedArray i
    | _ => None
    end
  | _ => Some []
  end.

(** The thirty [replaceName] calls of the path and of the content, in the
    order the code chains them: for each style suffix in turn, the five
    keys. *)
Definition bindings (featureName clickedFolder usecaseName packageName
                     rootFolder : str) : list (str * str) :=
  [(`"feature_name", featureName);
   (`"custom_folder", clickedFolder);
   (`"usecase_name", usecaseName);
   (`"package_name", packageName);
   (`"root_folder", rootFolder)].

Definition chainRules (bs : list (str * str)) : list (str * str) :=
  flat_map (fun style =>
              map (fun kv => (`"{{" ++ fst kv ++ style ++ `"}}", snd kv)) bs)
           styles.

Definition replaceChain (text : str) (bs : list (str * str)) : str :=
  rewrite text (chainRules bs).

Definition pathFileName (element featureName clickedFolder usecaseName
                         packageName rootFolder : str) : str :=
  replaceAll
    (replaceChain element
       (bindings featureName clickedFolder usecaseName packageName rootFolder))
    `".template" `".dart".

(** [element.substring(element.lastIndexOf("/") + 1, element.length)] *)
Definition templateFileNameOf (element : str) : str :=
  last (split element "/") [].

(** [templatesMap.set(key, value)]: a key already present keeps its place. *)
Fixpoint mapSet (m : list (str * str)) (key value : str) : list (str * str) :=
  match m with
  | [] => [(key, value)]
  | (k, v) :: m' =>
    if list_eq_dec ascii_dec k key then (k, value) :: m'
    else (k, v) :: mapSet m' key value
  end.

Variable readFileSync : str -> option str.

(** The state the first loop updates: the variable [featureName] declared
    outside the callback, and [templatesMap]. *)
Record loopState : Type := {
  featureName : option str;
  templatesMap : list (str * str)
}.

(** The callback of [templatesList.forEach]: it is an [async] function
    without [await], so an exception of [readFileSync] rejects the promise
    it returns, which nobody awaits, and the loop goes on. *)
Definition collectTemplate (clickedFolder usecaseName packageName rootFolder
                            rootFsPath : str)
  (st : loopState) (element : str) : loopState :=
  let fn := getFeatureName clickedFolder element rootFsPath in
  match fn with
  | Some (c :: f) =>
    let feature := c :: f in
    let templateFileName := templateFileNameOf element in
    let path :=
      pathFileName element feature clickedFolder usecaseName packageName
                   rootFolder in
    let templateFile := rootFolder ++ `"/.my_templates/" ++ templateFileName in
    match readFileSync templateFile with
    | Some (d :: content) =>
      {| featureName := fn;
         templatesMap := mapSet (templatesMap st) path (d :: content) |}
    | _ => {| featureName := fn; templatesMap := templatesMap st |}
    end
  | _ => {| featureName := fn; templatesMap := templatesMap st |}
  end.

(** The second loop, over the map: each content goes through the chain
    with the value [featureName] has after the first loop, and the file is
    handed to [writeFileExt].  With [featureName] undefined the call
    [replaceFor.toLowerCase()] of the first entry throws. *)
Definition writesOf (st : loopState)
  (clickedFolder usecaseName packageName rootFolder : str)
  : result (list (str * str)) :=
  match templatesMap st with
  | [] => Ok []
  | _ :: _ =>
    match featureName st with
    | None => Throw `"TypeError"
    | Some feature =>
      Ok (map (fun entry =>
                 (fst entry,
                  replaceChain (snd entry)
                    (bindings feature clickedFolder usecaseName packageName
                              rootFolder)))
              (templatesMap st))
    end
  end.

(** [createUsecase] after the names are known: the files it hands to
    [writeFileExt], path and content, in order.  [uriFsPath] is
    [uri.fsPath] of the clicked folder and [rootFsPath] the workspace
    folder; an empty use case name ends the command at once. *)
Definition createUsecase (uriFsPath rootFsPath usecaseName : str)
  (filePathConfigList : list str) : result (list (str * str)) :=
  let clickedFolder := replaceAll uriFsPath [ "\" ] `"/" in
  let rootFolder := replaceAll rootFsPath [ "\" ] `"/" in
  let packageName :=
    replaceAll (last (split rootFsPath "\") []) [ "\" ] `"/" in
  match usecaseName with
  | [] => Ok []
  | _ :: _ =>
    let templatesList := getTemplatesFileList filePathConfigList in
    let st :=
      fold_left (collectTemplate clickedFolder usecaseName packageName
                                 rootFolder rootFsPath)
                templatesList
                {| featureName := None; templatesMap := [] |} in
    writesOf st clickedFolder usecaseName packageName rootFolder
  end.

(** [replacePlaceholdersInContent] of the reworked command: it builds the
    placeholders object from the five names and loops as above. *)
Definition replacePlaceholdersInContent5 (content featureName usecaseName
                                          packageName clickedFolder
                                          rootFolder : str) : str :=
  replacePlaceholdersInContent content
    [(`"feature_name", featureName);
     (`"usecase_name", usecaseName);
     (`"package_name", packageName);
     (`"custom_folder", clickedFolder);
     (`"root_folder", rootFolder)].

End CreateUsecase.

End Usecase.

(** * The commands around the rewriter *)

(** ** More string methods *)

(** [s.indexOf(p)]; [None] stands for -1. *)
Fixpoint stringIndexOf_from (i : nat) (s p : str) {struct s} : option nat :=
  if startsWith s p then Some i
  else match s with
       | [] => None
       | _ :: s' => stringIndexOf_from (S i) s' p
       end.

Definition stringIndexOf (s p : str) : option nat := stringIndexOf_from 0 s p.

(** [s.substring(from, to)] for indices that are not negative: both are
    brought down to the length of [s], and taken in the other order when
    [from] is the larger. *)
Definition substring (s : str) (from to : nat) : str :=
  let a := Nat.min from (length s) in
  let b := Nat.min to (length s) in
  firstn (Nat.max a b - Nat.min a b) (skipn (Nat.min a b) s).

(** ** tools.ts: the folders of a command *)

(** [getClickedFolder(uri)]; [uriFsPath] is [uri.fsPath]. *)
Definition getClickedFolder (uriFsPath : str) : str :=
  replaceAll uriFsPath [ "\" ] `"/".

(** [getPackageName(uri)], given what [getRootFolder(uri)] returns; [None]
    stands for [undefined] (the uri lies in no workspace folder): [split]
    throws on it and the [catch] returns the empty string. *)
Definition getPackageName (rootFsPath : option str) : str :=
  match rootFsPath with
  | None => []
  | Some rootFolder => last (split rootFolder "\") []
  end.

(** ** create_initials.ts: [createInitials] *)

Module Initials.

Section CreateInitials.

Context {CC : ChangeCase}.

(** The file system: what stands at a path ([existsSync], [readdirSync]
    and [statSync] read it), reading a file, writing one. *)
Variable World : Type.
Variable nodeAt : World -> str -> option node.
Variable readFileSync : World -> str -> option str.
Variable writeFileExtPromise : World -> str -> str -> World * bool.

(** The messages of the command, with the numbers and names they show. *)
Inductive message : Type :=
| CreatedFrom (filesCreated : nat) (folder : str)
| FolderNotFound (folder : str)
| SetupCompleted (totalFilesCreated : nat)
| NoTemplateFiles
| ErrorCreating (error : str).

Record state : Type := {
  fs : World;
  copied : list event;
  shown : list message;
  totalFilesCreated : nat
}.

Inductive outcome : Type :=
| TemplatesMissing
| Completed (st : state)
| Failed (st : state) (error : str).

(** The loop over the initial folders, inside the [try]: an exception of
    the copy of one folder ends it. *)
Fixpoint copyFolders (templateBaseFolder rootFolder clickedFolder
                      packageName : str)
  (initialFolders : list str) (st : state) : state * option str :=
  match initialFolders with
  | [] => (st, None)
  | folder :: rest =>
    let folderPath := templateBaseFolder ++ `"/" ++ folder in
    match nodeAt (fs st) folderPath with
    | Some at_folder =>
      match copyInitialTemplatesFromFolder readFileSync writeFileExtPromise
              (fs st) (Some at_folder) folderPath rootFolder clickedFolder
              packageName folder with
      | Ok r =>
        copyFolders templateBaseFolder rootFolder clickedFolder packageName
          rest
          {| fs := world r;
             copied := copied st ++ events r;
             shown := shown st ++ [CreatedFrom (filesCreated r) folder];
             totalFilesCreated := totalFilesCreated st + filesCreated r |}
      | Throw error => (st, Some error)
      end
    | None =>
      copyFolders templateBaseFolder rootFolder clickedFolder packageName
        rest
        {| fs := fs st;
           copied := copied st;
           shown := shown st ++ [FolderNotFound folder];
           totalFilesCreated := totalFilesCreated st |}
    end
  end.

(** [createInitials] in a workspace folder [rootFsPath].  Without the
    template folder the command asks whether to download the templates and
    returns; no template is copied then. *)
Definition createInitials (w : World) (uriFsPath rootFsPath : str) : outcome :=
  let clickedFolder := getClickedFolder uriFsPath in
  let rootFolder := replaceAll rootFsPath [ "\" ] `"/" in
  let packageName :=
    replaceAll (getPackageName (Some rootFsPath)) [ "\" ] `"/" in
  let templateBaseFolder :=
    rootFolder ++ `"/.my_templates/flutter_tdd_clean_templates" in
  match nodeAt w templateBaseFolder with
  | None => TemplatesMissing
  | Some _ =>
    match copyFolders templateBaseFolder rootFolder clickedFolder packageName
            [ `"config"; `"core"; `"test" ]
            {| fs := w; copied := []; shown := []; totalFilesCreated := 0 |}
    with
    | (st, None) =>
      Completed
        {| fs := fs st;
           copied := copied st;
           shown := shown st ++
                    [if Nat.ltb 0 (totalFilesCreated st)
                     then SetupCompleted (totalFilesCreated st)
                     else NoTemplateFiles];
           totalFilesCreated := totalFilesCreated st |}
    | (st, Some error) =>
      Failed
        {| fs := fs st;
           copied := copied st;
           shown := shown st ++ [ErrorCreating error];
           totalFilesCreated := totalFilesCreated st |}
        error
    end
  end.

End CreateInitials.

Arguments fs {World} _.
Arguments copied {World} _.
Arguments shown {World} _.
Arguments totalFilesCreated {World} _.
Arguments Build_state {World} _ _ _ _.
Arguments TemplatesMissing {World}.
Arguments Completed {World} st.
Arguments Failed {World} st error.
Arguments copyFolders {CC World}.
Arguments createInitials {CC World}.

End Initials.

(** ** The reworked create_initials.ts: the templates of the test folder *)

(** The entry of a directory under a name; a path below a file does not
    exist. *)
Definition childAt (n : node) (name : str) : option node :=
  match n with
  | File _ => None
  | Dir entries =>
    option_map snd
      (find (fun e => if list_eq_dec ascii_dec (fst e) name then true else false)
            entries)
  end.

(** [getFilteredTestTemplateFiles(testFolder)], given what the file system
    has at [testFolder]: the walk of the allowed folders that exist. *)
Definition getFilteredTestTemplateFiles (testFolder : str)
  (at_testFolder : option node) : result (list str) :=
  match at_testFolder with
  | None => Ok []
  | Some n =>
    fold_left
      (fun files allowedFolder =>
         match files with
         | Throw e => Throw e
         | Ok files =>
           let allowedFolderPath := testFolder ++ `"/" ++ allowedFolder in
           match childAt n allowedFolder with
           | Some at_allowed =>
             match getAllTemplateFiles allowedFolderPath (Some at_allowed) with
             | Ok folderFiles => Ok (files ++ folderFiles)
             | Throw e => Throw e
             end
           | None => Ok files
           end
         end)
      [ `"core"; `"fixtures" ] (Ok [])
  end.

(** ** The reworked create_usecase.ts *)

Module ReworkedUsecase.

(** [getFeatureNameFromPath] *)
Definition getFeatureNameFromPath (clickedFolder : str) : str :=
  let pathParts := split clickedFolder "/" in
  let otherPatterns :=
    match Usecase.indexOf pathParts `"domain" 0 with
    | Some (S beforeDomain) => nth beforeDomain pathParts []
    | _ =>
      if Nat.leb 2 (length pathParts)
      then nth (length pathParts - 2) pathParts []
      else []
    end in
  match Usecase.indexOf pathParts `"src" 0 with
  | Some srcIndex =>
    if Nat.ltb (srcIndex + 1) (length pathParts)
    then nth (srcIndex + 1) pathParts []
    else otherPatterns
  | None => otherPatterns
  end.

Section CreateUsecase.

Context {CC : ChangeCase}.

Variable World : Type.
Variable existsSync : World -> str -> bool.
Variable readFileSync : World -> str -> option str.
Variable writeFileExtPromise : World -> str -> str -> World * bool.

(** [processUsecaseTemplate]: the world it leaves, and whether it returned
    ([true]) or threw again what the read or the write threw ([false]). *)
Definition processUsecaseTemplate (w : World)
  (templatePath destinationPath : str)
  (featureName usecaseName packageName clickedFolder rootFolder : str)
  : World * bool :=
  match readFileSync w templatePath with
  | None => (w, false)
  | Some templateContent =>
    let templateContent :=
      Usecase.replacePlaceholdersInContent5 templateContent featureName
        usecaseName packageName clickedFolder rootFolder in
    let templateContent := fixDartImports templateContent packageName in
    writeFileExtPromise w destinationPath templateContent
  end.

Inductive message : Type :=
| CouldNotDetermineFeature
| TemplateNotFound (templatePath : str)
| UsecaseCreated (usecaseName : str) (filesCreated : nat)
| NoFilesCreated
| ErrorCreatingUsecase.

Record state : Type := {
  fs : World;
  shown : list message;
  filesCreated : nat
}.

Inductive outcome : Type :=
| Returned (st : state)
| Thrown (st : state).

(** The loop over the templates of the use case, inside the [try]. *)
Fixpoint processTemplates (usecaseTemplates : list (str * str))
  (featureName usecaseName packageName clickedFolder rootFolder : str)
  (st : state) : state * bool :=
  match usecaseTemplates with
  | [] => (st, true)
  | (templatePath, destinationPath) :: rest =>
    if existsSync (fs st) templatePath then
      match processUsecaseTemplate (fs st) templatePath destinationPath
              featureName usecaseName packageName clickedFolder rootFolder with
      | (w, true) =>
        processTemplates rest featureName usecaseName packageName
          clickedFolder rootFolder
          {| fs := w; shown := shown st; filesCreated := S (filesCreated st) |}
      | (w, false) =>
        ({| fs := w; shown := shown st; filesCreated := filesCreated st |},
         false)
      end
    else
      processTemplates rest featureName usecaseName packageName
        clickedFolder rootFolder
        {| fs := fs st;
           shown := shown st ++ [TemplateNotFound templatePath];
           filesCreated := filesCreated st |}
  end.

(** The templates of a use case: the template to read and the file to
    write. *)
Definition usecaseTemplates (rootFolder featureName usecaseName : str)
  : list (str * str) :=
  let templateBaseFolder :=
    rootFolder ++ `"/.my_templates/flutter_tdd_clean_templates" in
  [ (templateBaseFolder ++ `"/feature/usecase/params/" ++ usecaseName
       ++ `"_usecase.template",
     rootFolder ++ `"/lib/src/" ++ featureName ++ `"/domain/usecases/"
       ++ usecaseName ++ `"_usecase.dart");
    (templateBaseFolder ++ `"/test/usecase/params/" ++ usecaseName
       ++ `"_usecase_test.template",
     rootFolder ++ `"/test/src/" ++ featureName ++ `"/domain/usecases/"
       ++ usecaseName ++ `"_usecase_test.dart") ].

(** [createUsecase]; [packageName] is what [getPackageName] returned and
    [usecaseName] what the input box returned, [None] when it was
    dismissed. *)
Definition createUsecase (w : World) (uriFsPath rootFsPath packageName : str)
  (usecaseName : option str) : outcome :=
  let clickedFolder := getClickedFolder uriFsPath in
  let rootFolder := replaceAll rootFsPath [ "\" ] `"/" in
  let packageName := replaceAll packageName [ "\" ] `"/" in
  match usecaseName with
  | None | Some [] => Returned {| fs := w; shown := []; filesCreated := 0 |}
  | Some usecaseName =>
    match getFeatureNameFromPath clickedFolder with
    | [] =>
      Returned {| fs := w; shown := [CouldNotDetermineFeature];
                  filesCreated := 0 |}
    | featureName =>
      match processTemplates
              (usecaseTemplates rootFolder featureName usecaseName)
              featureName usecaseName packageName clickedFolder rootFolder
              {| fs := w; shown := []; filesCreated := 0 |} with
      | (st, true) =>
        Returned
          {| fs := fs st;
             shown := shown st ++
                      [if Nat.ltb 0 (filesCreated st)
                       then UsecaseCreated usecaseName (filesCreated st)
                       else NoFilesCreated];
             filesCreated := filesCreated st |}
      | (st, false) =>
        Thrown
          {| fs := fs st;
             shown := shown st ++ [ErrorCreatingUsecase];
             filesCreated := filesCreated st |}
      end
    end
  end.

End CreateUsecase.

Arguments fs {World} _.
Arguments shown {World} _.
Arguments filesCreated {World} _.
Arguments Build_state {World} _ _ _.
Arguments Returned {World} st.
Arguments Thrown {World} st.
Arguments processUsecaseTemplate {CC World}.
Arguments processTemplates {CC World}.
Arguments createUsecase {CC World}.

End ReworkedUsecase.

(** ** extension.ts: the check of the use case templates *)

Module Extension.

(** [usecaseTemplatesOk(uri)]; [uriPath] is [uri.path].  An index of -1
    counts as 0 in [substring]. *)
Definition usecaseTemplatesOk (existsSync : str -> bool) (uriPath : str) : bool :=
  let rootFolder :=
    substring uriPath 1
      (match stringIndexOf uriPath `"/lib" with
       | Some i => i
       | None => 0
       end) in
  let templateBaseFolder :=
    rootFolder ++ `"/.my_templates/flutter_tdd_clean_templates" in
  let requiredTemplates :=
    [ templateBaseFolder
        ++ `"/feature/usecase/params/{{usecase_name.snakeCase}}_usecase.template";
      templateBaseFolder
        ++ `"/test/usecase/params/{{usecase_name.snakeCase}}_usecase_test.template" ] in
  forallb existsSync requiredTemplates.

End Extension.

(** * Notions of the statements *)

(** Induction on a tree with the hypothesis for every entry of a
    directory. *)
Fixpoint node_entries_ind (P : node -> Prop)
  (HFile : forall content, P (File content))
  (HDir : forall entries, Forall (fun e => P (snd e)) entries -> P (Dir entries))
  (n : node) {struct n} : P n :=
  match n with
  | File content => HFile content
  | Dir entries =>
    HDir entries
      ((fix all (es : list (str * node)) : Forall (fun e => P (snd e)) es :=
          match es with
          | [] => Forall_nil _
          | (item, child) :: rest =>
            Forall_cons (item, child)
                        (node_entries_ind P HFile HDir child) (all rest)
          end) entries)
  end.

(** ** The walker *)

(** The template files below a directory, as a relation: a file entry
    whose name ends in .template, here or in a subdirectory at any
    depth. *)
Inductive templateUnder : str -> list (str * node) -> str -> Prop :=
| template_here (dir : str) (entries : list (str * node)) (item content : str) :
    In (item, File content) entries ->
    endsWith item `".template" = true ->
    templateUnder dir entries (dir ++ `"/" ++ item)
| template_below (dir : str) (entries : list (str * node)) (item : str)
    (sub : list (str * node)) (p : str) :
    In (item, Dir sub) entries ->
    templateUnder (dir ++ `"/" ++ item) sub p ->
    templateUnder dir entries p.

(** What the loop of [getAllTemplateFiles] adds for one entry. *)
Definition entryFiles (dir : str) (e : str * node) : list str :=
  let fullPath := dir ++ `"/" ++ fst e in
  match snd e with
  | Dir _ => templateFilesIn fullPath (snd e)
  | File _ => if endsWith (fst e) `".template" then [fullPath] else []
  end.

(** ** The batch *)

Definition isCreated (e : event) : bool :=
  match e with
  | Created _ => true
  | ErrorProcessing _ => false
  end.

(** What one template leaves behind: a created file, counted, or an error
    report, not counted. *)
Definition reported {CC : ChangeCase}
  (templateFolder rootFolder clickedFolder packageName folderType : str)
  (templateFile : str) (e : event) : Prop :=
  e = Created (destinationOf templateFolder rootFolder clickedFolder
                             packageName folderType templateFile)
  \/ e = ErrorProcessing templateFile.

Section BatchRun.

Context {CC : ChangeCase}.
Variable World : Type.
Variable readFileSync : World -> str -> option str.
Variable writeFileExtPromise : World -> str -> str -> World * bool.
Variables templateFolder rootFolder clickedFolder packageName folderType : str.

(** A run of the batch over the template files, from one world to
    another, with the reports it leaves and the number of files it wrote.
    A template that is read and whose write resolves is written, at its
    destination and with its expanded content, reported as created and
    counted, and the run goes on in the world the write left; a template
    whose read throws is reported as an error, in the same world; one whose
    write rejects is reported as an error, and the run goes on in the world
    the attempt left. *)
Inductive batchRun : World -> list str -> World -> list event -> nat -> Prop :=
| run_done (w : World) :
    batchRun w [] w [] 0
| run_created (w w1 w2 : World) (f : str) (fs : list str) (content : str)
    (es : list event) (n : nat) :
    readFileSync w f = Some content ->
    writeFileExtPromise w
      (destinationOf templateFolder rootFolder clickedFolder packageName
                     folderType f)
      (contentOf rootFolder clickedFolder packageName content)
    = (w1, true) ->
    batchRun w1 fs w2 es n ->
    batchRun w (f :: fs) w2
      (Created (destinationOf templateFolder rootFolder clickedFolder
                              packageName folderType f) :: es)
      (S n)
| run_unreadable (w w2 : World) (f : str) (fs : list str)
    (es : list event) (n : nat) :
    readFileSync w f = None ->
    batchRun w fs w2 es n ->
    batchRun w (f :: fs) w2 (ErrorProcessing f :: es) n
| run_rejected (w w1 w2 : World) (f : str) (fs : list str) (content : str)
    (es : list event) (n : nat) :
    readFileSync w f = Some content ->
    writeFileExtPromise w
      (destinationOf templateFolder rootFolder clickedFolder packageName
                     folderType f)
      (contentOf rootFolder clickedFolder packageName content)
    = (w1, false) ->
    batchRun w1 fs w2 es n ->
    batchRun w (f :: fs) w2 (ErrorProcessing f :: es) n.

End BatchRun.

Arguments batchRun {CC World}.

(** ** Texts and tokens *)

Definition str_eqb (a b : str) : bool :=
  if list_eq_dec ascii_dec a b then true else false.

(** A replacement string without a dollar sign: [replaceAll] inserts it as
    it is. *)
Definition noDollar (rep : str) : bool :=
  forallb (fun c => negb (Ascii.eqb c "$")) rep.

Definition braceFree (s : str) : bool :=
  forallb (fun c => negb (Ascii.eqb c "{") && negb (Ascii.eqb c "}")) s.

(** A text that can be inserted without making or breaking a token, and
    that [replaceAll] inserts as it is. *)
Definition inert (s : str) : bool := braceFree s && noDollar s.

(** A text no proper suffix of which is a prefix of it: two occurrences of
    it cannot overlap. *)
Definition unbordered (sep : str) : bool :=
  forallb (fun k => negb (startsWith sep (skipn k sep)))
          (seq 1 (length sep - 1)).

(** The literal text of a token: the name, with its style suffix if any,
    between double braces. *)
Definition placeholder (name : str) : str := "{" :: "{" :: name ++ ["}"; "}"].

(** The name between the braces of a token. *)
Definition tokenName (token : str) : str :=
  removelast (removelast (skipn 2 token)).

Definition isPlaceholder (token : str) : bool :=
  str_eqb token (placeholder (tokenName token)) && braceFree (tokenName token).

(** A variable name: letters, digits and underscores. *)
Definition identChar (c : ascii) : bool :=
  isUpper c || isLower c || isDigit c || Ascii.eqb c "_".

Definition identifier (s : str) : bool := forallb identChar s.

(** The tokens of a rule set are pairwise disjoint when none is a part of
    another. *)
Fixpoint pairwiseDisjoint (tokens : list str) : bool :=
  match tokens with
  | [] => true
  | t :: rest =>
    forallb (fun u => negb (includes t u) && negb (includes u t)) rest
    && pairwiseDisjoint rest
  end.

(** No occurrence of [search] overlaps an occurrence of [token], whatever
    surrounds them: none starts inside [token], and none that starts
    before [token] reaches into it. *)
Definition protected (search token : str) : Prop :=
  (forall t1 t2 y, token = t1 ++ t2 -> t2 <> [] ->
                   startsWith (t2 ++ y) search = false)
  /\ (forall s1 s2 y, search = s1 ++ s2 -> s1 <> [] -> s2 <> [] ->
                      startsWith (token ++ y) s2 = false).

(** ** Templates *)

(** A template text read as a sequence of literal characters and
    tokens. *)
Inductive item : Type :=
| Lit (c : ascii)
| Tok (name : str).

Fixpoint render (t : list item) : str :=
  match t with
  | [] => []
  | Lit c :: t' => c :: render t'
  | Tok name :: t' => placeholder name ++ render t'
  end.

(** The name of the token that stands at the head of a text, if one does:
    two opening braces, a name without a brace, two closing braces. *)
Fixpoint nameUpTo (s : str) : option str :=
  match s with
  | [] => None
  | c :: s' =>
    if Ascii.eqb c "{" then None
    else if Ascii.eqb c "}" then
      match s' with
      | d :: _ => if Ascii.eqb d "}" then Some [] else None
      | [] => None
      end
    else option_map (cons c) (nameUpTo s')
  end.

Definition tokenAt (s : str) : option str :=
  match s with
  | c :: d :: s' =>
    if Ascii.eqb c "{" && Ascii.eqb d "{" then nameUpTo s' else None
  | _ => None
  end.

(** A text read from left to right: a token where one stands, a literal
    character elsewhere; [skip] counts the characters of the current token
    still to be passed over. *)
Fixpoint parse_from (skip : nat) (s : str) {struct s} : list item :=
  match s with
  | [] => []
  | c :: s' =>
    match skip with
    | S k => parse_from k s'
    | O =>
      match tokenAt s with
      | Some name => Tok name :: parse_from (length name + 3) s'
      | None => Lit c :: parse_from 0 s'
      end
    end
  end.

Definition parse (text : str) : list item := parse_from 0 text.

(** In a well-formed template two opening braces in a row only open a
    token, and a token's name has no brace: a literal opening brace is not
    followed by another opening brace. *)
Fixpoint wellFormed (t : list item) : bool :=
  match t with
  | [] => true
  | Lit c :: t' =>
    (negb (Ascii.eqb c "{") || negb (startsWith (render t') ["{"]))
    && wellFormed t'
  | Tok name :: t' => braceFree name && wellFormed t'
  end.

Definition wellFormedText (text : str) : bool := wellFormed (parse text).

(** The text inserted for the tokens of one name. *)
Definition substItem (name v : str) (it : item) : list item :=
  match it with
  | Lit _ => [it]
  | Tok m => if str_eqb m name then map Lit v else [it]
  end.

Definition subst (name v : str) (t : list item) : list item :=
  flat_map (substItem name v) t.

Definition hasTok (name : str) (t : list item) : bool :=
  existsb (fun it => match it with Tok m => str_eqb m name | Lit _ => false end) t.

(** ** Rules *)

Section Notions.

Context {CC : ChangeCase}.

(** The replacement of the first pass of [replaceName] that applies: the
    transform of the first label, in the order of the tests, that the token
    text contains; [None] when it contains no label. *)
Definition caseTransformOf (searchTerm replaceFor : str) : option str :=
  if includes searchTerm `"lowerCase" then Some (toLowerCase replaceFor)
  else if includes searchTerm `"upperCase" then Some (toUpperCase replaceFor)
  else if includes searchTerm `"snakeCase" then Some (snakeCase replaceFor)
  else if includes searchTerm `"pascalCase" then Some (pascalCase replaceFor)
  else if includes searchTerm `"camelCase" then Some (camelCase replaceFor)
  else None.

(** The replacement strings of the passes of [replaceName], in order: one
    for each label the token text contains, then the value itself. *)
Definition passes (searchTerm replaceFor : str) : list str :=
  (if includes searchTerm `"lowerCase" then [toLowerCase replaceFor] else [])
  ++ (if includes searchTerm `"upperCase" then [toUpperCase replaceFor] else [])
  ++ (if includes searchTerm `"snakeCase" then [snakeCase replaceFor] else [])
  ++ (if includes searchTerm `"pascalCase" then [pascalCase replaceFor] else [])
  ++ (if includes searchTerm `"camelCase" then [camelCase replaceFor] else [])
  ++ [replaceFor].

(** What [replaceName] inserts for a token: the selected transform of the
    value, or the value itself. *)
Definition effective (searchTerm replaceFor : str) : str :=
  match caseTransformOf searchTerm replaceFor with
  | Some transformed => transformed
  | None => replaceFor
  end.

(** A rule whose token is a placeholder and whose inserted text is
    inert. *)
Definition ruleOk (rule : str * str) : bool :=
  isPlaceholder (fst rule) && inert (effective (fst rule) (snd rule)).

Definition substRule (t : list item) (rule : str * str) : list item :=
  subst (tokenName (fst rule)) (effective (fst rule) (snd rule)) t.

(** The text inserted for a name: that of the first rule for it. *)
Definition lookupRule (rules : list (str * str)) (name : str) : option str :=
  match find (fun rule => str_eqb (tokenName (fst rule)) name) rules with
  | Some rule => Some (effective (fst rule) (snd rule))
  | None => None
  end.

Definition substItemAll (rules : list (str * str)) (it : item) : list item :=
  match it with
  | Lit _ => [it]
  | Tok m =>
    match lookupRule rules m with
    | Some v => map Lit v
    | None => [it]
    end
  end.

(** Every token replaced at once by the text of its rule. *)
Definition substAll (rules : list (str * str)) (t : list item) : list item :=
  flat_map (substItemAll rules) t.

(** The first rule, in order, whose token stands at the head of the
    text. *)
Definition ruleAt (rules : list (str * str)) (s : str) : option (str * str) :=
  find (fun rule => negb (str_eqb (fst rule) []) && startsWith s (fst rule))
       rules.

(** The rewriter as section 4.3 of the specification words it: the text
    is passed over once; where the token of a rule stands, the rule's
    replacement is put in its place and the scan resumes behind the token,
    so that the inserted text is never scanned.  The replacement of a rule
    is the value rendered in the style of its token. *)
Fixpoint onePass_from (rules : list (str * str)) (skip : nat) (s : str)
  {struct s} : str :=
  match s with
  | [] => []
  | c :: s' =>
    match skip with
    | S k => onePass_from rules k s'
    | O =>
      match ruleAt rules s with
      | Some rule =>
        effective (fst rule) (snd rule)
        ++ onePass_from rules (length (fst rule) - 1) s'
      | None => c :: onePass_from rules 0 s'
      end
    end
  end.

Definition rewriteOnePass (text : str) (rules : list (str * str)) : str :=
  onePass_from rules 0 text.

End Notions.

(** ** Labels *)

(** The labels [replaceName] looks for in a token. *)
Definition labels : list str :=
  [ `"lowerCase"; `"upperCase"; `"snakeCase"; `"pascalCase"; `"camelCase" ].

(** ** Paths *)

(** A text without the character [c]. *)
Definition lacks (c : ascii) (s : str) : bool :=
  forallb (fun d => negb (Ascii.eqb d c)) s.

(** ** Trees of a file system *)

(** A tree in which the entries of every directory have distinct names
    that hold no slash. *)
Fixpoint wellNamed (n : node) {struct n} : Prop :=
  match n with
  | File _ => True
  | Dir entries =>
    NoDup (map fst entries)
    /\ Forall (fun item => lacks "/" item = true) (map fst entries)
    /\ (fix all (items : list (str * node)) : Prop :=
          match items with
          | [] => True
          | (_, child) :: rest => wellNamed child /\ all rest
          end) entries
  end.

(** ** The messages of [createInitials] *)

(** What the command shows for one of the initial folders: that the folder
    is not among the templates, or the number of files created from it. *)
Definition folderMessage (folder : str) (m : Initials.message) : Prop :=
  m = Initials.FolderNotFound folder
  \/ exists filesCreated, m = Initials.CreatedFrom filesCreated folder.

Section FolderCopies.

Context {CC : ChangeCase}.
Variable World : Type.
Variable nodeAt : World -> str -> option node.
Variable readFileSync : World -> str -> option str.
Variable writeFileExtPromise : World -> str -> str -> World * bool.
Variables templateBaseFolder rootFolder clickedFolder packageName : str.

(** The copies of a list of folders of the template folder, from one world
    to another, with the reports of the batches, the messages shown and
    the number of files written.  For a folder that does not exist nothing
    is copied and the message says that it was not found; for a folder
    that exists the batch runs over the template files below it, in the
    world the folders before it left, and the message gives the number of
    files that run wrote. *)
Inductive folderCopies :
  World -> list str -> World -> list event -> list Initials.message -> nat
  -> Prop :=
| copies_done (w : World) :
    folderCopies w [] w [] [] 0
| copies_missing (w w' : World) (folder : str) (rest : list str)
    (es : list event) (msgs : list Initials.message) (n : nat) :
    nodeAt w (templateBaseFolder ++ `"/" ++ folder) = None ->
    folderCopies w rest w' es msgs n ->
    folderCopies w (folder :: rest) w' es
      (Initials.FolderNotFound folder :: msgs) n
| copies_found (w w1 w' : World) (folder : str) (rest : list str)
    (at_folder : node) (templateFiles : list str)
    (es1 es : list event) (msgs : list Initials.message) (k n : nat) :
    nodeAt w (templateBaseFolder ++ `"/" ++ folder) = Some at_folder ->
    getAllTemplateFiles (templateBaseFolder ++ `"/" ++ folder) (Some at_folder)
    = Ok templateFiles ->
    batchRun readFileSync writeFileExtPromise
             (templateBaseFolder ++ `"/" ++ folder) rootFolder clickedFolder
             packageName folder w templateFiles w1 es1 k ->
    folderCopies w1 rest w' es msgs n ->
    folderCopies w (folder :: rest) w' (es1 ++ es)
      (Initials.CreatedFrom k folder :: msgs) (k + n).

End FolderCopies.

Arguments folderCopies {CC World}.

(** * Examples *)

(** A run of the batch on four templates: the second cannot be read and
    the write of the third is rejected. *)
Module BatchExample.

Definition World := list (str * str).

Definition readFileSync (w : World) (path : str) : option str :=
  if includes path `"unreadable" then None else Some `"// {{package_name}}".

Definition writeFileExtPromise (w : World) (path content : str) : World * bool :=
  if includes path `"denied" then (w, false) else (w ++ [(path, content)], true).

Definition entries : list (str * node) :=
  [(`"a.template", File []);
   (`"unreadable.template", File []);
   (`"sub", Dir [(`"denied.template", File []); (`"notes.txt", File [])]);
   (`"d.template", File [])].

Definition run : result (loopState World) :=
  copyInitialTemplatesFromFolder readFileSync writeFileExtPromise []
    (Some (Dir entries)) `"/t/core" `"/p" `"/p/lib" `"app" `"core".

End BatchExample.

(** A template path of the use case command with a feature segment, the
    command invoked on the domain folder of feature auth. *)
Module UsecaseExample.

Definition template : str :=
  `"{{root_folder}}/lib/src/{{feature_name}}/domain/usecases/{{usecase_name.snakeCase}}_usecase.template".

Definition uriFsPath : str := `"C:\w\proj\lib\src\auth\domain".
Definition rootFsPath : str := `"C:\w\proj".

Definition templateFile : str :=
  `"C:/w/proj/.my_templates/{{usecase_name.snakeCase}}_usecase.template".

Definition destination : str :=
  `"C:/w/proj/lib/src/auth/domain/usecases/login_user_usecase.dart".

Definition readFileSync (path : str) : option str :=
  if list_eq_dec ascii_dec path templateFile
  then Some `"class {{usecase_name.pascalCase}}Usecase {} // {{feature_name}}"
  else None.

End UsecaseExample.

(** A template text with two tokens and a block in single braces, and the
    rules the routines make for two keys. *)
Module TemplateExample.

Definition text : str :=
  `"import 'package:{{package_name}}/{{usecase_name.snakeCase}}_usecase.dart'; f() { }".

Definition placeholders : list (str * str) :=
  [(`"package_name", `"my_app"); (`"usecase_name", `"LoginUser")].

Definition rules : list (str * str) := flat_map keyRules placeholders.

End TemplateExample.

(** A project whose template folder has the core templates of the batch
    above and neither config nor test. *)
Module InitialsExample.

Definition nodeAt (w : BatchExample.World) (path : str) : option node :=
  if list_eq_dec ascii_dec path
       `"C:/w/proj/.my_templates/flutter_tdd_clean_templates"
  then Some (Dir [(`"core", Dir BatchExample.entries)])
  else if list_eq_dec ascii_dec path
            `"C:/w/proj/.my_templates/flutter_tdd_clean_templates/core"
  then Some (Dir BatchExample.entries)
  else None.

Definition run : Initials.outcome BatchExample.World :=
  Initials.createInitials nodeAt BatchExample.readFileSync
    BatchExample.writeFileExtPromise [] `"C:\w\proj\lib" `"C:\w\proj".

(** The state that run ends in. *)
Definition completed : Initials.state BatchExample.World :=
  {| Initials.fs := [(`"C:/w/proj/lib/core/a.dart", `"// proj");
                     (`"C:/w/proj/lib/core/d.dart", `"// proj")];
     Initials.copied :=
       [Created `"C:/w/proj/lib/core/a.dart";
        ErrorProcessing
          `"C:/w/proj/.my_templates/flutter_tdd_clean_templates/core/unreadable.template";
        ErrorProcessing
          `"C:/w/proj/.my_templates/flutter_tdd_clean_templates/core/sub/denied.template";
        Created `"C:/w/proj/lib/core/d.dart"];
     Initials.shown :=
       [Initials.FolderNotFound `"config";
        Initials.CreatedFrom 2 `"core";
        Initials.FolderNotFound `"test";
        Initials.SetupCompleted 2];
     Initials.totalFilesCreated := 2 |}.

End InitialsExample.

(** A test folder of templates: the folders core, usecase and fixtures
    and a template file of its own. *)
Module TestFolderExample.

Definition entries : list (str * node) :=
  [(`"core", Dir [(`"api", Dir [(`"api_request_handler_test.template", File [])])]);
   (`"usecase", Dir [(`"usecase_test.template", File [])]);
   (`"fixtures", Dir [(`"fixture_reader.template", File [])]);
   (`"all_tests.template", File [])].

End TestFolderExample.

(** A project in which both templates of the use case login_user exist
    and can be read, and every write below lib is rejected. *)
Module ReworkedExample.

Definition World := list (str * str).

Definition existsSync (w : World) (path : str) : bool :=
  includes path `"login_user_usecase".

Definition readFileSync (w : World) (path : str) : option str :=
  Some `"class {{usecase_name.pascalCase}}Usecase {}".

Definition writeFileExtPromise (w : World) (path content : str) : World * bool :=
  if includes path `"/lib/" then (w, false) else (w ++ [(path, content)], true).

End ReworkedExample.

(** * Properties *)

(** ** Prefixes and occurrences *)

Lemma startsWith_iff (s p : str) :
  startsWith s p = true <-> exists r, s = p ++ r.
Proof.
  revert s; induction p as [|c p IH]; intros s; simpl.
  - split; [intros _; now exists s | reflexivity].
  - destruct s as [|d s].
    + split; [discriminate | intros [r Hr]; discriminate].
    + rewrite andb_true_iff, Ascii.eqb_eq, IH. split.
      * intros [-> [r ->]]. now exists r.
      * intros [r Hr]. injection Hr as -> ->. split; [reflexivity | now exists r].
Qed.

Lemma startsWith_app (p r : str) : startsWith (p ++ r) p = true.
Proof. apply startsWith_iff. now exists r. Qed.

Lemma includes_iff (s p : str) :
  includes s p = true <-> exists a b, s = a ++ p ++ b.
Proof.
  induction s as [|c s IH]; simpl.
  - rewrite orb_false_r, startsWith_iff. split.
    + intros [r Hr]. exists [], r. exact Hr.
    + intros [a [b H]]. destruct a; [now exists b | discriminate].
  - rewrite orb_true_iff, startsWith_iff, IH. split.
    + intros [[r Hr] | [a [b Hab]]].
      * exists [], r. exact Hr.
      * exists (c :: a), b. now rewrite Hab.
    + intros [a [b Hab]]. destruct a as [|d a].
      * left. now exists b.
      * right. injection Hab as _ ->. now exists a, b.
Qed.

Lemma includes_false_cons (c : ascii) (s p : str) :
  includes (c :: s) p = false ->
  startsWith (c :: s) p = false /\ includes s p = false.
Proof. simpl. intros H. now apply orb_false_iff in H. Qed.

(** ** Replacement strings without a dollar sign *)

Lemma getSubstitution_noDollar (matched before after rep : str) :
  noDollar rep = true -> getSubstitution matched before after rep = rep.
Proof.
  induction rep as [|c r IH]; simpl; [reflexivity|].
  intros H. apply andb_true_iff in H as [Hc Hr].
  destruct (Ascii.eqb c "$"); [discriminate|].
  now rewrite IH.
Qed.

(** ** The equations of [replaceAll] *)

Lemma replaceAll_from_skip (search rep x before s : str) :
  replaceAll_from search rep (length x) before (x ++ s)
  = replaceAll_from search rep 0 (before ++ x) s.
Proof.
  revert before; induction x as [|c x IH]; intros before; simpl.
  - rewrite app_nil_r. destruct s; reflexivity.
  - rewrite IH. now rewrite <- app_assoc.
Qed.

(** At a match, the substitution is emitted and the scan resumes after the
    matched text. *)
Lemma replaceAll_from_match (search rep before s : str) :
  search <> [] ->
  replaceAll_from search rep 0 before (search ++ s)
  = getSubstitution search before s rep
    ++ replaceAll_from search rep 0 (before ++ search) s.
Proof.
  intros Hne. destruct search as [|c p]; [congruence|].
  change ((c :: p) ++ s) with (c :: (p ++ s)).
  cbn [replaceAll_from].
  change (c :: p ++ s) with ((c :: p) ++ s).
  rewrite startsWith_app.
  rewrite skipn_app, Nat.sub_diag, skipn_all. cbn [skipn app length].
  replace (S (length p) - 1) with (length p) by lia.
  rewrite replaceAll_from_skip.
  now rewrite <- app_assoc.
Qed.

(** Where the pattern does not match, the character is kept. *)
Lemma replaceAll_from_keep (search rep before : str) (c : ascii) (s : str) :
  startsWith (c :: s) search = false ->
  replaceAll_from search rep 0 before (c :: s)
  = c :: replaceAll_from search rep 0 (before ++ [c]) s.
Proof. intros H. cbn [replaceAll_from]. now rewrite H. Qed.

(** A subject without an occurrence of the pattern is returned as it is. *)
Lemma replaceAll_from_absent (search rep : str) (s before : str) :
  includes s search = false ->
  replaceAll_from search rep 0 before s = s.
Proof.
  revert before; induction s as [|c s IH]; intros before H; [reflexivity|].
  apply includes_false_cons in H as [H1 H2].
  rewrite replaceAll_from_keep by assumption. now rewrite IH.
Qed.

Lemma replaceAll_absent (s search rep : str) :
  includes s search = false -> replaceAll s search rep = s.
Proof.
  intros H. destruct search as [|c p].
  - destruct s; discriminate.
  - apply replaceAll_from_absent. exact H.
Qed.

(** Without a dollar sign in the replacement, the result does not depend
    on the text already passed. *)
Lemma replaceAll_from_context (search rep : str) :
  noDollar rep = true ->
  forall s k before before',
    replaceAll_from search rep k before s
    = replaceAll_from search rep k before' s.
Proof.
  intros Hrep. induction s as [|c s IH]; intros k before before'; [reflexivity|].
  cbn [replaceAll_from]. destruct k as [|k].
  - destruct (startsWith (c :: s) search).
    + rewrite !getSubstitution_noDollar by assumption.
      f_equal. apply IH.
    + f_equal. apply IH.
  - apply IH.
Qed.

Lemma replaceAll_match (search rep s : str) :
  search <> [] -> noDollar rep = true ->
  replaceAll (search ++ s) search rep = rep ++ replaceAll s search rep.
Proof.
  intros Hne Hrep. destruct search as [|c p]; [congruence|].
  unfold replaceAll. rewrite replaceAll_from_match by assumption.
  rewrite getSubstitution_noDollar by assumption.
  f_equal. now apply replaceAll_from_context.
Qed.

Lemma replaceAll_keep (search rep : str) (c : ascii) (s : str) :
  search <> [] -> noDollar rep = true ->
  startsWith (c :: s) search = false ->
  replaceAll (c :: s) search rep = c :: replaceAll s search rep.
Proof.
  intros Hne Hrep H. destruct search as [|d p]; [congruence|].
  unfold replaceAll. rewrite replaceAll_from_keep by assumption.
  f_equal. now apply replaceAll_from_context.
Qed.

Lemma replaceAll_nonempty (s search rep : str) :
  search <> [] -> replaceAll s search rep = replaceAll_from search rep 0 [] s.
Proof. destruct search; [congruence | reflexivity]. Qed.

Lemma replaceAll_nil (search rep : str) :
  search <> [] -> replaceAll [] search rep = [].
Proof. destruct search; [congruence | reflexivity]. Qed.

(** ** The routines as rule lists *)

Section RewriteFacts.

Context {CC : ChangeCase}.

Lemma rewrite_app (text : str) (rules1 rules2 : list (str * str)) :
  rewrite text (rules1 ++ rules2) = rewrite (rewrite text rules1) rules2.
Proof. apply fold_left_app. Qed.

Lemma replaceKey_rewrite (result key value : str) :
  replaceKey result key value = rewrite result (keyRules (key, value)).
Proof. reflexivity. Qed.

Lemma replacePlaceholdersInContent_rewrite (content : str)
  (placeholders : list (str * str)) :
  replacePlaceholdersInContent content placeholders
  = rewrite content (flat_map keyRules placeholders).
Proof.
  unfold replacePlaceholdersInContent.
  revert content; induction placeholders as [|[k v] ps IH]; intros content.
  - reflexivity.
  - cbn [fold_left flat_map fst snd]. rewrite rewrite_app, IH.
    now rewrite replaceKey_rewrite.
Qed.

End RewriteFacts.

(** ** The passes of [replaceName] *)

Section CaseSelection.

Context {CC : ChangeCase}.

(** Once the token no longer occurs, the passes that remain change
    nothing. *)
Lemma replaceName_absent (this searchTerm replaceFor : str) :
  includes this searchTerm = false ->
  replaceName this searchTerm replaceFor = this.
Proof.
  intros H. unfold replaceName.
  repeat match goal with
         | |- context [if ?b then _ else _] => destruct b
         end;
    repeat rewrite (replaceAll_absent this searchTerm _ H); reflexivity.
Qed.

Lemma replaceName_effective (this searchTerm replaceFor : str) :
  includes (replaceAll this searchTerm (effective searchTerm replaceFor))
           searchTerm = false ->
  replaceName this searchTerm replaceFor
  = replaceAll this searchTerm (effective searchTerm replaceFor).
Proof.
  unfold effective, caseTransformOf, replaceName.
  destruct (includes searchTerm `"lowerCase");
    [|destruct (includes searchTerm `"upperCase");
      [|destruct (includes searchTerm `"snakeCase");
        [|destruct (includes searchTerm `"pascalCase");
          [|destruct (includes searchTerm `"camelCase")]]]];
    intros H;
    repeat match goal with
           | |- context [if ?b then _ else _] => destruct b
           end;
    repeat rewrite (replaceAll_absent _ searchTerm _ H); reflexivity.
Qed.

(** One rule of a rule list: nothing to do, or one pass with the inserted
    text. *)
Lemma rewrite_cons_absent (text : str) (rule : str * str)
  (rules : list (str * str)) :
  includes text (fst rule) = false ->
  rewrite text (rule :: rules) = rewrite text rules.
Proof.
  intros H. cbn [rewrite fold_left]. now rewrite replaceName_absent.
Qed.

Lemma rewrite_cons_effective (text e result : str) (rule : str * str)
  (rules : list (str * str)) :
  effective (fst rule) (snd rule) = e ->
  replaceAll text (fst rule) e = result ->
  includes result (fst rule) = false ->
  rewrite text (rule :: rules) = rewrite result rules.
Proof.
  intros <- <- H. cbn [rewrite fold_left]. now rewrite replaceName_effective.
Qed.

End CaseSelection.

(** Evaluation of a rule list on a given text, rule by rule; what the
    case transforms return on the values is taken from the hypotheses. *)
Ltac eval_includes :=
  repeat match goal with
         | |- context [includes ?a ?b] =>
           let r := eval vm_compute in (includes a b) in
           change (includes a b) with r
         end.

Ltac rewrite_step :=
  first
    [ rewrite rewrite_cons_absent by (vm_compute; reflexivity)
    | erewrite rewrite_cons_effective;
      [ | unfold effective, caseTransformOf; cbn [fst snd]; eval_includes;
          cbv iota; first [eassumption | reflexivity]
        | vm_compute; reflexivity
        | vm_compute; reflexivity ] ].

(** ** The end-to-end import line *)

(** C2: with the bindings feature_name = authentication, usecase_name =
    login_user and package_name = my_app, the content-rewriting routine
    turns the import line with its three tokens into the import line of
    package my_app, feature authentication and use case login_user; the
    routine of the reworked command, which also binds custom_folder and
    root_folder, gives the same line whatever those two values are.  Of
    the change-case package only this is used: snakeCase returns
    authentication and login_user as they are. *)
Theorem C2_import_line {CC : ChangeCase} :
  snakeCase `"authentication" = `"authentication" ->
  snakeCase `"login_user" = `"login_user" ->
  replacePlaceholdersInContent
    `"import 'package:{{package_name}}/src/{{feature_name.snakeCase}}/domain/usecases/{{usecase_name.snakeCase}}_usecase.dart';"
    [(`"feature_name", `"authentication");
     (`"usecase_name", `"login_user");
     (`"package_name", `"my_app")]
  = `"import 'package:my_app/src/authentication/domain/usecases/login_user_usecase.dart';"
  /\ forall clickedFolder rootFolder : str,
      Usecase.replacePlaceholdersInContent5
        `"import 'package:{{package_name}}/src/{{feature_name.snakeCase}}/domain/usecases/{{usecase_name.snakeCase}}_usecase.dart';"
        `"authentication" `"login_user" `"my_app" clickedFolder rootFolder
      = `"import 'package:my_app/src/authentication/domain/usecases/login_user_usecase.dart';".
Proof.
  intros Hfeature Husecase. split.
  - rewrite replacePlaceholdersInContent_rewrite.
    cbv [flat_map keyRules styles map app fst snd].
    repeat rewrite_step. reflexivity.
  - intros clickedFolder rootFolder.
    unfold Usecase.replacePlaceholdersInContent5.
    rewrite replacePlaceholdersInContent_rewrite.
    cbv [flat_map keyRules styles map app fst snd].
    repeat rewrite_step. reflexivity.
Qed.

Lemma C2_import_line_witness :
  CaseTransformer.snake `"authentication" = `"authentication"
  /\ CaseTransformer.snake `"login_user" = `"login_user"
  /\ replacePlaceholdersInContent
       `"import 'package:{{package_name}}/src/{{feature_name.snakeCase}}/domain/usecases/{{usecase_name.snakeCase}}_usecase.dart';"
       [(`"feature_name", `"authentication");
        (`"usecase_name", `"login_user");
        (`"package_name", `"my_app")]
     = `"import 'package:my_app/src/authentication/domain/usecases/login_user_usecase.dart';".
Proof.
  assert (Hfeature : CaseTransformer.snake `"authentication" = `"authentication")
    by (vm_compute; reflexivity).
  assert (Husecase : CaseTransformer.snake `"login_user" = `"login_user")
    by (vm_compute; reflexivity).
  split; [exact Hfeature|]. split; [exact Husecase|].
  exact (proj1 (@C2_import_line CaseTransformer.changeCase Hfeature Husecase)).
Defined.

(** ** The case transformer *)

Module CaseFacts.

Import CaseTransformer.

Lemma lowerChar_upperChar (c : ascii) : lowerChar (upperChar c) = lowerChar c.
Proof. destruct c as [[] [] [] [] [] [] [] []]; reflexivity. Qed.

Lemma flush_nonempty (cur : str) : Forall (fun w => w <> []) (flush cur).
Proof.
  destruct cur; simpl; constructor; [discriminate | constructor].
Qed.

Lemma splitWords_nonempty (s : str) :
  forall prev cur, Forall (fun w => w <> []) (splitWords prev cur s).
Proof.
  induction s as [|c s IH]; intros prev cur; simpl.
  - apply flush_nonempty.
  - destruct (isSeparator c).
    + apply Forall_app. split; [apply flush_nonempty | apply IH].
    + destruct (hump prev c (hd_error s)).
      * apply Forall_app. split; [apply flush_nonempty | apply IH].
      * apply IH.
Qed.

Lemma uncapitalize_capitalize_app (w rest : str) :
  w <> [] -> uncapitalize (capitalize w ++ rest) = uncapitalize w ++ rest.
Proof.
  destruct w as [|c w]; [congruence|]. intros _. simpl.
  now rewrite lowerChar_upperChar.
Qed.

End CaseFacts.

(** C6: for every string, the camelCase transform is the pascalCase
    transform with its first character lowercased. *)
Theorem C6_camel_is_uncapitalized_pascal (s : str) :
  CaseTransformer.camel s
  = CaseTransformer.uncapitalize (CaseTransformer.pascal s).
Proof.
  unfold CaseTransformer.camel, CaseTransformer.pascal.
  pose proof (CaseFacts.splitWords_nonempty s None []) as Hne.
  fold (CaseTransformer.words s) in Hne.
  destruct (CaseTransformer.words s) as [|w ws]; [reflexivity|].
  inversion Hne as [|? ? Hw _]; subst.
  cbn [map List.concat].
  now rewrite CaseFacts.uncapitalize_capitalize_app.
Qed.

(** ** The template tree walker *)

Lemma templateFilesIn_Dir (dir : str) (entries : list (str * node)) :
  templateFilesIn dir (Dir entries) = flat_map (entryFiles dir) entries.
Proof.
  cbn [templateFilesIn].
  induction entries as [|[item child] rest IH]; [reflexivity|].
  cbn [flat_map]. rewrite <- IH. unfold entryFiles. cbn [fst snd].
  destruct child; reflexivity.
Qed.

Lemma templateFilesIn_sound (n : node) :
  forall dir entries p,
    n = Dir entries ->
    In p (templateFilesIn dir n) -> templateUnder dir entries p.
Proof.
  induction n as [content | es IH] using node_entries_ind;
    intros dir entries p Heq Hin; [discriminate|].
  injection Heq as <-.
  rewrite templateFilesIn_Dir in Hin.
  apply in_flat_map in Hin as [[item child] [Hentry Hp]].
  rewrite Forall_forall in IH. specialize (IH _ Hentry). cbn [snd] in IH.
  unfold entryFiles in Hp. cbn [fst snd] in Hp.
  destruct child as [content | sub].
  - destruct (endsWith item `".template") eqn:Hends; [|contradiction].
    destruct Hp as [<- | []].
    now apply template_here with (content := content).
  - apply template_below with (item := item) (sub := sub); [assumption|].
    now apply IH.
Qed.

Lemma templateFilesIn_complete (dir : str) (entries : list (str * node)) (p : str) :
  templateUnder dir entries p -> In p (templateFilesIn dir (Dir entries)).
Proof.
  induction 1 as [dir entries item content Hentry Hends
                 | dir entries item sub p Hentry _ IH];
    rewrite templateFilesIn_Dir; apply in_flat_map.
  - exists (item, File content). split; [assumption|].
    unfold entryFiles. cbn [fst snd]. rewrite Hends. now left.
  - exists (item, Dir sub). split; [assumption|].
    unfold entryFiles. cbn [fst snd]. exact IH.
Qed.

(** C8: the walker returns the empty list, and does not throw, for a root
    that does not exist; for a root that is a directory it returns exactly
    the files whose names end in .template, at any depth below the root. *)
Theorem C8_walker :
  (forall dir, getAllTemplateFiles dir None = Ok [])
  /\ (forall dir entries,
        exists files,
          getAllTemplateFiles dir (Some (Dir entries)) = Ok files
          /\ forall p, In p files <-> templateUnder dir entries p).
Proof.
  split; [reflexivity|].
  intros dir entries. exists (templateFilesIn dir (Dir entries)).
  split; [reflexivity|].
  intros p. split.
  - now apply templateFilesIn_sound.
  - apply templateFilesIn_complete.
Qed.

(** ** The batch loop of the materializer *)

Section MaterializerFacts.

Context {CC : ChangeCase}.
Variable World : Type.
Variable readFileSync : World -> str -> option str.
Variable writeFileExtPromise : World -> str -> str -> World * bool.
Variables templateFolder rootFolder clickedFolder packageName folderType : str.

Local Abbreviation step :=
  (processTemplate readFileSync writeFileExtPromise templateFolder
                   rootFolder clickedFolder packageName folderType).
Local Abbreviation loop :=
  (copyLoop readFileSync writeFileExtPromise templateFolder
            rootFolder clickedFolder packageName folderType).
Local Abbreviation dest :=
  (destinationOf templateFolder rootFolder clickedFolder packageName
                 folderType).
Local Abbreviation reportedHere :=
  (reported templateFolder rootFolder clickedFolder packageName folderType).

Lemma step_outcome (st : loopState World) (templateFile : str) :
  exists e,
    reportedHere templateFile e
    /\ events (step st templateFile) = events st ++ [e]
    /\ filesCreated (step st templateFile)
       = filesCreated st + (if isCreated e then 1 else 0).
Proof.
  unfold processTemplate, reported.
  destruct (readFileSync (world st) templateFile) as [content|].
  - destruct (writeFileExtPromise _ _ _) as [w [|]]; cbn [events filesCreated].
    + eexists. split; [left; reflexivity|]. split; [reflexivity|].
      cbn [isCreated]. lia.
    + eexists. split; [right; reflexivity|]. split; [reflexivity|].
      cbn [isCreated]. lia.
  - cbn [events filesCreated].
    eexists. split; [right; reflexivity|]. split; [reflexivity|].
    cbn [isCreated]. lia.
Qed.

Lemma loop_outcome (templateFiles : list str) :
  forall st : loopState World,
  exists es,
    Forall2 reportedHere templateFiles es
    /\ events (loop templateFiles st) = events st ++ es
    /\ filesCreated (loop templateFiles st)
       = filesCreated st + length (filter isCreated es).
Proof.
  unfold copyLoop.
  induction templateFiles as [|f fs IH]; intros st; cbn [fold_left].
  - exists []. split; [constructor|]. split; [now rewrite app_nil_r|].
    cbn [filter length]. lia.
  - destruct (step_outcome st f) as [e [He [Hev Hcount]]].
    destruct (IH (step st f)) as [es [Hes [Hevs Hcounts]]].
    exists (e :: es). split; [now constructor|].
    rewrite Hevs, Hev, Hcounts, Hcount. split.
    + now rewrite <- app_assoc.
    + cbn [filter]. destruct (isCreated e); cbn [length]; lia.
Qed.

(** A template whose read throws, or whose write rejects, is reported and
    not counted, and the loop goes on with the templates after it. *)
Lemma loop_after_failure (st : loopState World) (f : str) (fs : list str) :
  (readFileSync (world st) f = None
   \/ exists content w,
        readFileSync (world st) f = Some content
        /\ writeFileExtPromise (world st) (dest f)
             (contentOf rootFolder clickedFolder packageName content)
           = (w, false)) ->
  exists w',
    loop (f :: fs) st
    = loop fs {| world := w';
                 events := events st ++ [ErrorProcessing f];
                 filesCreated := filesCreated st |}.
Proof.
  unfold copyLoop. cbn [fold_left]. unfold processTemplate at 2.
  intros [Hread | [content [w [Hread Hwrite]]]]; rewrite Hread.
  - now exists (world st).
  - rewrite Hwrite. now exists w.
Qed.

(** A template that is read and whose write resolves is reported as
    created and counted, and the loop goes on in the world the write
    left. *)
Lemma loop_after_success (st : loopState World) (f : str) (fs : list str)
  (content : str) (w : World) :
  readFileSync (world st) f = Some content ->
  writeFileExtPromise (world st) (dest f)
    (contentOf rootFolder clickedFolder packageName content)
  = (w, true) ->
  loop (f :: fs) st
  = loop fs {| world := w;
               events := events st ++ [Created (dest f)];
               filesCreated := S (filesCreated st) |}.
Proof.
  unfold copyLoop. cbn [fold_left]. unfold processTemplate at 2.
  intros Hread Hwrite. now rewrite Hread, Hwrite.
Qed.

(** The three ways an iteration ends. *)
Lemma step_cases (st : loopState World) (f : str) :
  (exists content w,
      readFileSync (world st) f = Some content
      /\ writeFileExtPromise (world st) (dest f)
           (contentOf rootFolder clickedFolder packageName content)
         = (w, true)
      /\ step st f = {| world := w;
                        events := events st ++ [Created (dest f)];
                        filesCreated := S (filesCreated st) |})
  \/ (readFileSync (world st) f = None
      /\ step st f = {| world := world st;
                        events := events st ++ [ErrorProcessing f];
                        filesCreated := filesCreated st |})
  \/ (exists content w,
        readFileSync (world st) f = Some content
        /\ writeFileExtPromise (world st) (dest f)
             (contentOf rootFolder clickedFolder packageName content)
           = (w, false)
        /\ step st f = {| world := w;
                          events := events st ++ [ErrorProcessing f];
                          filesCreated := filesCreated st |}).
Proof.
  unfold processTemplate.
  destruct (readFileSync (world st) f) as [content|].
  - destruct (writeFileExtPromise (world st) (dest f)
                (contentOf rootFolder clickedFolder packageName content))
      as [w [|]] eqn:Hwrite.
    + left. now exists content, w.
    + right. right. now exists content, w.
  - right. left. now split.
Qed.

(** The loop is a run of the batch from the world it starts in to the
    world it ends in. *)
Lemma loop_run (templateFiles : list str) :
  forall st : loopState World,
  exists es n,
    batchRun readFileSync writeFileExtPromise templateFolder rootFolder
             clickedFolder packageName folderType
             (world st) templateFiles (world (loop templateFiles st)) es n
    /\ events (loop templateFiles st) = events st ++ es
    /\ filesCreated (loop templateFiles st) = filesCreated st + n.
Proof.
  unfold copyLoop.
  induction templateFiles as [|f fs IH]; intros st; cbn [fold_left].
  - exists [], 0. split; [constructor|]. split; [now rewrite app_nil_r|lia].
  - destruct (IH (step st f)) as [es [n [Hrun [Hev Hcount]]]].
    rewrite Hev, Hcount.
    destruct (step_cases st f)
      as [[content [w [Hread [Hwrite Hstep]]]]
         |[[Hread Hstep]
          |[content [w [Hread [Hwrite Hstep]]]]]];
      rewrite Hstep in Hrun |- *; cbn [world events filesCreated] in Hrun |- *.
    + exists (Created (dest f) :: es), (S n).
      split; [now apply run_created with (w1 := w) (content := content)|].
      split; [now rewrite <- app_assoc|lia].
    + exists (ErrorProcessing f :: es), n.
      split; [now apply run_unreadable|].
      split; [now rewrite <- app_assoc|lia].
    + exists (ErrorProcessing f :: es), n.
      split; [now apply run_rejected with (w1 := w) (content := content)|].
      split; [now rewrite <- app_assoc|lia].
Qed.

End MaterializerFacts.

(** C7: in a batch, every discovered template is processed, in order, and
    leaves one report: a created file or an error naming the template.
    The loop is a run of the batch from the world the command starts in to
    the world it returns: a template that is read and whose write resolves
    is written at its destination with its expanded content, reported as
    created and counted, and the loop goes on in the world the write left;
    a template whose read throws or whose write rejects is reported as an
    error, leaves the count as it was, and the loop goes on with the
    templates after it.  The count returned is the number of writes that
    resolved in that run, which is the number of files reported as
    created. *)
Theorem C7_batch_is_best_effort {CC : ChangeCase} (World : Type)
  (readFileSync : World -> str -> option str)
  (writeFileExtPromise : World -> str -> str -> World * bool)
  (templateFolder rootFolder clickedFolder packageName folderType : str) :
  (forall (w : World) (entries : list (str * node)),
     exists st es,
       copyInitialTemplatesFromFolder readFileSync writeFileExtPromise w
         (Some (Dir entries)) templateFolder rootFolder clickedFolder
         packageName folderType = Ok st
       /\ events st = es
       /\ Forall2 (reported templateFolder rootFolder clickedFolder
                            packageName folderType)
                  (templateFilesIn templateFolder (Dir entries)) es
       /\ filesCreated st = length (filter isCreated es)
       /\ batchRun readFileSync writeFileExtPromise templateFolder rootFolder
                   clickedFolder packageName folderType
                   w (templateFilesIn templateFolder (Dir entries))
                   (world st) es (filesCreated st))
  /\ (forall (st : loopState World) (f : str) (fs : list str),
        (readFileSync (world st) f = None
         \/ exists content w,
              readFileSync (world st) f = Some content
              /\ writeFileExtPromise (world st)
                   (destinationOf templateFolder rootFolder clickedFolder
                                  packageName folderType f)
                   (contentOf rootFolder clickedFolder packageName content)
                 = (w, false)) ->
        exists w',
          copyLoop readFileSync writeFileExtPromise templateFolder rootFolder
                   clickedFolder packageName folderType (f :: fs) st
          = copyLoop readFileSync writeFileExtPromise templateFolder rootFolder
                     clickedFolder packageName folderType fs
                     {| world := w';
                        events := events st ++ [ErrorProcessing f];
                        filesCreated := filesCreated st |})
  /\ (forall (st : loopState World) (f : str) (fs : list str)
             (content : str) (w : World),
        readFileSync (world st) f = Some content ->
        writeFileExtPromise (world st)
          (destinationOf templateFolder rootFolder clickedFolder
                         packageName folderType f)
          (contentOf rootFolder clickedFolder packageName content)
        = (w, true) ->
        copyLoop readFileSync writeFileExtPromise templateFolder rootFolder
                 clickedFolder packageName folderType (f :: fs) st
        = copyLoop readFileSync writeFileExtPromise templateFolder rootFolder
                   clickedFolder packageName folderType fs
                   {| world := w;
                      events :=
                        events st
                        ++ [Created (destinationOf templateFolder rootFolder
                                       clickedFolder packageName folderType
                                       f)];
                      filesCreated := S (filesCreated st) |}).
Proof.
  split; [|split].
  - intros w entries.
    destruct (loop_outcome World readFileSync writeFileExtPromise templateFolder
                rootFolder clickedFolder packageName folderType
                (templateFilesIn templateFolder (Dir entries))
                {| world := w; events := []; filesCreated := 0 |})
      as [es [Hes [Hev Hcount]]].
    destruct (loop_run World readFileSync writeFileExtPromise templateFolder
                rootFolder clickedFolder packageName folderType
                (templateFilesIn templateFolder (Dir entries))
                {| world := w; events := []; filesCreated := 0 |})
      as [es' [n [Hrun [Hev' Hcount']]]].
    cbn [world events filesCreated app] in Hev, Hcount, Hrun, Hev', Hcount'.
    eexists. exists es. split; [reflexivity|].
    split; [exact Hev|]. split; [exact Hes|]. split; [exact Hcount|].
    assert (Hsame : es' = es) by congruence.
    cbn [Nat.add] in Hcount'. rewrite Hcount', <- Hsame. exact Hrun.
  - intros st f fs H. now apply loop_after_failure.
  - intros st f fs content w Hread Hwrite.
    now apply loop_after_success with (content := content).
Qed.

Lemma batchExample_run :
  BatchExample.run
  = Ok {| world := [(`"/p/lib/core/a.dart", `"// app");
                    (`"/p/lib/core/d.dart", `"// app")];
          events := [Created `"/p/lib/core/a.dart";
                     ErrorProcessing `"/t/core/unreadable.template";
                     ErrorProcessing `"/t/core/sub/denied.template";
                     Created `"/p/lib/core/d.dart"];
          filesCreated := 2 |}.
Proof. vm_compute. reflexivity. Qed.

Lemma C7_batch_is_best_effort_witness :
  (exists st es,
     BatchExample.run = Ok st
     /\ events st = es
     /\ Forall2 (reported `"/t/core" `"/p" `"/p/lib" `"app" `"core")
                (templateFilesIn `"/t/core" (Dir BatchExample.entries)) es
     /\ filesCreated st = length (filter isCreated es)
     /\ batchRun BatchExample.readFileSync BatchExample.writeFileExtPromise
                 `"/t/core" `"/p" `"/p/lib" `"app" `"core"
                 [] (templateFilesIn `"/t/core" (Dir BatchExample.entries))
                 (world st) es (filesCreated st))
  /\ BatchExample.readFileSync [] `"/t/core/unreadable.template" = None
  /\ (exists w',
        copyLoop BatchExample.readFileSync BatchExample.writeFileExtPromise
          `"/t/core" `"/p" `"/p/lib" `"app" `"core"
          [ `"/t/core/unreadable.template"; `"/t/core/d.template" ]
          {| world := []; events := []; filesCreated := 0 |}
        = copyLoop BatchExample.readFileSync BatchExample.writeFileExtPromise
            `"/t/core" `"/p" `"/p/lib" `"app" `"core"
            [ `"/t/core/d.template" ]
            {| world := w';
               events := [ErrorProcessing `"/t/core/unreadable.template"];
               filesCreated := 0 |})
  /\ BatchExample.readFileSync [] `"/t/core/a.template" = Some `"// {{package_name}}"
  /\ BatchExample.writeFileExtPromise [] `"/p/lib/core/a.dart" `"// app"
     = ([(`"/p/lib/core/a.dart", `"// app")], true)
  /\ copyLoop BatchExample.readFileSync BatchExample.writeFileExtPromise
       `"/t/core" `"/p" `"/p/lib" `"app" `"core"
       [ `"/t/core/a.template"; `"/t/core/d.template" ]
       {| world := []; events := []; filesCreated := 0 |}
     = copyLoop BatchExample.readFileSync BatchExample.writeFileExtPromise
         `"/t/core" `"/p" `"/p/lib" `"app" `"core"
         [ `"/t/core/d.template" ]
         {| world := [(`"/p/lib/core/a.dart", `"// app")];
            events := [Created `"/p/lib/core/a.dart"];
            filesCreated := 1 |}.
Proof.
  assert (Hread : BatchExample.readFileSync [] `"/t/core/unreadable.template"
                  = None) by (vm_compute; reflexivity).
  assert (Hread' : BatchExample.readFileSync [] `"/t/core/a.template"
                   = Some `"// {{package_name}}") by (vm_compute; reflexivity).
  assert (Hwrite : BatchExample.writeFileExtPromise [] `"/p/lib/core/a.dart"
                     `"// app"
                   = ([(`"/p/lib/core/a.dart", `"// app")], true))
    by (vm_compute; reflexivity).
  split; [|split; [exact Hread|split; [|split; [exact Hread'|split;
                                                 [exact Hwrite|]]]]].
  - exact (proj1 (C7_batch_is_best_effort BatchExample.World
                    BatchExample.readFileSync
                    BatchExample.writeFileExtPromise
                    `"/t/core" `"/p" `"/p/lib" `"app" `"core")
                 [] BatchExample.entries).
  - exact (proj1 (proj2 (C7_batch_is_best_effort BatchExample.World
                           BatchExample.readFileSync
                           BatchExample.writeFileExtPromise
                           `"/t/core" `"/p" `"/p/lib" `"app" `"core"))
                 {| world := []; events := []; filesCreated := 0 |}
                 `"/t/core/unreadable.template" [ `"/t/core/d.template" ]
                 (or_introl Hread)).
  - refine (eq_trans
              (proj2 (proj2 (C7_batch_is_best_effort BatchExample.World
                               BatchExample.readFileSync
                               BatchExample.writeFileExtPromise
                               `"/t/core" `"/p" `"/p/lib" `"app" `"core"))
                     {| world := []; events := []; filesCreated := 0 |}
                     `"/t/core/a.template" [ `"/t/core/d.template" ]
                     `"// {{package_name}}"
                     [(`"/p/lib/core/a.dart", `"// app")] Hread' _) _).
    + vm_compute. reflexivity.
    + vm_compute. reflexivity.
Defined.

(** ** The use case command on a template path *)

Section UsecaseFacts.

Import Usecase.

Context {CC : ChangeCase}.

(** The chain is the thirty calls of the source, token by token. *)
Lemma chainRules_tokens :
  map fst (chainRules (bindings [] [] [] [] []))
  = [ `"{{feature_name}}"; `"{{custom_folder}}"; `"{{usecase_name}}";
      `"{{package_name}}"; `"{{root_folder}}";
      `"{{feature_name.lowerCase}}"; `"{{custom_folder.lowerCase}}";
      `"{{usecase_name.lowerCase}}"; `"{{package_name.lowerCase}}";
      `"{{root_folder.lowerCase}}";
      `"{{feature_name.upperCase}}"; `"{{custom_folder.upperCase}}";
      `"{{usecase_name.upperCase}}"; `"{{package_name.upperCase}}";
      `"{{root_folder.upperCase}}";
      `"{{feature_name.snakeCase}}"; `"{{custom_folder.snakeCase}}";
      `"{{usecase_name.snakeCase}}"; `"{{package_name.snakeCase}}";
      `"{{root_folder.snakeCase}}";
      `"{{feature_name.pascalCase}}"; `"{{custom_folder.pascalCase}}";
      `"{{usecase_name.pascalCase}}"; `"{{package_name.pascalCase}}";
      `"{{root_folder.pascalCase}}";
      `"{{feature_name.camelCase}}"; `"{{custom_folder.camelCase}}";
      `"{{usecase_name.camelCase}}"; `"{{package_name.camelCase}}";
      `"{{root_folder.camelCase}}" ].
Proof. reflexivity. Qed.

(** No feature name is derived from a template path without a segment
    that contains feature_name. *)
Lemma getFeatureName_foo (clickedFolder rootFsPath : str) :
  getFeatureName clickedFolder
    `"foo/{{usecase_name.snakeCase}}_usecase.template" rootFsPath
  = Some [].
Proof. vm_compute. reflexivity. Qed.

(** For that template path the command hands no file to the writer,
    whatever the template file holds and wherever it is invoked. *)
Lemma createUsecase_foo (readFileSync : str -> option str)
  (uriFsPath rootFsPath : str) :
  createUsecase readFileSync uriFsPath rootFsPath `"LoginUser"
    [ `"foo/{{usecase_name.snakeCase}}_usecase.template" ]
  = Ok [].
Proof.
  unfold createUsecase.
  cbv beta iota zeta delta [getTemplatesFileList filter].
  replace (endsWith `"foo/{{usecase_name.snakeCase}}_usecase.template"
                    `".template") with true by (vm_compute; reflexivity).
  cbn [fold_left]. unfold collectTemplate at 1.
  rewrite getFeatureName_foo. reflexivity.
Qed.

Hypothesis Hsnake : snakeCase `"LoginUser" = `"login_user".

Lemma pathFileName_foo (featureName clickedFolder packageName rootFolder : str) :
  pathFileName `"foo/{{usecase_name.snakeCase}}_usecase.template"
    featureName clickedFolder `"LoginUser" packageName rootFolder
  = `"foo/login_user_usecase.dart".
Proof.
  unfold pathFileName, replaceChain.
  cbv [chainRules bindings styles flat_map map app fst snd].
  repeat rewrite_step. vm_compute. reflexivity.
Qed.

Lemma pathFileName_feature_template :
  pathFileName UsecaseExample.template `"auth"
    `"C:/w/proj/lib/src/auth/domain" `"LoginUser" `"proj" `"C:/w/proj"
  = UsecaseExample.destination.
Proof.
  unfold pathFileName, replaceChain, UsecaseExample.template.
  cbv [chainRules bindings styles flat_map map app fst snd].
  repeat rewrite_step. vm_compute. reflexivity.
Qed.

End UsecaseFacts.

(** C3, as stated, fails: for the template path
    foo/{{usecase_name.snakeCase}}_usecase.template and the use case name
    LoginUser, with the template file present, the command hands no file
    to the writer. *)
Lemma C3_counterexample :
  Usecase.createUsecase (fun _ => Some `"class {{usecase_name.pascalCase}}")
    `"/w/proj/lib/src/auth/domain" `"/w/proj" `"LoginUser"
    [ `"foo/{{usecase_name.snakeCase}}_usecase.template" ]
  = Ok []
  /\ ~ exists content,
        Usecase.createUsecase (fun _ => Some `"class {{usecase_name.pascalCase}}")
          `"/w/proj/lib/src/auth/domain" `"/w/proj" `"LoginUser"
          [ `"foo/{{usecase_name.snakeCase}}_usecase.template" ]
        = Ok [(`"foo/login_user_usecase.dart", content)].
Proof.
  rewrite createUsecase_foo. split; [reflexivity|].
  intros [content H]. discriminate.
Qed.

(** ** The transform [replaceName] selects *)

Section Passes.

Context {CC : ChangeCase}.

Lemma replaceName_passes (this searchTerm replaceFor : str) :
  replaceName this searchTerm replaceFor
  = fold_left (fun t rep => replaceAll t searchTerm rep)
              (passes searchTerm replaceFor) this.
Proof.
  unfold replaceName, passes.
  destruct (includes searchTerm `"lowerCase");
    destruct (includes searchTerm `"upperCase");
    destruct (includes searchTerm `"snakeCase");
    destruct (includes searchTerm `"pascalCase");
    destruct (includes searchTerm `"camelCase"); reflexivity.
Qed.

Lemma passes_first (searchTerm replaceFor transformed : str) :
  caseTransformOf searchTerm replaceFor = Some transformed ->
  exists rest, passes searchTerm replaceFor = transformed :: rest.
Proof.
  unfold caseTransformOf, passes.
  destruct (includes searchTerm `"lowerCase");
    [|destruct (includes searchTerm `"upperCase");
      [|destruct (includes searchTerm `"snakeCase");
        [|destruct (includes searchTerm `"pascalCase");
          [|destruct (includes searchTerm `"camelCase")]]]];
    intros H; try discriminate; injection H as <-;
    cbn [app]; eexists; reflexivity.
Qed.

Lemma passes_absent (searchTerm : str) (reps : list str) (text : str) :
  includes text searchTerm = false ->
  fold_left (fun t rep => replaceAll t searchTerm rep) reps text = text.
Proof.
  intros H. induction reps as [|rep reps IH]; [reflexivity|].
  cbn [fold_left]. now rewrite replaceAll_absent.
Qed.

End Passes.

(** The transform is selected by looking for the style labels anywhere in
    the token text; so for a token that contains a label, the identity
    token {{lowerCaseName}} for one, the first pass of [replaceName]
    replaces every occurrence by the transformed value, and the passes that
    follow, the one with the raw value among them, change nothing in a text
    without the token: when no occurrence is left after the first pass, the
    result is the text with every occurrence replaced by the transformed
    value. *)
Lemma replaceName_selects_transform {CC : ChangeCase}
  (searchTerm replaceFor transformed : str) :
  caseTransformOf searchTerm replaceFor = Some transformed ->
  exists later : str -> str,
    (forall text, includes text searchTerm = false -> later text = text)
    /\ (forall this,
          replaceName this searchTerm replaceFor
          = later (replaceAll this searchTerm transformed))
    /\ (forall this,
          includes (replaceAll this searchTerm transformed) searchTerm = false ->
          replaceName this searchTerm replaceFor
          = replaceAll this searchTerm transformed).
Proof.
  intros Hsel. destruct (passes_first _ _ _ Hsel) as [rest Hrest].
  exists (fun t => fold_left (fun t rep => replaceAll t searchTerm rep) rest t).
  assert (Hlater : forall text,
             includes text searchTerm = false ->
             fold_left (fun t rep => replaceAll t searchTerm rep) rest text
             = text)
    by (intros text H; now apply passes_absent).
  assert (Hfirst : forall this,
             replaceName this searchTerm replaceFor
             = fold_left (fun t rep => replaceAll t searchTerm rep) rest
                         (replaceAll this searchTerm transformed))
    by (intros this; now rewrite replaceName_passes, Hrest).
  split; [exact Hlater|]. split; [exact Hfirst|].
  intros this H. rewrite Hfirst. now apply Hlater.
Qed.

(** For the value FooBar both occurrences of {{lowerCaseName}} become
    foobar. *)
Lemma replaceName_lowerCaseName_FooBar :
  caseTransformOf `"{{lowerCaseName}}" `"FooBar" = Some `"foobar"
  /\ replaceName `"x {{lowerCaseName}} y {{lowerCaseName}}"
                 `"{{lowerCaseName}}" `"FooBar"
     = `"x foobar y foobar".
Proof.
  assert (Hsel : caseTransformOf `"{{lowerCaseName}}" `"FooBar"
                 = Some `"foobar") by (vm_compute; reflexivity).
  split; [exact Hsel|].
  destruct (replaceName_selects_transform
              `"{{lowerCaseName}}" `"FooBar" `"foobar" Hsel)
    as [later [_ [_ Hall]]].
  rewrite (Hall `"x {{lowerCaseName}} y {{lowerCaseName}}");
    vm_compute; reflexivity.
Qed.

(** C9: the value is handed to [replaceAll] as a replacement pattern, in
    the pass with the transformed value and in the pass with the raw value
    alike, so the claim fails for a value with a dollar pattern.  For the
    identity token {{lowerCaseName}} the transform selected for the value
    A$& gives a$&; in the text x {{lowerCaseName}} y the first pass puts a
    and, for $&, the token itself in the place of the occurrence, and the
    last pass replaces that token by the raw A and the token again: the
    result is x aA{{lowerCaseName}} y, with the raw A in it and the token
    still there, and not the text with the occurrence replaced by the
    transformed value, x a$& y. *)
Theorem C9_dollar_in_value {CC : ChangeCase} :
  caseTransformOf `"{{lowerCaseName}}" `"A$&" = Some `"a$&"
  /\ replaceAll `"x {{lowerCaseName}} y" `"{{lowerCaseName}}" `"a$&"
     = `"x a{{lowerCaseName}} y"
  /\ replaceName `"x {{lowerCaseName}} y" `"{{lowerCaseName}}" `"A$&"
     = `"x aA{{lowerCaseName}} y"
  /\ replaceName `"x {{lowerCaseName}} y" `"{{lowerCaseName}}" `"A$&"
     <> `"x a$& y".
Proof.
  split; [vm_compute; reflexivity|].
  split; [vm_compute; reflexivity|].
  split; [vm_compute; reflexivity | vm_compute; discriminate].
Qed.

(** ** Occurrences across a concatenation *)

Lemma startsWith_app_cases (a s p : str) :
  startsWith (a ++ s) p = true ->
  (exists a2, a = p ++ a2)
  \/ (exists p2, p = a ++ p2 /\ p2 <> [] /\ startsWith s p2 = true).
Proof.
  revert p; induction a as [|c a IH]; intros p H.
  - destruct p as [|d p].
    + left. now exists [].
    + right. exists (d :: p). repeat split; [discriminate | exact H].
  - destruct p as [|d p].
    + left. now exists (c :: a).
    + cbn [app startsWith] in H. apply andb_true_iff in H as [Hc H].
      apply Ascii.eqb_eq in Hc as ->.
      destruct (IH p H) as [[a2 ->] | [p2 [-> [Hne Hp2]]]].
      * left. now exists a2.
      * right. now exists p2.
Qed.

Lemma startsWith_shorter (sep s r : str) :
  startsWith (sep ++ s) r = true -> length r <= length sep ->
  startsWith sep r = true.
Proof.
  intros H Hlen. apply startsWith_app_cases in H as [[a2 ->] | [p2 [-> [Hne _]]]].
  - apply startsWith_app.
  - rewrite length_app in Hlen. destruct p2; [congruence | cbn in Hlen; lia].
Qed.

Lemma unbordered_spec (sep : str) :
  unbordered sep = true ->
  forall u r, sep = u ++ r -> u <> [] -> r <> [] -> startsWith sep r = false.
Proof.
  intros H u r Heq Hu Hr. unfold unbordered in H.
  rewrite forallb_forall in H.
  specialize (H (length u)).
  assert (Hlen : length sep = length u + length r)
    by (now rewrite Heq, length_app).
  assert (Hin : In (length u) (seq 1 (length sep - 1))).
  { apply in_seq. destruct u; [congruence|]. destruct r; [congruence|].
    cbn [length] in *. lia. }
  specialize (H Hin). apply negb_true_iff in H.
  rewrite Heq in H at 2. rewrite skipn_app, Nat.sub_diag, skipn_all in H.
  exact H.
Qed.

(** Before the first occurrence nothing is replaced. *)
Lemma replaceAll_before_first (sep rep p s : str) :
  sep <> [] -> unbordered sep = true -> noDollar rep = true ->
  includes p sep = false ->
  replaceAll (p ++ sep ++ s) sep rep = p ++ rep ++ replaceAll s sep rep.
Proof.
  intros Hne Hub Hrep. induction p as [|c p IH]; intros Hp.
  - cbn [app]. now apply replaceAll_match.
  - apply includes_false_cons in Hp as [Hhere Hrest].
    cbn [app]. rewrite replaceAll_keep; try assumption.
    + now rewrite IH.
    + destruct (startsWith (c :: p ++ sep ++ s) sep) eqn:E; [|reflexivity].
      change (c :: p ++ sep ++ s) with ((c :: p) ++ sep ++ s) in E.
      apply startsWith_app_cases in E as [[a2 Ha] | [r [Hsep [Hr Hpre]]]].
      * rewrite Ha, startsWith_app in Hhere. discriminate.
      * apply startsWith_shorter in Hpre.
        -- rewrite (unbordered_spec sep Hub (c :: p) r) in Hpre;
             [discriminate | assumption | discriminate | assumption].
        -- rewrite Hsep, length_app. lia.
Qed.

Lemma replaceAll_join (sep rep : str) (pieces : list str) :
  sep <> [] -> unbordered sep = true -> noDollar rep = true ->
  Forall (fun p => includes p sep = false) pieces ->
  replaceAll (join sep pieces) sep rep = join rep pieces.
Proof.
  intros Hne Hub Hrep. induction pieces as [|p pieces IH]; intros Hall.
  - now apply replaceAll_nil.
  - inversion Hall as [|? ? Hp Hrest]; subst.
    destruct pieces as [|q pieces].
    + cbn [join]. now apply replaceAll_absent.
    + change (join sep (p :: q :: pieces))
        with (p ++ sep ++ join sep (q :: pieces)).
      change (join rep (p :: q :: pieces))
        with (p ++ rep ++ join rep (q :: pieces)).
      rewrite replaceAll_before_first by assumption.
      now rewrite IH.
Qed.

(** For a token that contains a label and a value whose transformed
    rendering has no dollar sign, every occurrence of the token is replaced
    by the transformed rendering, when that leaves no occurrence behind. *)
Lemma replaceName_join {CC : ChangeCase}
  (searchTerm replaceFor transformed : str) (pieces : list str) :
  caseTransformOf searchTerm replaceFor = Some transformed ->
  searchTerm <> [] -> unbordered searchTerm = true ->
  noDollar transformed = true ->
  Forall (fun p => includes p searchTerm = false) pieces ->
  includes (join transformed pieces) searchTerm = false ->
  replaceName (join searchTerm pieces) searchTerm replaceFor
  = join transformed pieces.
Proof.
  intros Hsel Hne Hub Hrep Hpieces Hleft.
  destruct (replaceName_selects_transform _ _ _ Hsel) as [later [_ [_ Hall]]].
  rewrite Hall; rewrite replaceAll_join by assumption; [reflexivity|exact Hleft].
Qed.

(** ** The hard-coded package reference *)

(** For a package name without a dollar sign, every occurrence of
    package:gymtor/ in a content is rewritten to package: followed by the
    package name and a slash, and the texts between the occurrences are
    left as they are; no placeholder token is needed at an occurrence. *)
Lemma fixDartImports_join (pieces : list str) (packageName : str) :
  noDollar packageName = true ->
  Forall (fun p => includes p `"package:gymtor/" = false) pieces ->
  fixDartImports (join `"package:gymtor/" pieces) packageName
  = join (`"package:" ++ packageName ++ `"/") pieces.
Proof.
  intros Hpkg Hpieces. unfold fixDartImports.
  apply replaceAll_join; try assumption.
  - discriminate.
  - vm_compute. reflexivity.
  - unfold noDollar in *. rewrite !forallb_app, Hpkg. reflexivity.
Qed.

Lemma fixDartImports_my_app :
  fixDartImports
    `"import 'package:gymtor/a.dart'; import 'package:gymtor/b.dart';"
    `"my_app"
  = `"import 'package:my_app/a.dart'; import 'package:my_app/b.dart';".
Proof.
  refine (fixDartImports_join
            [ `"import '"; `"a.dart'; import '"; `"b.dart';" ] `"my_app" _ _).
  - vm_compute. reflexivity.
  - repeat constructor.
Qed.

(** C10: the package name is handed to [replace] as a replacement
    pattern, so the claim fails for a name with a dollar pattern: in the
    workspace folder my$$app the reference package:gymtor/ is rewritten to
    package:my$app/, which is not package: followed by the package name and
    a slash. *)
Theorem C10_dollar_in_package_name :
  fixDartImports `"import 'package:gymtor/a.dart';" `"my$$app"
  = `"import 'package:my$app/a.dart';"
  /\ fixDartImports `"import 'package:gymtor/a.dart';" `"my$$app"
     <> `"import 'package:my$$app/a.dart';".
Proof. split; [vm_compute; reflexivity | vm_compute; discriminate]. Qed.

(** ** Placeholder tokens *)

Lemma braceFree_app (a b : str) :
  braceFree (a ++ b) = braceFree a && braceFree b.
Proof. apply forallb_app. Qed.

Lemma braceFree_In (s : str) (c : ascii) :
  braceFree s = true -> In c s -> c <> "{" /\ c <> "}".
Proof.
  unfold braceFree. rewrite forallb_forall. intros H Hin.
  specialize (H c Hin). apply andb_true_iff in H as [H1 H2].
  apply negb_true_iff in H1, H2. apply Ascii.eqb_neq in H1, H2. now split.
Qed.

Lemma identChar_not_special (c : ascii) :
  identChar c = true -> c <> "{" /\ c <> "}" /\ c <> ".".
Proof.
  destruct c as [[] [] [] [] [] [] [] []]; cbv; intros H;
    try discriminate H; repeat split; discriminate.
Qed.

Lemma identifier_braceFree (s : str) : identifier s = true -> braceFree s = true.
Proof.
  unfold identifier, braceFree. rewrite !forallb_forall. intros H c Hin.
  destruct (identChar_not_special c (H c Hin)) as [H1 [H2 _]].
  apply Ascii.eqb_neq in H1, H2. now rewrite H1, H2.
Qed.

Lemma styles_braceFree (style : str) : In style styles -> braceFree style = true.
Proof.
  intros H. repeat (destruct H as [<- | H]; [reflexivity|]). destruct H.
Qed.

(** A name is read off a token up to its closing braces. *)
Lemma braceFree_split (m n u v : str) :
  braceFree m = true -> braceFree n = true ->
  m ++ "}" :: u = n ++ "}" :: v -> m = n.
Proof.
  revert n; induction m as [|c m IH]; intros [|d n] Hm Hn Heq.
  - reflexivity.
  - injection Heq as Hc _. subst d.
    destruct (braceFree_In _ _ Hn (in_eq _ _)) as [_ H]. congruence.
  - injection Heq as Hc _. subst c.
    destruct (braceFree_In _ _ Hm (in_eq _ _)) as [_ H]. congruence.
  - injection Heq as -> Heq.
    cbn [braceFree forallb] in Hm, Hn.
    apply andb_true_iff in Hm as [_ Hm]. apply andb_true_iff in Hn as [_ Hn].
    f_equal. now apply IH.
Qed.

Lemma placeholder_prefix_eq (m n y : str) :
  braceFree m = true -> braceFree n = true ->
  startsWith (placeholder n ++ y) (placeholder m) = true -> m = n.
Proof.
  intros Hm Hn H. apply startsWith_iff in H as [r Hr].
  unfold placeholder in Hr. cbn [app] in Hr.
  injection Hr as Hr. rewrite <- !app_assoc in Hr. cbn [app] in Hr.
  symmetry. now apply braceFree_split in Hr.
Qed.

(** The first character of what follows a name inside a token. *)
Lemma name_tail_head (n y : str) :
  braceFree n = true ->
  exists c t, n ++ ["}"; "}"] ++ y = c :: t /\ c <> "{".
Proof.
  intros Hn. destruct n as [|c n].
  - exists "}", ("}" :: y). split; [reflexivity | discriminate].
  - exists c, (n ++ ["}"; "}"] ++ y). split; [reflexivity|].
    now destruct (braceFree_In _ _ Hn (in_eq _ _)).
Qed.

(** A proper suffix of a token is the token without its first brace, or
    starts with a character that is not an opening brace. *)
Lemma placeholder_suffix (n t1 t2 : str) :
  braceFree n = true ->
  placeholder n = t1 ++ t2 -> t1 <> [] -> t2 <> [] ->
  t2 = "{" :: n ++ ["}"; "}"] \/ exists c t, t2 = c :: t /\ c <> "{".
Proof.
  intros Hn Heq H1 H2.
  destruct t1 as [|c1 t1]; [congruence|].
  unfold placeholder in Heq. cbn [app] in Heq.
  injection Heq as _ Heq.
  destruct t1 as [|c2 t1].
  - left. cbn [app] in Heq. now rewrite <- Heq.
  - right. cbn [app] in Heq. injection Heq as _ Heq.
    destruct t2 as [|c t]; [congruence|]. exists c, t. split; [reflexivity|].
    assert (Hin : In c (n ++ ["}"; "}"])).
    { rewrite Heq. apply in_or_app. right. apply in_eq. }
    apply in_app_or in Hin as [Hin | Hin].
    + now destruct (braceFree_In _ _ Hn Hin).
    + cbn in Hin. destruct Hin as [<- | [<- | []]]; discriminate.
Qed.

(** ** Tokens that a rule cannot touch *)

Lemma placeholder_protected (m n : str) :
  braceFree m = true -> braceFree n = true -> m <> n ->
  protected (placeholder m) (placeholder n).
Proof.
  intros Hm Hn Hneq. split.
  - intros t1 t2 y Heq Ht2.
    destruct (startsWith (t2 ++ y) (placeholder m)) eqn:E; [|reflexivity].
    exfalso. destruct t1 as [|c1 t1].
    + cbn [app] in Heq. subst t2. apply Hneq.
      now apply (placeholder_prefix_eq m n y).
    + destruct (placeholder_suffix n (c1 :: t1) t2 Hn Heq) as [-> | [c [t [-> Hc]]]];
        [discriminate | assumption | | ].
      * unfold placeholder in E. cbn [app startsWith] in E.
        rewrite <- app_assoc in E.
        destruct (name_tail_head n y Hn) as [c [t [Ht Hc]]].
        rewrite Ht in E. apply Ascii.eqb_neq in Hc.
        rewrite Hc in E. cbn in E. discriminate.
      * unfold placeholder in E. cbn [app startsWith] in E.
        apply Ascii.eqb_neq in Hc. rewrite Hc in E. discriminate.
  - intros s1 s2 y Heq Hs1 Hs2.
    destruct (startsWith (placeholder n ++ y) s2) eqn:E; [|reflexivity].
    exfalso.
    destruct (placeholder_suffix m s1 s2 Hm Heq Hs1 Hs2) as [-> | [c [t [-> Hc]]]].
    + unfold placeholder in E. cbn [app startsWith] in E.
      destruct (name_tail_head m [] Hm) as [c [t [Ht Hc]]].
      rewrite app_nil_r in Ht.
      rewrite Ht in E. cbn [startsWith] in E.
      assert (Hc' : Ascii.eqb "{" c = false)
        by (apply Ascii.eqb_neq; congruence).
      rewrite Hc' in E. cbn in E. discriminate.
    + unfold placeholder in E. cbn [app startsWith] in E.
      assert (Hc' : Ascii.eqb "{" c = false)
        by (apply Ascii.eqb_neq; congruence).
      rewrite Hc' in E. discriminate.
Qed.

Section Protected.

Variables search token rep : str.
Hypothesis Hprotected : protected search token.
Hypothesis Hsearch : search <> [].

(** The scan passes over the token and copies it. *)
Lemma replaceAll_from_over_token (t2 : str) :
  forall t1 before b,
    token = t1 ++ t2 ->
    replaceAll_from search rep 0 before (t2 ++ b)
    = t2 ++ replaceAll_from search rep 0 (before ++ t2) b.
Proof.
  induction t2 as [|c t2 IH]; intros t1 before b Heq.
  - cbn [app]. now rewrite app_nil_r.
  - cbn [app]. rewrite replaceAll_from_keep.
    + f_equal. rewrite (IH (t1 ++ [c])).
      * now rewrite <- app_assoc.
      * now rewrite <- app_assoc.
    + apply (proj1 Hprotected t1 (c :: t2) b Heq). discriminate.
Qed.

(** Whatever stands before the token, the token comes out as it went
    in, and the scan goes on behind it. *)
Lemma replaceAll_from_keeps_token (n : nat) :
  forall a before b,
    length a <= n ->
    exists a',
      replaceAll_from search rep 0 before (a ++ token ++ b)
      = a' ++ token ++ replaceAll_from search rep 0 (before ++ a ++ token) b.
Proof.
  induction n as [|n IH]; intros a before b Hlen.
  - destruct a; [|cbn in Hlen; lia]. exists []. cbn [app].
    now apply (replaceAll_from_over_token token []).
  - destruct a as [|c a].
    + exists []. cbn [app]. now apply (replaceAll_from_over_token token []).
    + destruct (startsWith ((c :: a) ++ token ++ b) search) eqn:E.
      * apply startsWith_app_cases in E as [[a2 Ha] | [s2 [Hs [Hs2 Hpre]]]].
        -- rewrite Ha, <- app_assoc, replaceAll_from_match by assumption.
           destruct (IH a2 (before ++ search) b) as [a' Ha'].
           { assert (Hl : length (c :: a) = length search + length a2)
               by (now rewrite Ha, length_app).
             destruct search; [congruence|]. cbn [length] in *. lia. }
           exists (getSubstitution search before (a2 ++ token ++ b) rep ++ a').
           rewrite Ha', <- !app_assoc. reflexivity.
        -- rewrite (proj2 Hprotected (c :: a) s2 b Hs) in Hpre;
             [discriminate | discriminate | assumption].
      * cbn [app] in *. rewrite replaceAll_from_keep by assumption.
        destruct (IH a (before ++ [c]) b) as [a' Ha'];
          [cbn [length] in Hlen; lia|].
        exists (c :: a'). rewrite Ha', <- !app_assoc. reflexivity.
Qed.

Lemma replaceAll_keeps_token (text : str) :
  includes text token = true ->
  includes (replaceAll text search rep) token = true.
Proof.
  intros H. apply includes_iff in H as [a [b ->]].
  rewrite replaceAll_nonempty by assumption.
  destruct (replaceAll_from_keeps_token (length a) a [] b (le_n _)) as [a' ->].
  apply includes_iff. eauto.
Qed.

End Protected.

Section UnboundTokens.

Context {CC : ChangeCase}.

Lemma replaceName_keeps_token (this searchTerm replaceFor token : str) :
  protected searchTerm token -> searchTerm <> [] ->
  includes this token = true ->
  includes (replaceName this searchTerm replaceFor) token = true.
Proof.
  intros Hp Hne H. unfold replaceName.
  repeat match goal with
         | |- context [if ?b then _ else _] => destruct b
         end;
    repeat apply replaceAll_keeps_token; assumption.
Qed.

Lemma rewrite_keeps_token (rules : list (str * str)) (token : str) :
  Forall (fun rule => protected (fst rule) token /\ fst rule <> []) rules ->
  forall text,
    includes text token = true ->
    includes (rewrite text rules) token = true.
Proof.
  induction 1 as [|[tok v] rules [Hp Hne] _ IH]; intros text H.
  - exact H.
  - cbn [rewrite fold_left fst snd]. apply IH.
    now apply replaceName_keeps_token.
Qed.

End UnboundTokens.

(** The token of a key and a style, as the routines build it. *)
Lemma token_placeholder (key style : str) :
  `"{{" ++ key ++ style ++ `"}}" = placeholder (key ++ style).
Proof. unfold placeholder. cbn [list_ascii_of_string app]. now rewrite <- app_assoc. Qed.

(** A name and its style are read off a token without ambiguity. *)
Lemma name_style_unique (k x s s' : str) :
  identifier k = true -> identifier x = true ->
  In s styles -> In s' styles ->
  k ++ s = x ++ s' -> k = x.
Proof.
  intros Hk Hx Hs Hs'.
  assert (Hdot : forall style, In style styles ->
                   style = [] \/ exists t, style = "." :: t).
  { intros style H.
    repeat (destruct H as [<- | H]; [first [now left | right; eexists; reflexivity]|]).
    destruct H. }
  assert (Hid : forall c w, identifier (c :: w) = true -> c <> ".").
  { intros c w H. cbn [identifier forallb] in H.
    apply andb_true_iff in H as [H _].
    now destruct (identChar_not_special c H) as [_ [_ H3]]. }
  assert (Htl : forall c w, identifier (c :: w) = true -> identifier w = true).
  { intros c w H. cbn [identifier forallb] in H.
    now apply andb_true_iff in H as [_ H]. }
  destruct (Hdot s Hs) as [-> | [t ->]];
    destruct (Hdot s' Hs') as [-> | [t' ->]]; clear Hs Hs' Hdot;
    revert x Hx; induction k as [|c k IH]; intros [|d x] Hx Heq;
    cbn [app] in Heq; try reflexivity; try discriminate;
    try (injection Heq as Hc Heq; subst;
         first [ exfalso; eapply Hid; [eassumption | reflexivity]
               | f_equal; eapply IH; eauto ]).
Qed.

Lemma keyRules_protected (name style : str) (kv : str * str) :
  identifier name = true -> In style styles ->
  identifier (fst kv) = true -> fst kv <> name ->
  Forall (fun rule => protected (fst rule) (placeholder (name ++ style))
                      /\ fst rule <> [])
         (keyRules kv).
Proof.
  intros Hname Hstyle Hkey Hneq. unfold keyRules.
  apply Forall_forall. intros rule Hin.
  apply in_map_iff in Hin as [s [<- Hs]]. cbn [fst].
  rewrite token_placeholder. split; [|discriminate].
  apply placeholder_protected.
  - rewrite braceFree_app, (identifier_braceFree _ Hkey).
    now rewrite (styles_braceFree _ Hs).
  - rewrite braceFree_app, (identifier_braceFree _ Hname).
    now rewrite (styles_braceFree _ Hstyle).
  - intros Heq. apply Hneq.
    now apply (name_style_unique (fst kv) name s style).
Qed.

(** C4: a token of the text whose variable name is not among the keys of
    the placeholders object is left in the result as it stands, character
    for character; the routine has no error to report, it returns the
    rewritten text. *)
Theorem C4_unbound_token_left_unexpanded {CC : ChangeCase}
  (content : str) (placeholders : list (str * str)) (name style a b : str) :
  identifier name = true ->
  In style styles ->
  Forall (fun kv => identifier (fst kv) = true) placeholders ->
  ~ In name (map fst placeholders) ->
  content = a ++ placeholder (name ++ style) ++ b ->
  exists a' b',
    replacePlaceholdersInContent content placeholders
    = a' ++ placeholder (name ++ style) ++ b'.
Proof.
  intros Hname Hstyle Hkeys Hunbound ->.
  apply includes_iff. rewrite replacePlaceholdersInContent_rewrite.
  apply rewrite_keeps_token.
  - induction placeholders as [|kv ps IH]; [constructor|].
    cbn [flat_map]. apply Forall_app.
    inversion Hkeys as [|? ? Hk Hks]; subst. split.
    + apply keyRules_protected; try assumption.
      intros Heq. apply Hunbound. left. exact Heq.
    + apply IH; [assumption|].
      intros Hin. apply Hunbound. right. exact Hin.
  - apply includes_iff. now exists a, b.
Qed.

Lemma C4_unbound_token_left_unexpanded_witness :
  identifier `"missing" = true
  /\ In `".snakeCase" styles
  /\ ~ In `"missing" (map fst [(`"package_name", `"my_app")])
  /\ exists a' b',
       replacePlaceholdersInContent
         `"import '{{package_name}}/{{missing.snakeCase}}.dart';"
         [(`"package_name", `"my_app")]
       = a' ++ `"{{missing.snakeCase}}" ++ b'.
Proof.
  assert (Hname : identifier `"missing" = true) by (vm_compute; reflexivity).
  assert (Hstyle : In `".snakeCase" styles) by (cbn; tauto).
  assert (Hunbound : ~ In `"missing" (map fst [(`"package_name", `"my_app")])).
  { cbn. intros [H | []]. discriminate H. }
  split; [exact Hname|]. split; [exact Hstyle|]. split; [exact Hunbound|].
  refine (C4_unbound_token_left_unexpanded
            `"import '{{package_name}}/{{missing.snakeCase}}.dart';"
            [(`"package_name", `"my_app")]
            `"missing" `".snakeCase" `"import '{{package_name}}/" `".dart';"
            Hname Hstyle _ Hunbound _).
  - repeat constructor.
  - vm_compute. reflexivity.
Defined.

(** ** Well-formed templates *)

Lemma str_eqb_eq (a b : str) : str_eqb a b = true <-> a = b.
Proof. unfold str_eqb. destruct (list_eq_dec ascii_dec a b); split; congruence. Qed.

Lemma str_eqb_refl (a : str) : str_eqb a a = true.
Proof. now apply str_eqb_eq. Qed.

Lemma str_eqb_neq (a b : str) : str_eqb a b = false <-> a <> b.
Proof. unfold str_eqb. destruct (list_eq_dec ascii_dec a b); split; congruence. Qed.

Lemma render_app (t1 t2 : list item) :
  render (t1 ++ t2) = render t1 ++ render t2.
Proof.
  induction t1 as [|[c|m] t1 IH]; cbn [app render]; [reflexivity| |].
  - now rewrite IH.
  - now rewrite IH, <- app_assoc.
Qed.

Lemma render_lits (v : str) : render (map Lit v) = v.
Proof. induction v as [|c v IH]; cbn [map render]; [reflexivity | now rewrite IH]. Qed.

Lemma startsWith_first (s rest : str) (c : ascii) :
  startsWith s (c :: rest) = true -> startsWith s [c] = true.
Proof.
  destruct s as [|d s]; cbn [startsWith]; [discriminate|].
  intros H. apply andb_true_iff in H as [-> _]. reflexivity.
Qed.

(** No token starts at a literal character of a well-formed template. *)
Lemma literal_no_match (c : ascii) (t : list item) (name : str) :
  wellFormed (Lit c :: t) = true ->
  startsWith (render (Lit c :: t)) (placeholder name) = false.
Proof.
  cbn [wellFormed render]. intros H. apply andb_true_iff in H as [H _].
  unfold placeholder.
  change (startsWith (c :: render t) ("{" :: "{" :: name ++ ["}"; "}"]))
    with (Ascii.eqb c "{" && startsWith (render t) ("{" :: name ++ ["}"; "}"])).
  destruct (Ascii.eqb c "{") eqn:Ec; [|reflexivity]. cbn [negb orb andb] in *.
  destruct (startsWith (render t) ("{" :: name ++ ["}"; "}"])) eqn:E; [|reflexivity].
  apply startsWith_first in E. rewrite E in H. discriminate.
Qed.

Section OverToken.

Variables search token : str.
Hypothesis Hinside :
  forall t1 t2 y, token = t1 ++ t2 -> t2 <> [] ->
                  startsWith (t2 ++ y) search = false.

Lemma includes_over_token (t2 : str) :
  forall t1 s, token = t1 ++ t2 ->
               includes (t2 ++ s) search = includes s search.
Proof.
  induction t2 as [|c t2 IH]; intros t1 s Heq; [reflexivity|].
  cbn [app includes].
  change (c :: t2 ++ s) with ((c :: t2) ++ s).
  rewrite (Hinside t1 (c :: t2) s Heq) by discriminate.
  cbn [orb]. apply (IH (t1 ++ [c])). now rewrite <- app_assoc.
Qed.

End OverToken.

Lemma replaceAll_over_token (search token rep s : str) :
  protected search token -> search <> [] -> noDollar rep = true ->
  replaceAll (token ++ s) search rep = token ++ replaceAll s search rep.
Proof.
  intros Hp Hne Hrep. rewrite !replaceAll_nonempty by assumption.
  rewrite (replaceAll_from_over_token search token rep Hp token [] [] s eq_refl).
  f_equal. now apply replaceAll_from_context.
Qed.

(** One pass over a well-formed template replaces the tokens of the name
    and nothing else. *)
Lemma replaceAll_render (name v : str) (t : list item) :
  braceFree name = true -> noDollar v = true -> wellFormed t = true ->
  replaceAll (render t) (placeholder name) v = render (subst name v t).
Proof.
  intros Hname Hv. induction t as [|[c|m] t IH]; intros Hwf.
  - reflexivity.
  - pose proof (literal_no_match c t name Hwf) as Hno.
    cbn [wellFormed] in Hwf. apply andb_true_iff in Hwf as [_ Hwf].
    cbn [render] in *. rewrite replaceAll_keep; try assumption; [|discriminate].
    now rewrite IH.
  - cbn [wellFormed] in Hwf. apply andb_true_iff in Hwf as [Hm Hwf].
    cbn [render subst flat_map substItem].
    destruct (str_eqb m name) eqn:E.
    + apply str_eqb_eq in E as ->.
      rewrite replaceAll_match by (assumption || discriminate).
      rewrite render_app, render_lits. f_equal. now apply IH.
    + apply str_eqb_neq in E.
      rewrite replaceAll_over_token; try assumption; [|now apply placeholder_protected | discriminate].
      cbn [app render]. f_equal. now apply IH.
Qed.

(** A template without a token of the name has no occurrence of it. *)
Lemma render_absent (name : str) (t : list item) :
  braceFree name = true -> wellFormed t = true -> hasTok name t = false ->
  includes (render t) (placeholder name) = false.
Proof.
  intros Hname. induction t as [|[c|m] t IH]; intros Hwf Hno.
  - reflexivity.
  - pose proof (literal_no_match c t name Hwf) as Hhere.
    cbn [wellFormed] in Hwf. apply andb_true_iff in Hwf as [_ Hwf].
    cbn [render includes] in *. rewrite Hhere. cbn [orb]. now apply IH.
  - cbn [wellFormed] in Hwf. apply andb_true_iff in Hwf as [Hm Hwf].
    cbn [hasTok existsb] in Hno. apply orb_false_iff in Hno as [E Hno].
    apply str_eqb_neq in E. cbn [render].
    rewrite (includes_over_token (placeholder name) (placeholder m)
               (proj1 (placeholder_protected name m Hname Hm (not_eq_sym E)))
               (placeholder m) [] (render t) eq_refl).
    now apply IH.
Qed.

Lemma hasTok_lits (name v : str) : hasTok name (map Lit v) = false.
Proof. induction v as [|c v IH]; [reflexivity | exact IH]. Qed.

Lemma subst_hasTok (name v : str) (t : list item) :
  hasTok name (subst name v t) = false.
Proof.
  induction t as [|[c|m] t IH]; cbn [subst flat_map substItem]; [reflexivity| |].
  - cbn [app hasTok existsb]. exact IH.
  - unfold hasTok in *. rewrite existsb_app. unfold subst in IH.
    rewrite IH, orb_false_r.
    destruct (str_eqb m name) eqn:E.
    + apply hasTok_lits.
    + cbn [existsb]. now rewrite E.
Qed.

Lemma wellFormed_lits (v : str) (t : list item) :
  braceFree v = true -> wellFormed t = true -> wellFormed (map Lit v ++ t) = true.
Proof.
  intros Hv Ht. induction v as [|c v IH]; [exact Ht|].
  cbn [braceFree forallb] in Hv. apply andb_true_iff in Hv as [Hc Hv].
  apply andb_true_iff in Hc as [Hc _].
  cbn [map app wellFormed]. rewrite Hc. cbn [orb andb]. now apply IH.
Qed.

Lemma subst_first_char (name v : str) (t : list item) :
  startsWith (render t) ["{"] = false ->
  startsWith (render (subst name v t)) ["{"] = false.
Proof.
  destruct t as [|[c|m] t]; cbn [subst flat_map substItem app render];
    [reflexivity | trivial | discriminate].
Qed.

Lemma subst_wellFormed (name v : str) (t : list item) :
  braceFree v = true -> wellFormed t = true ->
  wellFormed (subst name v t) = true.
Proof.
  intros Hv. induction t as [|[c|m] t IH]; intros Hwf.
  - reflexivity.
  - cbn [wellFormed] in Hwf. apply andb_true_iff in Hwf as [Hc Hwf].
    cbn [subst flat_map substItem app wellFormed].
    fold (subst name v t). rewrite (IH Hwf), andb_true_r.
    destruct (Ascii.eqb c "{"); [|reflexivity].
    cbn [negb orb] in *. apply negb_true_iff in Hc. apply negb_true_iff.
    now apply subst_first_char.
  - cbn [wellFormed] in Hwf. apply andb_true_iff in Hwf as [Hm Hwf].
    cbn [subst flat_map substItem]. fold (subst name v t).
    destruct (str_eqb m name).
    + apply wellFormed_lits; [assumption | now apply IH].
    + cbn [app wellFormed]. rewrite Hm. now apply IH.
Qed.

(** ** Reading a text as a template *)

Lemma nameUpTo_spec (s : str) :
  forall name,
    nameUpTo s = Some name ->
    braceFree name = true /\ exists rest, s = name ++ "}" :: "}" :: rest.
Proof.
  induction s as [|c s IH]; intros name H; [discriminate|].
  cbn [nameUpTo] in H.
  destruct (Ascii.eqb c "{") eqn:Eo; [discriminate|].
  destruct (Ascii.eqb c "}") eqn:Ec.
  - destruct s as [|d s]; [discriminate|].
    destruct (Ascii.eqb d "}") eqn:Ed; [|discriminate].
    injection H as <-. apply Ascii.eqb_eq in Ec, Ed. subst.
    split; [reflexivity | now exists s].
  - destruct (nameUpTo s) as [n|] eqn:En; [|discriminate].
    injection H as <-. destruct (IH n eq_refl) as [Hn [rest ->]].
    split.
    + cbn [braceFree forallb]. rewrite Eo, Ec. exact Hn.
    + now exists rest.
Qed.

Lemma tokenAt_spec (s name : str) :
  tokenAt s = Some name ->
  braceFree name = true /\ exists rest, s = placeholder name ++ rest.
Proof.
  destruct s as [|c [|d s]]; try discriminate. cbn [tokenAt].
  destruct (Ascii.eqb c "{") eqn:Ec; [|discriminate].
  destruct (Ascii.eqb d "{") eqn:Ed; [|discriminate].
  cbn [andb]. intros H. apply Ascii.eqb_eq in Ec, Ed. subst.
  destruct (nameUpTo_spec s name H) as [Hn [rest ->]].
  split; [exact Hn|]. exists rest. unfold placeholder.
  cbn [app]. now rewrite <- app_assoc.
Qed.

Lemma parse_from_skip (x s : str) :
  parse_from (length x) (x ++ s) = parse_from 0 s.
Proof.
  induction x as [|c x IH]; cbn [length app parse_from].
  - destruct s; reflexivity.
  - exact IH.
Qed.

Lemma render_parse_bounded (n : nat) :
  forall s, length s <= n -> render (parse s) = s.
Proof.
  unfold parse. induction n as [|n IH]; intros s Hlen.
  - destruct s; [reflexivity | cbn in Hlen; lia].
  - destruct s as [|c s]; [reflexivity|].
    cbn [parse_from]. destruct (tokenAt (c :: s)) as [name|] eqn:E.
    + destruct (tokenAt_spec _ _ E) as [_ [rest Hrest]].
      unfold placeholder in Hrest. cbn [app] in Hrest.
      injection Hrest as -> ->.
      change ("{" :: (name ++ ["}"; "}"]) ++ rest)
        with (("{" :: name ++ ["}"; "}"]) ++ rest).
      replace (length name + 3) with (length ("{" :: name ++ ["}"; "}"]))
        by (cbn [length]; rewrite length_app; cbn [length]; lia).
      rewrite parse_from_skip.
      cbn [render]. rewrite IH.
      * reflexivity.
      * cbn [length] in Hlen. rewrite !length_app in Hlen. lia.
    + cbn [render]. f_equal. apply IH. cbn [length] in Hlen. lia.
Qed.

(** Reading a text loses nothing. *)
Lemma render_parse (text : str) : render (parse text) = text.
Proof. now apply (render_parse_bounded (length text)). Qed.

(** ** The rewriter of the specification *)

Section OnePass.

Context {CC : ChangeCase}.

Lemma onePass_from_skip (rules : list (str * str)) (x s : str) :
  onePass_from rules (length x) (x ++ s) = onePass_from rules 0 s.
Proof.
  induction x as [|c x IH]; cbn [length app onePass_from].
  - destruct s; reflexivity.
  - exact IH.
Qed.

Lemma onePass_from_match (rules : list (str * str)) (rule : str * str) (s : str) :
  ruleAt rules (fst rule ++ s) = Some rule ->
  fst rule <> [] ->
  onePass_from rules 0 (fst rule ++ s)
  = effective (fst rule) (snd rule) ++ onePass_from rules 0 s.
Proof.
  intros Hat Hne. destruct (fst rule) as [|c p] eqn:E; [congruence|].
  cbn [app onePass_from].
  change (c :: p ++ s) with ((c :: p) ++ s). rewrite Hat, E.
  cbn [length]. replace (S (length p) - 1) with (length p) by lia.
  now rewrite onePass_from_skip.
Qed.

Lemma onePass_from_keep (rules : list (str * str)) (c : ascii) (s : str) :
  ruleAt rules (c :: s) = None ->
  onePass_from rules 0 (c :: s) = c :: onePass_from rules 0 s.
Proof. intros H. cbn [onePass_from]. now rewrite H. Qed.

End OnePass.

(** C1, as stated, fails: the replacement of the first rule holds the token
    of the second, and the second rule replaces that inserted occurrence;
    a rewriter that does not scan what it inserts would leave it. *)
Lemma C1_counterexample :
  rewrite `"{{a}}" [(`"{{a}}", `"{{b}}"); (`"{{b}}", `"X")] = `"X"
  /\ rewriteOnePass `"{{a}}" [(`"{{a}}", `"{{b}}"); (`"{{b}}", `"X")] = `"{{b}}"
  /\ rewrite `"{{a}}" [(`"{{a}}", `"{{b}}"); (`"{{b}}", `"X")]
     <> rewriteOnePass `"{{a}}" [(`"{{a}}", `"{{b}}"); (`"{{b}}", `"X")]
  /\ replacePlaceholdersInContent `"{{a}}" [(`"a", `"{{b}}"); (`"b", `"X")]
     = `"X".
Proof.
  split; [vm_compute; reflexivity|].
  split; [vm_compute; reflexivity|].
  split; [vm_compute; discriminate | vm_compute; reflexivity].
Qed.

(** C5, as stated, fails: two rules with disjoint tokens, the replacement
    of one holding the token of the other, give different texts in the
    two orders. *)
Lemma C5_counterexample :
  pairwiseDisjoint [ `"{{a}}"; `"{{b}}" ] = true
  /\ Permutation [(`"{{a}}", `"{{b}}"); (`"{{b}}", `"X")]
                 [(`"{{b}}", `"X"); (`"{{a}}", `"{{b}}")]
  /\ rewrite `"{{a}}" [(`"{{a}}", `"{{b}}"); (`"{{b}}", `"X")] = `"X"
  /\ rewrite `"{{a}}" [(`"{{b}}", `"X"); (`"{{a}}", `"{{b}}")] = `"{{b}}"
  /\ rewrite `"{{a}}" [(`"{{a}}", `"{{b}}"); (`"{{b}}", `"X")]
     <> rewrite `"{{a}}" [(`"{{b}}", `"X"); (`"{{a}}", `"{{b}}")].
Proof.
  split; [vm_compute; reflexivity|].
  split; [apply perm_swap|].
  split; [vm_compute; reflexivity|].
  split; [vm_compute; reflexivity | vm_compute; discriminate].
Qed.

(** ** Rules on well-formed templates *)

Lemma tokenName_placeholder (name : str) : tokenName (placeholder name) = name.
Proof.
  unfold tokenName, placeholder. cbn [skipn].
  change (name ++ ["}"; "}"]) with (name ++ ["}"] ++ ["}"]).
  rewrite app_assoc, !removelast_last. reflexivity.
Qed.

Lemma isPlaceholder_spec (token : str) :
  isPlaceholder token = true ->
  token = placeholder (tokenName token) /\ braceFree (tokenName token) = true.
Proof.
  unfold isPlaceholder. intros H. apply andb_true_iff in H as [H1 H2].
  now apply str_eqb_eq in H1.
Qed.

Section Rules.

Context {CC : ChangeCase}.

Lemma ruleOk_spec (rule : str * str) :
  ruleOk rule = true ->
  fst rule = placeholder (tokenName (fst rule))
  /\ braceFree (tokenName (fst rule)) = true
  /\ braceFree (effective (fst rule) (snd rule)) = true
  /\ noDollar (effective (fst rule) (snd rule)) = true.
Proof.
  unfold ruleOk, inert. intros H.
  apply andb_true_iff in H as [H1 H2]. apply andb_true_iff in H2 as [H2 H3].
  apply isPlaceholder_spec in H1 as [H0 H1]. auto.
Qed.

(** One call of [replaceName] on a well-formed template. *)
Lemma replaceName_render (rule : str * str) (t : list item) :
  ruleOk rule = true -> wellFormed t = true ->
  replaceName (render t) (fst rule) (snd rule) = render (substRule t rule)
  /\ wellFormed (substRule t rule) = true.
Proof.
  intros Hrule Hwf. destruct (ruleOk_spec rule Hrule) as [Htok [Hname [Hbf Hnd]]].
  assert (Hwf' : wellFormed (substRule t rule) = true)
    by (now apply subst_wellFormed).
  split; [|exact Hwf'].
  assert (Hpass : replaceAll (render t) (fst rule)
                    (effective (fst rule) (snd rule))
                  = render (substRule t rule)).
  { rewrite Htok at 1. now apply replaceAll_render. }
  rewrite replaceName_effective; [exact Hpass|].
  rewrite Hpass, Htok. apply render_absent; try assumption.
  apply subst_hasTok.
Qed.

Lemma rewrite_render (rules : list (str * str)) :
  forallb ruleOk rules = true ->
  forall t, wellFormed t = true ->
            rewrite (render t) rules = render (fold_left substRule rules t).
Proof.
  induction rules as [|rule rules IH]; intros Hrules t Hwf; [reflexivity|].
  cbn [forallb] in Hrules. apply andb_true_iff in Hrules as [Hrule Hrules].
  destruct (replaceName_render rule t Hrule Hwf) as [Heq Hwf'].
  cbn [rewrite fold_left]. rewrite Heq. now apply IH.
Qed.

Lemma substAll_lits (rules : list (str * str)) (v : str) :
  substAll rules (map Lit v) = map Lit v.
Proof.
  induction v as [|c v IH]; [reflexivity|].
  cbn [map substAll flat_map substItemAll app]. f_equal. exact IH.
Qed.

Lemma substAll_nil (t : list item) : substAll [] t = t.
Proof.
  induction t as [|[c|m] t IH]; [reflexivity| |];
    cbn [substAll flat_map substItemAll lookupRule find app]; f_equal; exact IH.
Qed.

Lemma substAll_subst (rule : str * str) (rules : list (str * str)) (t : list item) :
  substAll rules (substRule t rule) = substAll (rule :: rules) t.
Proof.
  unfold substRule. induction t as [|[c|m] t IH]; [reflexivity| |].
  - cbn [subst flat_map substItem substAll substItemAll app].
    f_equal. exact IH.
  - cbn [subst flat_map substItem]. unfold substAll, subst in *.
    rewrite flat_map_app. cbn [flat_map]. rewrite IH. f_equal.
    cbn [substItemAll]. unfold lookupRule. cbn [find].
    destruct (str_eqb m (tokenName (fst rule))) eqn:E.
    + apply str_eqb_eq in E as ->. rewrite str_eqb_refl.
      apply substAll_lits.
    + assert (E' : str_eqb (tokenName (fst rule)) m = false).
      { apply str_eqb_neq. apply str_eqb_neq in E. congruence. }
      rewrite E'. cbn [flat_map substItemAll]. unfold lookupRule.
      now rewrite app_nil_r.
Qed.

(** Rule after rule is all rules at once. *)
Lemma fold_substRule (rules : list (str * str)) :
  forall t, fold_left substRule rules t = substAll rules t.
Proof.
  induction rules as [|rule rules IH]; intros t.
  - now rewrite substAll_nil.
  - cbn [fold_left]. rewrite IH. apply substAll_subst.
Qed.

Lemma rewrite_substAll (rules : list (str * str)) (t : list item) :
  forallb ruleOk rules = true -> wellFormed t = true ->
  rewrite (render t) rules = render (substAll rules t).
Proof.
  intros Hrules Hwf. rewrite rewrite_render by assumption.
  now rewrite fold_substRule.
Qed.

End Rules.

(** ** Sequential rewriting and the single pass *)

Lemma find_all_false {A : Type} (p : A -> bool) (l : list A) :
  (forall x, In x l -> p x = false) -> find p l = None.
Proof.
  intros H. destruct (find p l) as [x|] eqn:E; [|reflexivity].
  apply find_some in E as [Hin Hp]. rewrite (H x Hin) in Hp. discriminate.
Qed.

Lemma find_ext_in {A : Type} (p q : A -> bool) (l : list A) :
  (forall x, In x l -> p x = q x) -> find p l = find q l.
Proof.
  induction l as [|x l IH]; intros H; [reflexivity|].
  cbn [find]. rewrite (H x (in_eq _ _)).
  destruct (q x); [reflexivity|].
  apply IH. intros y Hy. apply H. now right.
Qed.

Lemma find_perm {A : Type} (p : A -> bool) (l l' : list A) :
  Permutation l l' ->
  (forall x y, In x l -> In y l -> p x = true -> p y = true -> x = y) ->
  find p l = find p l'.
Proof.
  intros Hperm Huniq.
  destruct (find p l) as [x|] eqn:E1; destruct (find p l') as [y|] eqn:E2.
  - apply find_some in E1 as [Hx Hpx]. apply find_some in E2 as [Hy Hpy].
    f_equal. apply Huniq; try assumption.
    apply (Permutation_in _ (Permutation_sym Hperm) Hy).
  - apply find_some in E1 as [Hx Hpx].
    pose proof (find_none _ _ E2 x (Permutation_in _ Hperm Hx)) as H.
    congruence.
  - apply find_some in E2 as [Hy Hpy].
    pose proof (find_none _ _ E1 y
                  (Permutation_in _ (Permutation_sym Hperm) Hy)) as H.
    congruence.
  - reflexivity.
Qed.

Lemma NoDup_map_In_eq {A B : Type} (f : A -> B) (l : list A) (x y : A) :
  NoDup (map f l) -> In x l -> In y l -> f x = f y -> x = y.
Proof.
  induction l as [|a l IH]; intros Hnd Hx Hy Heq; [destruct Hx|].
  cbn [map] in Hnd. inversion Hnd as [|? ? Hnotin Hnd']; subst.
  destruct Hx as [-> | Hx]; destruct Hy as [-> | Hy].
  - reflexivity.
  - exfalso. apply Hnotin. rewrite Heq. now apply in_map.
  - exfalso. apply Hnotin. rewrite <- Heq. now apply in_map.
  - now apply IH.
Qed.

Section OnePassFacts.

Context {CC : ChangeCase}.

Variable rules : list (str * str).
Hypothesis Hrules : forallb ruleOk rules = true.

Lemma rules_spec (rule : str * str) :
  In rule rules ->
  fst rule = placeholder (tokenName (fst rule))
  /\ braceFree (tokenName (fst rule)) = true.
Proof.
  intros Hin. rewrite forallb_forall in Hrules.
  destruct (ruleOk_spec rule (Hrules rule Hin)) as [H1 [H2 _]]. now split.
Qed.

Lemma ruleAt_literal (c : ascii) (t : list item) :
  wellFormed (Lit c :: t) = true ->
  ruleAt rules (render (Lit c :: t)) = None.
Proof.
  intros Hwf. apply find_all_false. intros rule Hin.
  destruct (rules_spec rule Hin) as [Htok _].
  rewrite Htok at 2. rewrite (literal_no_match c t _ Hwf).
  apply andb_false_r.
Qed.

Lemma ruleAt_token (m s : str) :
  braceFree m = true ->
  ruleAt rules (placeholder m ++ s)
  = find (fun rule => str_eqb (tokenName (fst rule)) m) rules.
Proof.
  intros Hm. apply find_ext_in. intros rule Hin.
  destruct (rules_spec rule Hin) as [Htok Hname].
  rewrite Htok at 1 2.
  assert (Hne : str_eqb (placeholder (tokenName (fst rule))) [] = false)
    by (apply str_eqb_neq; discriminate).
  rewrite Hne. cbn [negb andb].
  destruct (str_eqb (tokenName (fst rule)) m) eqn:E.
  - apply str_eqb_eq in E. rewrite E. apply startsWith_app.
  - apply str_eqb_neq in E.
    destruct (startsWith (placeholder m ++ s)
                         (placeholder (tokenName (fst rule)))) eqn:E';
      [|reflexivity].
    apply placeholder_prefix_eq in E'; [congruence | assumption | assumption].
Qed.

Lemma ruleAt_inside (m : str) :
  braceFree m = true -> lookupRule rules m = None ->
  forall t1 t2 y, placeholder m = t1 ++ t2 -> t2 <> [] ->
                  ruleAt rules (t2 ++ y) = None.
Proof.
  intros Hm Hnone t1 t2 y Heq Hne. unfold lookupRule in Hnone.
  destruct (find _ rules) as [r|] eqn:E; [discriminate|].
  apply find_all_false. intros rule Hin.
  destruct (rules_spec rule Hin) as [Htok Hname].
  pose proof (find_none _ _ E rule Hin) as Hneq. cbn beta in Hneq.
  apply str_eqb_neq in Hneq.
  rewrite Htok at 2.
  rewrite (proj1 (placeholder_protected _ m Hname Hm Hneq) t1 t2 y Heq Hne).
  apply andb_false_r.
Qed.

Lemma onePass_over_token (token : str) :
  (forall t1 t2 y, token = t1 ++ t2 -> t2 <> [] ->
                   ruleAt rules (t2 ++ y) = None) ->
  forall t2 t1 s,
    token = t1 ++ t2 ->
    onePass_from rules 0 (t2 ++ s) = t2 ++ onePass_from rules 0 s.
Proof.
  intros Hinside. induction t2 as [|c t2 IH]; intros t1 s Heq; [reflexivity|].
  cbn [app]. rewrite onePass_from_keep.
  - f_equal. apply (IH (t1 ++ [c])). now rewrite <- app_assoc.
  - apply (Hinside t1 (c :: t2) s Heq). discriminate.
Qed.

(** The single pass over a well-formed template replaces every token by
    the text of its rule. *)
Lemma onePass_render (t : list item) :
  wellFormed t = true ->
  rewriteOnePass (render t) rules = render (substAll rules t).
Proof.
  unfold rewriteOnePass. induction t as [|[c|m] t IH]; intros Hwf.
  - reflexivity.
  - change (render (Lit c :: t)) with (c :: render t).
    rewrite onePass_from_keep by (exact (ruleAt_literal c t Hwf)).
    cbn [wellFormed] in Hwf. apply andb_true_iff in Hwf as [_ Hwf].
    cbn [substAll flat_map substItemAll app render]. f_equal. now apply IH.
  - cbn [wellFormed] in Hwf. apply andb_true_iff in Hwf as [Hm Hwf].
    cbn [substAll flat_map substItemAll render].
    fold (substAll rules t). rewrite render_app, <- (IH Hwf).
    destruct (lookupRule rules m) as [v|] eqn:El.
    + unfold lookupRule in El.
      destruct (find _ rules) as [rule|] eqn:Ef; [|discriminate].
      injection El as <-. rewrite render_lits.
      pose proof Ef as Hat. rewrite <- (ruleAt_token m (render t) Hm) in Hat.
      apply find_some in Ef as [Hin Hname]. apply str_eqb_eq in Hname.
      destruct (rules_spec rule Hin) as [Htok _]. rewrite Hname in Htok.
      rewrite <- Htok in *. apply onePass_from_match; [exact Hat|].
      rewrite Htok. discriminate.
    + cbn [render]. rewrite app_nil_r.
      apply (onePass_over_token (placeholder m) (ruleAt_inside m Hm El)
               (placeholder m) [] (render t) eq_refl).
Qed.

End OnePassFacts.

(** C1, amended: on a well-formed template text, with rules whose tokens
    are placeholders and whose inserted texts, the values rendered in the
    style of their tokens, hold no brace and no dollar sign, the rewriter
    replaces every occurrence of every rule's token by the inserted text
    as it is and leaves the rest of the text alone: it returns what a
    single pass that never scans an inserted text returns.  (The rules
    are applied one after another to the whole text, so that outside
    these conditions a later rule does replace its token in what an
    earlier rule inserted.) *)
Theorem C1_rewrite_is_single_pass_on_templates {CC : ChangeCase}
  (text : str) (rules : list (str * str)) :
  wellFormedText text = true ->
  forallb ruleOk rules = true ->
  rewrite text rules = render (substAll rules (parse text))
  /\ rewrite text rules = rewriteOnePass text rules.
Proof.
  unfold wellFormedText. intros Hwf Hrules.
  pose proof (render_parse text) as Hread.
  remember (parse text) as t eqn:Et. clear Et. subst text.
  rewrite onePass_render by assumption.
  split; now apply rewrite_substAll.
Qed.

Lemma includes_refl (s : str) : includes s s = true.
Proof. apply includes_iff. exists [], []. now rewrite app_nil_r. Qed.

Lemma pairwiseDisjoint_NoDup (tokens : list str) :
  pairwiseDisjoint tokens = true -> NoDup tokens.
Proof.
  induction tokens as [|t rest IH]; intros H; [constructor|].
  cbn [pairwiseDisjoint] in H. apply andb_true_iff in H as [Hhere Hrest].
  constructor; [|now apply IH].
  intros Hin. rewrite forallb_forall in Hhere.
  specialize (Hhere t Hin). rewrite includes_refl in Hhere. discriminate.
Qed.

(** With distinct tokens, the order of the rules does not matter on a
    well-formed template. *)
Lemma rewrite_perm {CC : ChangeCase}
  (t : list item) (rules rules' : list (str * str)) :
  wellFormed t = true ->
  forallb ruleOk rules = true ->
  NoDup (map fst rules) ->
  Permutation rules rules' ->
  rewrite (render t) rules = rewrite (render t) rules'.
Proof.
  intros Hwf Hrules Hnd Hperm.
  assert (Hrules' : forallb ruleOk rules' = true).
  { rewrite forallb_forall in *. intros rule Hin. apply Hrules.
    apply (Permutation_in _ (Permutation_sym Hperm) Hin). }
  rewrite !rewrite_substAll by assumption. f_equal.
  unfold substAll. apply flat_map_ext. intros [c|m]; [reflexivity|].
  cbn [substItemAll]. unfold lookupRule.
  rewrite (find_perm _ rules rules' Hperm); [reflexivity|].
  intros x y Hx Hy Hpx Hpy. apply str_eqb_eq in Hpx, Hpy.
  apply (NoDup_map_In_eq fst rules x y Hnd Hx Hy).
  destruct (rules_spec rules Hrules x Hx) as [Htx _].
  destruct (rules_spec rules Hrules y Hy) as [Hty _].
  rewrite Htx, Hty, Hpx, Hpy. reflexivity.
Qed.

(** C5, amended: on a well-formed template text, with rules whose tokens
    are pairwise disjoint placeholders and whose inserted texts hold no
    brace and no dollar sign, the rules applied in any order give the same
    text. *)
Theorem C5_order_independent_on_templates {CC : ChangeCase}
  (text : str) (rules rules' : list (str * str)) :
  wellFormedText text = true ->
  forallb ruleOk rules = true ->
  pairwiseDisjoint (map fst rules) = true ->
  Permutation rules rules' ->
  rewrite text rules = rewrite text rules'.
Proof.
  unfold wellFormedText. intros Hwf Hrules Hdisjoint Hperm.
  pose proof (render_parse text) as Hread.
  remember (parse text) as t eqn:Et. clear Et. subst text.
  apply rewrite_perm; try assumption.
  now apply pairwiseDisjoint_NoDup.
Qed.

Lemma templateExample_rewritten :
  replacePlaceholdersInContent TemplateExample.text TemplateExample.placeholders
  = `"import 'package:my_app/login_user_usecase.dart'; f() { }".
Proof. vm_compute. reflexivity. Qed.

Lemma C1_rewrite_is_single_pass_on_templates_witness :
  wellFormedText TemplateExample.text = true
  /\ forallb ruleOk TemplateExample.rules = true
  /\ rewrite TemplateExample.text TemplateExample.rules
     = render (substAll TemplateExample.rules (parse TemplateExample.text))
  /\ rewrite TemplateExample.text TemplateExample.rules
     = rewriteOnePass TemplateExample.text TemplateExample.rules.
Proof.
  assert (Hwf : wellFormedText TemplateExample.text = true)
    by (vm_compute; reflexivity).
  assert (Hrules : forallb ruleOk TemplateExample.rules = true)
    by (vm_compute; reflexivity).
  split; [exact Hwf|]. split; [exact Hrules|].
  exact (C1_rewrite_is_single_pass_on_templates
           TemplateExample.text TemplateExample.rules Hwf Hrules).
Defined.

Lemma C5_order_independent_on_templates_witness :
  wellFormedText TemplateExample.text = true
  /\ forallb ruleOk TemplateExample.rules = true
  /\ pairwiseDisjoint (map fst TemplateExample.rules) = true
  /\ Permutation TemplateExample.rules (rev TemplateExample.rules)
  /\ rewrite TemplateExample.text TemplateExample.rules
     = rewrite TemplateExample.text (rev TemplateExample.rules).
Proof.
  assert (Hwf : wellFormedText TemplateExample.text = true)
    by (vm_compute; reflexivity).
  assert (Hrules : forallb ruleOk TemplateExample.rules = true)
    by (vm_compute; reflexivity).
  assert (Hdisjoint : pairwiseDisjoint (map fst TemplateExample.rules) = true)
    by (vm_compute; reflexivity).
  split; [exact Hwf|]. split; [exact Hrules|]. split; [exact Hdisjoint|].
  split; [apply Permutation_rev|].
  exact (C5_order_independent_on_templates
           TemplateExample.text TemplateExample.rules
           (rev TemplateExample.rules) Hwf Hrules Hdisjoint
           (Permutation_rev TemplateExample.rules)).
Defined.

(** * The commands around the rewriter: properties *)

(** ** Texts without a token *)

Lemma includes_prefix (s p q : str) :
  includes s (p ++ q) = true -> includes s p = true.
Proof.
  rewrite !includes_iff. intros [a [b ->]].
  exists a, (q ++ b). now rewrite <- app_assoc.
Qed.

Lemma includes_prefix_false (s p q : str) :
  includes s p = false -> includes s (p ++ q) = false.
Proof.
  intros H. destruct (includes s (p ++ q)) eqn:E; [|reflexivity].
  apply includes_prefix in E. congruence.
Qed.

Section WithoutToken.

Context {CC : ChangeCase}.

Lemma replaceKey_without_braces (content key value : str) :
  includes content `"{{" = false -> replaceKey content key value = content.
Proof.
  intros H. unfold replaceKey.
  repeat rewrite (replaceName_absent content)
    by (now apply includes_prefix_false).
  reflexivity.
Qed.

End WithoutToken.

Lemma rewriting_without_braces {CC : ChangeCase}
  (text : str) (placeholders : list (str * str)) :
  includes text `"{{" = false ->
  fold_left (fun result kv => replaceKey result (fst kv) (snd kv))
            placeholders text = text.
Proof.
  intros H. induction placeholders as [|[k v] ps IH]; [reflexivity|].
  cbn [fold_left fst snd]. now rewrite replaceKey_without_braces.
Qed.

(** X1: a text in which no two opening braces follow each other is returned
    as it is by the rewriting routines of the content and of the path,
    whatever the placeholders object holds. *)
Theorem replacePlaceholders_without_braces {CC : ChangeCase}
  (text : str) (placeholders : list (str * str)) :
  includes text `"{{" = false ->
  replacePlaceholdersInContent text placeholders = text
  /\ replacePlaceholdersInPath text placeholders = text.
Proof.
  intros H. split; now apply rewriting_without_braces.
Qed.

Lemma replacePlaceholders_without_braces_witness :
  includes `"lib/core/api/dio_interceptor.dart" `"{{" = false
  /\ replacePlaceholdersInPath `"lib/core/api/dio_interceptor.dart"
       [(`"custom_folder", `"C:/w/proj/lib"); (`"package_name", `"proj")]
     = `"lib/core/api/dio_interceptor.dart".
Proof.
  assert (H : includes `"lib/core/api/dio_interceptor.dart" `"{{" = false)
    by (vm_compute; reflexivity).
  split; [exact H|].
  exact (proj2 (@replacePlaceholders_without_braces CaseTransformer.changeCase
                  `"lib/core/api/dio_interceptor.dart"
                  [(`"custom_folder", `"C:/w/proj/lib"); (`"package_name", `"proj")]
                  H)).
Defined.

(** ** Backslashes and slashes *)

Lemma replaceAll_char (c : ascii) (rep s : str) :
  noDollar rep = true ->
  replaceAll s [c] rep
  = concat (map (fun d => if Ascii.eqb d c then rep else [d]) s).
Proof.
  intros Hrep. induction s as [|d s IH]; [reflexivity|].
  cbn [map concat]. destruct (Ascii.eqb d c) eqn:E.
  - apply Ascii.eqb_eq in E as ->. change (c :: s) with ([c] ++ s).
    rewrite replaceAll_match by (assumption || discriminate).
    now rewrite IH.
  - rewrite replaceAll_keep; try assumption; try discriminate.
    + cbn [app]. now rewrite IH.
    + cbn [startsWith]. now rewrite E.
Qed.

Lemma lacks_includes (c : ascii) (s : str) :
  lacks c s = true -> includes s [c] = false.
Proof.
  induction s as [|d s IH]; [reflexivity|].
  cbn [lacks forallb includes startsWith]. intros H.
  apply andb_true_iff in H as [Hd Hs]. apply negb_true_iff in Hd.
  rewrite Hd. cbn [andb orb]. now apply IH.
Qed.

Lemma concat_map_single {A : Type} (f : A -> A) (l : list A) :
  concat (map (fun x => [f x]) l) = map f l.
Proof. induction l as [|x l IH]; [reflexivity|]. cbn [map concat app]. now rewrite IH. Qed.

(** X2: the clicked folder is the path of the uri with every backslash
    turned into a slash and every other character kept in its place; no
    backslash is left in it. *)
Theorem getClickedFolder_slashes (uriFsPath : str) :
  getClickedFolder uriFsPath
  = map (fun c => if Ascii.eqb c "\" then "/" else c) uriFsPath
  /\ lacks "\" (getClickedFolder uriFsPath) = true.
Proof.
  assert (Hmap : getClickedFolder uriFsPath
                 = map (fun c => if Ascii.eqb c "\" then "/" else c) uriFsPath).
  { unfold getClickedFolder. rewrite replaceAll_char by reflexivity.
    rewrite <- concat_map_single. f_equal. apply map_ext.
    intros c. now destruct (Ascii.eqb c "\"). }
  split; [exact Hmap|]. rewrite Hmap. clear Hmap.
  induction uriFsPath as [|c s IH]; [reflexivity|].
  cbn [map lacks forallb]. unfold lacks in IH. rewrite IH, andb_true_r.
  destruct (Ascii.eqb c "\") eqn:E; [reflexivity | now rewrite E].
Qed.

(** ** The parts of a path *)

Lemma split_from_lacks (sep : ascii) (s cur : str) :
  lacks sep s = true -> split_from sep cur s = [cur ++ s].
Proof.
  revert cur. induction s as [|c s IH]; intros cur H.
  - cbn [split_from]. now rewrite app_nil_r.
  - cbn [lacks forallb] in H. apply andb_true_iff in H as [Hc Hs].
    apply negb_true_iff in Hc. cbn [split_from]. rewrite Hc.
    rewrite IH by exact Hs. now rewrite <- app_assoc.
Qed.

Lemma split_from_part (sep : ascii) (part rest cur : str) :
  lacks sep part = true ->
  split_from sep cur (part ++ sep :: rest)
  = (cur ++ part) :: split_from sep [] rest.
Proof.
  revert cur. induction part as [|c part IH]; intros cur H.
  - cbn [app split_from]. now rewrite Ascii.eqb_refl, app_nil_r.
  - cbn [lacks forallb] in H. apply andb_true_iff in H as [Hc Hs].
    apply negb_true_iff in Hc. cbn [app split_from]. rewrite Hc.
    rewrite IH by exact Hs. now rewrite <- app_assoc.
Qed.

Lemma split_from_nonempty (sep : ascii) (s cur : str) :
  split_from sep cur s <> [].
Proof.
  revert cur. induction s as [|c s IH]; intros cur; cbn [split_from].
  - discriminate.
  - destruct (Ascii.eqb c sep); [discriminate | apply IH].
Qed.

Lemma last_cons_nonempty {A : Type} (x d : A) (l : list A) :
  l <> [] -> last (x :: l) d = last l d.
Proof. destruct l; [congruence | reflexivity]. Qed.

Lemma last_split_from (sep : ascii) (a b cur : str) :
  lacks sep b = true ->
  last (split_from sep cur (a ++ sep :: b)) [] = b.
Proof.
  intros Hb. revert cur. induction a as [|c a IH]; intros cur.
  - cbn [app split_from]. rewrite Ascii.eqb_refl.
    now rewrite split_from_lacks.
  - cbn [app split_from]. destruct (Ascii.eqb c sep).
    + rewrite last_cons_nonempty by apply split_from_nonempty. apply IH.
    + apply IH.
Qed.

Lemma split_from_parts_lack (sep : ascii) (s cur : str) :
  lacks sep cur = true ->
  Forall (fun part => lacks sep part = true) (split_from sep cur s).
Proof.
  revert cur. induction s as [|c s IH]; intros cur Hcur; cbn [split_from].
  - now constructor.
  - destruct (Ascii.eqb c sep) eqn:E.
    + constructor; [exact Hcur | now apply IH].
    + apply IH. unfold lacks. rewrite forallb_app. fold (lacks sep cur).
      rewrite Hcur. cbn [forallb]. now rewrite E.
Qed.

(** X3: the package name is the part of the workspace folder's path after
    its last backslash; for a path without a backslash, as the paths of
    Linux and macOS are, it is the whole path, slashes included. *)
Theorem getPackageName_last_component (name : str) :
  lacks "\" name = true ->
  getPackageName (Some name) = name
  /\ forall parent, getPackageName (Some (parent ++ "\" :: name)) = name.
Proof.
  intros H. unfold getPackageName, split. split.
  - now rewrite split_from_lacks.
  - intros parent. now apply last_split_from.
Qed.

Lemma getPackageName_last_component_witness :
  lacks "\" `"/home/me/my_app" = true
  /\ getPackageName (Some `"/home/me/my_app") = `"/home/me/my_app"
  /\ getPackageName (Some `"C:\w\my_app") = `"my_app".
Proof.
  split; [vm_compute; reflexivity|]. split.
  - exact (proj1 (getPackageName_last_component `"/home/me/my_app" eq_refl)).
  - exact (proj2 (getPackageName_last_component `"my_app" eq_refl) `"C:\w").
Defined.

(** X4: the package name never holds a backslash, whatever the workspace
    folder is, so that [createInitials] and [createUsecase], which replace
    the backslashes of the package name by slashes, leave it as it is. *)
Theorem getPackageName_without_backslash (rootFsPath : option str) :
  lacks "\" (getPackageName rootFsPath) = true
  /\ replaceAll (getPackageName rootFsPath) [ "\" ] `"/"
     = getPackageName rootFsPath.
Proof.
  assert (H : lacks "\" (getPackageName rootFsPath) = true).
  { destruct rootFsPath as [root|]; [|reflexivity].
    unfold getPackageName, split.
    pose proof (split_from_parts_lack "\" root [] eq_refl) as Hall.
    pose proof (split_from_nonempty "\" root []) as Hne.
    rewrite Forall_forall in Hall. apply Hall.
    destruct (exists_last Hne) as [l [x ->]].
    rewrite last_last. apply in_or_app. right. now left. }
  split; [exact H|]. apply replaceAll_absent. now apply lacks_includes.
Qed.

(** ** What the rewriter leaves of the tokens *)

Lemma subst_keeps_absent (name m v : str) (t : list item) :
  hasTok name t = false -> hasTok name (subst m v t) = false.
Proof.
  unfold hasTok, subst. induction t as [|[c|k] t IH]; intros H.
  - reflexivity.
  - cbn [flat_map substItem app existsb] in *. now apply IH.
  - cbn [existsb] in H. apply orb_false_iff in H as [Hk Ht].
    cbn [flat_map substItem]. rewrite existsb_app, (IH Ht), orb_false_r.
    destruct (str_eqb k m).
    + apply hasTok_lits.
    + cbn [existsb]. now rewrite Hk.
Qed.

Section NoTokenLeft.

Context {CC : ChangeCase}.

Lemma fold_substRule_keeps_absent (name : str) (rules : list (str * str)) :
  forall t, hasTok name t = false ->
            hasTok name (fold_left substRule rules t) = false.
Proof.
  induction rules as [|rule rules IH]; intros t H; [exact H|].
  cbn [fold_left]. apply IH. now apply subst_keeps_absent.
Qed.

Lemma fold_substRule_hasTok (rule : str * str) (rules : list (str * str)) :
  In rule rules ->
  forall t, hasTok (tokenName (fst rule)) (fold_left substRule rules t) = false.
Proof.
  induction rules as [|r rules IH]; intros Hin t; [contradiction|].
  cbn [fold_left]. destruct Hin as [-> | Hin].
  - apply fold_substRule_keeps_absent. apply subst_hasTok.
  - now apply IH.
Qed.

Lemma fold_substRule_wellFormed (rules : list (str * str)) :
  forallb ruleOk rules = true ->
  forall t, wellFormed t = true ->
            wellFormed (fold_left substRule rules t) = true.
Proof.
  induction rules as [|rule rules IH]; intros Hrules t Hwf; [exact Hwf|].
  cbn [forallb] in Hrules. apply andb_true_iff in Hrules as [Hrule Hrules].
  cbn [fold_left]. apply IH; [exact Hrules|].
  exact (proj2 (replaceName_render rule t Hrule Hwf)).
Qed.

(** After the rewriter no token of a rule is left in a well-formed
    template. *)
Lemma rewrite_no_token_left (rules : list (str * str)) (t : list item)
  (rule : str * str) :
  forallb ruleOk rules = true -> wellFormed t = true -> In rule rules ->
  includes (rewrite (render t) rules) (fst rule) = false.
Proof.
  intros Hrules Hwf Hin. rewrite rewrite_render by assumption.
  assert (Hrule : ruleOk rule = true)
    by (rewrite forallb_forall in Hrules; now apply Hrules).
  destruct (ruleOk_spec rule Hrule) as [Htok [Hname _]].
  rewrite Htok. apply render_absent.
  - exact Hname.
  - now apply fold_substRule_wellFormed.
  - now apply fold_substRule_hasTok.
Qed.

Lemma rewrite_all_absent (rules : list (str * str)) (text : str) :
  (forall rule, In rule rules -> includes text (fst rule) = false) ->
  rewrite text rules = text.
Proof.
  induction rules as [|rule rules IH]; intros H; [reflexivity|].
  rewrite rewrite_cons_absent by (apply H; now left).
  apply IH. intros r Hr. apply H. now right.
Qed.

End NoTokenLeft.

(** X5: on a well-formed template text, with values whose renderings hold
    no brace and no dollar sign, the content routine leaves no token of a
    key of the placeholders object, in none of the six styles. *)
Theorem replacePlaceholdersInContent_expands_all {CC : ChangeCase}
  (text : str) (placeholders : list (str * str)) :
  wellFormedText text = true ->
  forallb ruleOk (flat_map keyRules placeholders) = true ->
  forall key value style,
    In (key, value) placeholders -> In style styles ->
    includes (replacePlaceholdersInContent text placeholders)
             (`"{{" ++ key ++ style ++ `"}}") = false.
Proof.
  unfold wellFormedText. intros Hwf Hrules key value style Hkey Hstyle.
  rewrite replacePlaceholdersInContent_rewrite.
  rewrite <- (render_parse text) at 1.
  apply (rewrite_no_token_left _ _ (`"{{" ++ key ++ style ++ `"}}", value));
    try assumption.
  apply in_flat_map. exists (key, value). split; [assumption|].
  unfold keyRules. cbn [fst snd].
  apply (in_map (fun style => (`"{{" ++ key ++ style ++ `"}}", value))).
  exact Hstyle.
Qed.

Lemma replacePlaceholdersInContent_expands_all_witness :
  wellFormedText TemplateExample.text = true
  /\ forallb ruleOk (flat_map keyRules TemplateExample.placeholders) = true
  /\ includes (replacePlaceholdersInContent TemplateExample.text
                 TemplateExample.placeholders)
              `"{{usecase_name.snakeCase}}" = false.
Proof.
  assert (Hwf : wellFormedText TemplateExample.text = true)
    by (vm_compute; reflexivity).
  assert (Hrules : forallb ruleOk (flat_map keyRules TemplateExample.placeholders)
                   = true) by (vm_compute; reflexivity).
  split; [exact Hwf|]. split; [exact Hrules|].
  apply (replacePlaceholdersInContent_expands_all
           TemplateExample.text TemplateExample.placeholders Hwf Hrules
           `"usecase_name" `"LoginUser" `".snakeCase").
  - right. now left.
  - vm_compute. tauto.
Defined.

(** X6: under the same conditions, the content routine applied to its own
    result changes nothing more. *)
Theorem replacePlaceholdersInContent_idempotent {CC : ChangeCase}
  (text : str) (placeholders : list (str * str)) :
  wellFormedText text = true ->
  forallb ruleOk (flat_map keyRules placeholders) = true ->
  replacePlaceholdersInContent
    (replacePlaceholdersInContent text placeholders) placeholders
  = replacePlaceholdersInContent text placeholders.
Proof.
  unfold wellFormedText. intros Hwf Hrules.
  rewrite !replacePlaceholdersInContent_rewrite.
  apply rewrite_all_absent. intros rule Hin.
  rewrite <- (render_parse text).
  now apply rewrite_no_token_left.
Qed.

Lemma replacePlaceholdersInContent_idempotent_witness :
  wellFormedText TemplateExample.text = true
  /\ forallb ruleOk (flat_map keyRules TemplateExample.placeholders) = true
  /\ replacePlaceholdersInContent
       (replacePlaceholdersInContent TemplateExample.text
          TemplateExample.placeholders) TemplateExample.placeholders
     = replacePlaceholdersInContent TemplateExample.text
         TemplateExample.placeholders.
Proof.
  assert (Hwf : wellFormedText TemplateExample.text = true)
    by (vm_compute; reflexivity).
  assert (Hrules : forallb ruleOk (flat_map keyRules TemplateExample.placeholders)
                   = true) by (vm_compute; reflexivity).
  split; [exact Hwf|]. split; [exact Hrules|].
  exact (replacePlaceholdersInContent_idempotent
           TemplateExample.text TemplateExample.placeholders Hwf Hrules).
Defined.

(** ** The order of the thirty calls *)

Lemma Permutation_heads_flat_map {A B : Type} (g : A -> B) (h : A -> list B)
  (l : list A) :
  Permutation (map g l ++ flat_map h l) (flat_map (fun a => g a :: h a) l).
Proof.
  induction l as [|a l IH]; [constructor|].
  cbn [map flat_map app]. constructor.
  rewrite app_assoc.
  transitivity ((h a ++ map g l) ++ flat_map h l).
  - apply Permutation_app_tail. apply Permutation_app_comm.
  - rewrite <- app_assoc. now apply Permutation_app_head.
Qed.

(** A table read row by row and column by column. *)
Lemma Permutation_flat_map_swap {A B C : Type} (f : A -> B -> C)
  (la : list A) (lb : list B) :
  Permutation (flat_map (fun a => map (f a) lb) la)
              (flat_map (fun b => map (fun a => f a b) la) lb).
Proof.
  induction la as [|a la IH].
  - cbn [flat_map map]. induction lb as [|b lb IHb]; [constructor | exact IHb].
  - cbn [flat_map map].
    transitivity (map (f a) lb ++ flat_map (fun b => map (fun a => f a b) la) lb).
    + now apply Permutation_app_head.
    + apply (Permutation_heads_flat_map (f a)
               (fun b => map (fun a => f a b) la)).
Qed.

Lemma chainRules_keyRules (bs : list (str * str)) :
  Permutation (Usecase.chainRules bs) (flat_map keyRules bs).
Proof.
  unfold Usecase.chainRules, keyRules.
  apply (Permutation_flat_map_swap
           (fun style kv => (`"{{" ++ fst kv ++ style ++ `"}}", snd kv))).
Qed.

(** X7: the thirty calls of the use case command, style by style, and the
    loop of the reworked command, key by key, rewrite a well-formed template
    text alike when the renderings of the five values hold no brace and no
    dollar sign. *)
Theorem replaceChain_as_rewritten_command {CC : ChangeCase}
  (text featureName clickedFolder usecaseName packageName rootFolder : str) :
  wellFormedText text = true ->
  forallb ruleOk
    (Usecase.chainRules
       (Usecase.bindings featureName clickedFolder usecaseName packageName
                         rootFolder)) = true ->
  Usecase.replaceChain text
    (Usecase.bindings featureName clickedFolder usecaseName packageName
                      rootFolder)
  = Usecase.replacePlaceholdersInContent5 text featureName usecaseName
      packageName clickedFolder rootFolder.
Proof.
  unfold wellFormedText. intros Hwf Hrules.
  unfold Usecase.replaceChain, Usecase.replacePlaceholdersInContent5.
  rewrite replacePlaceholdersInContent_rewrite.
  rewrite <- (render_parse text).
  apply rewrite_perm; try assumption.
  - apply pairwiseDisjoint_NoDup. vm_compute. reflexivity.
  - etransitivity; [apply chainRules_keyRules|].
    apply Permutation_flat_map. unfold Usecase.bindings.
    apply perm_skip.
    transitivity [(`"usecase_name", usecaseName); (`"custom_folder", clickedFolder);
                  (`"package_name", packageName); (`"root_folder", rootFolder)].
    + apply perm_swap.
    + apply perm_skip. apply perm_swap.
Qed.

Lemma replaceChain_as_rewritten_command_witness :
  wellFormedText TemplateExample.text = true
  /\ forallb ruleOk
       (Usecase.chainRules
          (Usecase.bindings `"auth" `"C:/w/proj/lib/src/auth/domain"
                            `"LoginUser" `"my_app" `"C:/w/proj")) = true
  /\ Usecase.replaceChain TemplateExample.text
       (Usecase.bindings `"auth" `"C:/w/proj/lib/src/auth/domain"
                         `"LoginUser" `"my_app" `"C:/w/proj")
     = Usecase.replacePlaceholdersInContent5 TemplateExample.text
         `"auth" `"LoginUser" `"my_app" `"C:/w/proj/lib/src/auth/domain"
         `"C:/w/proj".
Proof.
  assert (Hwf : wellFormedText TemplateExample.text = true)
    by (vm_compute; reflexivity).
  assert (Hrules : forallb ruleOk
                     (Usecase.chainRules
                        (Usecase.bindings `"auth" `"C:/w/proj/lib/src/auth/domain"
                                          `"LoginUser" `"my_app" `"C:/w/proj"))
                   = true) by (vm_compute; reflexivity).
  split; [exact Hwf|]. split; [exact Hrules|].
  exact (replaceChain_as_rewritten_command TemplateExample.text
           `"auth" `"C:/w/proj/lib/src/auth/domain" `"LoginUser" `"my_app"
           `"C:/w/proj" Hwf Hrules).
Defined.

(** ** The paths of the walker and of the copies *)

Lemma startsWith_app_l (s p r : str) :
  startsWith s p = true -> startsWith (s ++ r) p = true.
Proof.
  rewrite !startsWith_iff. intros [x ->]. exists (x ++ r).
  now rewrite <- app_assoc.
Qed.

Lemma endsWith_iff (s p : str) :
  endsWith s p = true <-> exists stem, s = stem ++ p.
Proof.
  unfold endsWith. rewrite startsWith_iff. split.
  - intros [r Hr]. exists (rev r).
    rewrite <- (rev_involutive s), Hr, rev_app_distr.
    now rewrite rev_involutive.
  - intros [stem ->]. exists (rev stem). now rewrite rev_app_distr.
Qed.

Lemma templateUnder_path (dir : str) (entries : list (str * node)) (p : str) :
  templateUnder dir entries p ->
  exists stem, p = dir ++ `"/" ++ stem ++ `".template".
Proof.
  induction 1 as [dir entries item content _ Hends
                 | dir entries item sub p _ _ [stem ->]].
  - apply endsWith_iff in Hends as [stem ->]. now exists stem.
  - exists (item ++ `"/" ++ stem). now rewrite <- !app_assoc.
Qed.

(** X8: every path the walker returns for a folder is the folder, a slash,
    and a relative path that ends in .template. *)
Theorem getAllTemplateFiles_paths (dir : str) (at_dir : option node)
  (files : list str) :
  getAllTemplateFiles dir at_dir = Ok files ->
  Forall (fun p => exists stem, p = dir ++ `"/" ++ stem ++ `".template") files.
Proof.
  destruct at_dir as [[content | entries]|]; cbn [getAllTemplateFiles];
    intros H; [discriminate| |].
  - injection H as <-. apply Forall_forall. intros p Hin.
    apply (templateUnder_path dir entries).
    now apply (templateFilesIn_sound (Dir entries)).
  - injection H as <-. constructor.
Qed.

Lemma getAllTemplateFiles_paths_witness :
  getAllTemplateFiles `"/t/core" (Some (Dir BatchExample.entries))
  = Ok [ `"/t/core/a.template"; `"/t/core/unreadable.template";
         `"/t/core/sub/denied.template"; `"/t/core/d.template" ]
  /\ Forall (fun p => exists stem, p = `"/t/core" ++ `"/" ++ stem ++ `".template")
            [ `"/t/core/a.template"; `"/t/core/unreadable.template";
              `"/t/core/sub/denied.template"; `"/t/core/d.template" ].
Proof.
  assert (H : getAllTemplateFiles `"/t/core" (Some (Dir BatchExample.entries))
              = Ok [ `"/t/core/a.template"; `"/t/core/unreadable.template";
                     `"/t/core/sub/denied.template"; `"/t/core/d.template" ])
    by (vm_compute; reflexivity).
  split; [exact H|].
  exact (getAllTemplateFiles_paths _ _ _ H).
Defined.

Lemma replace_from_match (search rep before s : str) :
  startsWith s search = true ->
  replace_from search rep before s
  = getSubstitution search before (skipn (length search) s) rep
    ++ skipn (length search) s.
Proof. intros H. destruct s; cbn [replace_from]; now rewrite H. Qed.

(** The first occurrence of a prefix is the prefix. *)
Lemma replace_prefix (p s : str) : replace (p ++ s) p [] = s.
Proof.
  unfold replace. rewrite replace_from_match by apply startsWith_app.
  rewrite skipn_app, Nat.sub_diag, skipn_all. reflexivity.
Qed.

Lemma replaceTemplateSuffix_template (x : str) :
  replaceTemplateSuffix (x ++ `".template") = x ++ `".dart".
Proof.
  unfold replaceTemplateSuffix.
  replace (endsWith (x ++ `".template") `".template") with true
    by (symmetry; apply endsWith_iff; now exists x).
  rewrite length_app. cbn [length list_ascii_of_string].
  replace (length x + 9 - 9) with (length x) by lia.
  rewrite firstn_app, Nat.sub_diag, firstn_all. cbn [firstn].
  now rewrite app_nil_r.
Qed.

Lemma includes_braces_cons (c : ascii) (s : str) :
  includes s `"{{" = false ->
  (Ascii.eqb c "{" && startsWith s ["{"]) = false ->
  includes (c :: s) `"{{" = false.
Proof.
  intros Hs Hc. cbn [includes]. rewrite Hs, orb_false_r.
  cbn [list_ascii_of_string startsWith]. destruct (Ascii.eqb c "{"); [|reflexivity].
  cbn [andb] in *. destruct s as [|d s]; [reflexivity|].
  cbn [startsWith] in Hc. rewrite andb_true_r in Hc. now rewrite Hc.
Qed.

(** Two texts without a token, joined where the second does not start with
    an opening brace. *)
Lemma includes_braces_app (a b : str) :
  includes a `"{{" = false -> includes b `"{{" = false ->
  startsWith b ["{"] = false ->
  includes (a ++ b) `"{{" = false.
Proof.
  intros Ha Hb Hstart. induction a as [|c a IH]; [exact Hb|].
  apply includes_false_cons in Ha as [Hhere Ha].
  cbn [app]. apply includes_braces_cons; [now apply IH|].
  destruct (Ascii.eqb c "{") eqn:Ec; [|reflexivity]. cbn [andb].
  destruct a as [|d a]; [exact Hstart|].
  cbn [app startsWith]. rewrite andb_true_r.
  cbn [list_ascii_of_string startsWith] in Hhere. rewrite Ec in Hhere.
  cbn [andb] in Hhere. now rewrite andb_true_r in Hhere.
Qed.

Lemma includes_braces_sep (a b : str) (c : ascii) :
  Ascii.eqb c "{" = false ->
  includes a `"{{" = false -> includes b `"{{" = false ->
  includes (a ++ c :: b) `"{{" = false.
Proof.
  intros Hc Ha Hb. apply includes_braces_app; [exact Ha| |].
  - apply includes_braces_cons; [exact Hb | now rewrite Hc].
  - cbn [startsWith]. now rewrite Hc.
Qed.

Section Destinations.

Context {CC : ChangeCase}.
Variables rootFolder clickedFolder packageName stem : str.
Hypothesis Hroot : includes rootFolder `"{{" = false.
Hypothesis Hstem : includes stem `"{{" = false.

Lemma destination_without_braces (dirs : str) :
  includes dirs `"{{" = false ->
  replacePlaceholdersInPath
    (replaceTemplateSuffix
       (rootFolder ++ "/" :: dirs ++ "/" :: stem ++ `".template"))
    [(`"custom_folder", clickedFolder);
     (`"package_name", packageName);
     (`"root_folder", rootFolder)]
  = rootFolder ++ "/" :: dirs ++ "/" :: stem ++ `".dart".
Proof.
  intros Hdirs.
  replace (rootFolder ++ "/" :: dirs ++ "/" :: stem ++ `".template")
    with ((rootFolder ++ "/" :: dirs ++ "/" :: stem) ++ `".template")
    by (rewrite <- !app_assoc; cbn [app]; now rewrite <- !app_assoc).
  rewrite replaceTemplateSuffix_template.
  replace ((rootFolder ++ "/" :: dirs ++ "/" :: stem) ++ `".dart")
    with (rootFolder ++ "/" :: dirs ++ "/" :: stem ++ "." :: `"dart")
    by (rewrite <- !app_assoc; cbn [app]; now rewrite <- !app_assoc).
  apply rewriting_without_braces.
  repeat (apply includes_braces_sep; try assumption; try reflexivity).
Qed.

End Destinations.

(** X9: a template the walker found below the template folder of config,
    core or test is copied to lib/config, lib/core or test of the project,
    under the same relative path with .dart in place of .template, when
    neither the project folder nor the relative path holds two opening
    braces in a row. *)
Theorem destinationOf_initial_template {CC : ChangeCase}
  (templateFolder rootFolder clickedFolder packageName stem : str) :
  includes rootFolder `"{{" = false ->
  includes stem `"{{" = false ->
  destinationOf templateFolder rootFolder clickedFolder packageName `"config"
    (templateFolder ++ `"/" ++ stem ++ `".template")
  = rootFolder ++ `"/lib/config/" ++ stem ++ `".dart"
  /\ destinationOf templateFolder rootFolder clickedFolder packageName `"core"
       (templateFolder ++ `"/" ++ stem ++ `".template")
     = rootFolder ++ `"/lib/core/" ++ stem ++ `".dart"
  /\ destinationOf templateFolder rootFolder clickedFolder packageName `"test"
       (templateFolder ++ `"/" ++ stem ++ `".template")
     = rootFolder ++ `"/test/" ++ stem ++ `".dart".
Proof.
  intros Hroot Hstem. unfold destinationOf.
  replace (templateFolder ++ `"/" ++ stem ++ `".template")
    with ((templateFolder ++ `"/") ++ stem ++ `".template")
    by (now rewrite <- app_assoc).
  rewrite replace_prefix.
  repeat match goal with
         | |- context [list_eq_dec ascii_dec ?a ?b] =>
           destruct (list_eq_dec ascii_dec a b); try discriminate; try congruence
         end.
  split; [|split].
  - exact (destination_without_braces rootFolder clickedFolder packageName stem
             Hroot Hstem `"lib/config" eq_refl).
  - exact (destination_without_braces rootFolder clickedFolder packageName stem
             Hroot Hstem `"lib/core" eq_refl).
  - exact (destination_without_braces rootFolder clickedFolder packageName stem
             Hroot Hstem `"test" eq_refl).
Qed.

Lemma destinationOf_initial_template_witness :
  includes `"C:/w/proj" `"{{" = false
  /\ includes `"api/dio_interceptor" `"{{" = false
  /\ destinationOf `"C:/w/proj/.my_templates/flutter_tdd_clean_templates/core"
       `"C:/w/proj" `"C:/w/proj/lib" `"proj" `"core"
       (`"C:/w/proj/.my_templates/flutter_tdd_clean_templates/core" ++ `"/"
          ++ `"api/dio_interceptor" ++ `".template")
     = `"C:/w/proj" ++ `"/lib/core/" ++ `"api/dio_interceptor" ++ `".dart".
Proof.
  split; [vm_compute; reflexivity|]. split; [vm_compute; reflexivity|].
  exact (proj1 (proj2 (@destinationOf_initial_template CaseTransformer.changeCase
                         `"C:/w/proj/.my_templates/flutter_tdd_clean_templates/core"
                         `"C:/w/proj" `"C:/w/proj/lib" `"proj"
                         `"api/dio_interceptor" eq_refl eq_refl))).
Defined.

(** ** The total of [createInitials] *)

Section InitialsFacts.

Context {CC : ChangeCase}.
Variable World : Type.
Variable nodeAt : World -> str -> option node.
Variable readFileSync : World -> str -> option str.
Variable writeFileExtPromise : World -> str -> str -> World * bool.

Lemma copyInitialTemplatesFromFolder_count (w : World) (at_folder : option node)
  (templateFolder rootFolder clickedFolder packageName folderType : str)
  (r : loopState World) :
  copyInitialTemplatesFromFolder readFileSync writeFileExtPromise w at_folder
    templateFolder rootFolder clickedFolder packageName folderType = Ok r ->
  filesCreated r = length (filter isCreated (events r)).
Proof.
  unfold copyInitialTemplatesFromFolder.
  destruct (getAllTemplateFiles templateFolder at_folder) as [files | e];
    [|discriminate].
  intros H. injection H as <-.
  destruct (loop_outcome World readFileSync writeFileExtPromise templateFolder
              rootFolder clickedFolder packageName folderType files
              {| world := w; events := []; filesCreated := 0 |})
    as [es [_ [Hev Hcount]]].
  rewrite Hcount, Hev. reflexivity.
Qed.

Lemma copyFolders_outcome
  (templateBaseFolder rootFolder clickedFolder packageName : str)
  (initialFolders : list str) :
  forall (st st' : Initials.state World) (error : option str),
    Initials.copyFolders nodeAt readFileSync writeFileExtPromise
      templateBaseFolder rootFolder clickedFolder packageName
      initialFolders st = (st', error) ->
    (Initials.totalFilesCreated st
     = length (filter isCreated (Initials.copied st)) ->
     Initials.totalFilesCreated st'
     = length (filter isCreated (Initials.copied st')))
    /\ exists msgs,
         Initials.shown st' = Initials.shown st ++ msgs
         /\ (error = None -> Forall2 folderMessage initialFolders msgs).
Proof.
  induction initialFolders as [|folder rest IH]; intros st st' error H;
    cbn [Initials.copyFolders] in H.
  - injection H as <- <-. split; [trivial|].
    exists []. split; [now rewrite app_nil_r | constructor].
  - destruct (nodeAt (Initials.fs st) (templateBaseFolder ++ `"/" ++ folder))
      as [at_folder|].
    + destruct (copyInitialTemplatesFromFolder _ _ _ _ _ _ _ _ _)
        as [r | e] eqn:Hcopy.
      * apply copyInitialTemplatesFromFolder_count in Hcopy.
        apply IH in H as [Hcount [msgs [Hshown Hmsgs]]].
        cbn [Initials.totalFilesCreated Initials.copied Initials.shown] in *.
        split.
        -- intros Hst. apply Hcount.
           rewrite filter_app, length_app. lia.
        -- exists (Initials.CreatedFrom (filesCreated r) folder :: msgs).
           split; [now rewrite Hshown, <- app_assoc|].
           intros He. constructor; [right; now eexists | now apply Hmsgs].
      * injection H as <- <-. split; [trivial|].
        exists []. split; [now rewrite app_nil_r | discriminate].
    + apply IH in H as [Hcount [msgs [Hshown Hmsgs]]].
      cbn [Initials.totalFilesCreated Initials.copied Initials.shown] in *.
      split; [exact Hcount|].
      exists (Initials.FolderNotFound folder :: msgs).
      split; [now rewrite Hshown, <- app_assoc|].
      intros He. constructor; [now left | now apply Hmsgs].
Qed.

(** A copy that returns is a run of the batch over the template files of
    the folder. *)
Lemma copyInitialTemplatesFromFolder_run (w : World) (at_folder : option node)
  (templateFolder rootFolder clickedFolder packageName folderType : str)
  (r : loopState World) :
  copyInitialTemplatesFromFolder readFileSync writeFileExtPromise w at_folder
    templateFolder rootFolder clickedFolder packageName folderType = Ok r ->
  exists templateFiles,
    getAllTemplateFiles templateFolder at_folder = Ok templateFiles
    /\ batchRun readFileSync writeFileExtPromise templateFolder rootFolder
                clickedFolder packageName folderType
                w templateFiles (world r) (events r) (filesCreated r).
Proof.
  unfold copyInitialTemplatesFromFolder.
  destruct (getAllTemplateFiles templateFolder at_folder) as [files | e];
    [|discriminate].
  intros H. injection H as <-. exists files. split; [reflexivity|].
  destruct (loop_run World readFileSync writeFileExtPromise templateFolder
              rootFolder clickedFolder packageName folderType files
              {| world := w; events := []; filesCreated := 0 |})
    as [es [n [Hrun [Hev Hcount]]]].
  cbn [world events filesCreated app Nat.add] in Hrun, Hev, Hcount.
  now rewrite Hev, Hcount.
Qed.

Lemma copyFolders_run
  (templateBaseFolder rootFolder clickedFolder packageName : str)
  (initialFolders : list str) :
  forall st st' : Initials.state World,
    Initials.copyFolders nodeAt readFileSync writeFileExtPromise
      templateBaseFolder rootFolder clickedFolder packageName
      initialFolders st = (st', None) ->
    exists es msgs n,
      folderCopies nodeAt readFileSync writeFileExtPromise templateBaseFolder
                   rootFolder clickedFolder packageName
                   (Initials.fs st) initialFolders (Initials.fs st') es msgs n
      /\ Initials.copied st' = Initials.copied st ++ es
      /\ Initials.shown st' = Initials.shown st ++ msgs
      /\ Initials.totalFilesCreated st' = Initials.totalFilesCreated st + n.
Proof.
  induction initialFolders as [|folder rest IH]; intros st st' H;
    cbn [Initials.copyFolders] in H.
  - injection H as <-. exists [], [], 0.
    split; [constructor|]. rewrite !app_nil_r. split; [reflexivity|].
    split; [reflexivity|lia].
  - destruct (nodeAt (Initials.fs st) (templateBaseFolder ++ `"/" ++ folder))
      as [at_folder|] eqn:Hnode.
    + destruct (copyInitialTemplatesFromFolder _ _ _ _ _ _ _ _ _)
        as [r | e] eqn:Hcopy; [|discriminate].
      apply copyInitialTemplatesFromFolder_run in Hcopy
        as [files [Hfiles Hrun]].
      apply IH in H as [es [msgs [n [Hrest [Hcopied [Hshown Htotal]]]]]].
      cbn [Initials.fs Initials.totalFilesCreated Initials.copied
           Initials.shown] in Hrest, Hcopied, Hshown, Htotal.
      exists (events r ++ es),
             (Initials.CreatedFrom (filesCreated r) folder :: msgs),
             (filesCreated r + n).
      split; [now apply copies_found with (w1 := world r)
                                          (at_folder := at_folder)
                                          (templateFiles := files)|].
      rewrite Hcopied, Hshown, Htotal, <- !app_assoc.
      split; [reflexivity|]. split; [reflexivity|lia].
    + apply IH in H as [es [msgs [n [Hrest [Hcopied [Hshown Htotal]]]]]].
      cbn [Initials.fs Initials.totalFilesCreated Initials.copied
           Initials.shown] in Hrest, Hcopied, Hshown, Htotal.
      exists es, (Initials.FolderNotFound folder :: msgs), n.
      split; [now apply copies_missing|].
      rewrite Hcopied, Hshown, Htotal, <- !app_assoc.
      split; [reflexivity|]. split; [reflexivity|lia].
Qed.

End InitialsFacts.

(** X10: when [createInitials] completes, it has gone through config,
    core and test in this order, each in the world the folders before it
    left: for a folder that is missing among the templates it has copied
    nothing and shown that the folder was not found; for a folder that is
    there it has run the batch over the template files below it and shown
    the number of files that run wrote.  The total it holds is the sum of
    these numbers, which is the number of files reported as created, and
    its last message announces the total if that is positive and that no
    template file was found if not. *)
Theorem createInitials_total {CC : ChangeCase} (World : Type)
  (nodeAt : World -> str -> option node)
  (readFileSync : World -> str -> option str)
  (writeFileExtPromise : World -> str -> str -> World * bool)
  (w : World) (uriFsPath rootFsPath : str) (st : Initials.state World) :
  Initials.createInitials nodeAt readFileSync writeFileExtPromise w
    uriFsPath rootFsPath = Initials.Completed st ->
  Initials.totalFilesCreated st
  = length (filter isCreated (Initials.copied st))
  /\ exists msgs,
       folderCopies nodeAt readFileSync writeFileExtPromise
         (replaceAll rootFsPath [ "\" ] `"/"
          ++ `"/.my_templates/flutter_tdd_clean_templates")
         (replaceAll rootFsPath [ "\" ] `"/")
         (getClickedFolder uriFsPath)
         (replaceAll (getPackageName (Some rootFsPath)) [ "\" ] `"/")
         w [ `"config"; `"core"; `"test" ]
         (Initials.fs st) (Initials.copied st) msgs
         (Initials.totalFilesCreated st)
       /\ Forall2 folderMessage [ `"config"; `"core"; `"test" ] msgs
       /\ Initials.shown st
          = msgs ++ [if Nat.ltb 0 (Initials.totalFilesCreated st)
                     then Initials.SetupCompleted (Initials.totalFilesCreated st)
                     else Initials.NoTemplateFiles].
Proof.
  unfold Initials.createInitials.
  destruct (nodeAt w _) as [base|]; [|discriminate].
  destruct (Initials.copyFolders _ _ _ _ _ _ _ _ _) as [st' [error|]] eqn:Hloop;
    [discriminate|].
  intros H. injection H as <-.
  pose proof Hloop as Hrun.
  apply copyFolders_outcome in Hloop as [Hcount [msgs [Hshown Hmsgs]]].
  apply copyFolders_run in Hrun
    as [es [msgs' [n [Hcopies [Hcopied [Hshown' Htotal]]]]]].
  cbn [Initials.fs Initials.totalFilesCreated Initials.copied Initials.shown
       app Nat.add] in *.
  assert (Hsame : msgs' = msgs) by congruence.
  split; [now apply Hcount|].
  exists msgs. split; [|split; [now apply Hmsgs | now rewrite Hshown]].
  rewrite Hcopied, Htotal, <- Hsame. exact Hcopies.
Qed.

Lemma createInitials_total_witness :
  InitialsExample.run = Initials.Completed InitialsExample.completed
  /\ Initials.totalFilesCreated InitialsExample.completed
     = length (filter isCreated (Initials.copied InitialsExample.completed))
  /\ exists msgs,
       folderCopies InitialsExample.nodeAt BatchExample.readFileSync
         BatchExample.writeFileExtPromise
         `"C:/w/proj/.my_templates/flutter_tdd_clean_templates"
         `"C:/w/proj" `"C:/w/proj/lib" `"proj"
         [] [ `"config"; `"core"; `"test" ]
         (Initials.fs InitialsExample.completed)
         (Initials.copied InitialsExample.completed) msgs 2
       /\ Forall2 folderMessage [ `"config"; `"core"; `"test" ] msgs
       /\ Initials.shown InitialsExample.completed
          = msgs ++ [Initials.SetupCompleted 2].
Proof.
  assert (H : InitialsExample.run
              = Initials.Completed InitialsExample.completed)
    by (vm_compute; reflexivity).
  split; [exact H|].
  exact (@createInitials_total CaseTransformer.changeCase
           BatchExample.World InitialsExample.nodeAt
           BatchExample.readFileSync BatchExample.writeFileExtPromise
           [] `"C:\w\proj\lib" `"C:\w\proj" InitialsExample.completed H).
Defined.

(** ** The templates of the test folder *)

Lemma childAt_In (entries : list (str * node)) (name : str) (child : node) :
  childAt (Dir entries) name = Some child -> In (name, child) entries.
Proof.
  cbn [childAt].
  destruct (find (fun e => if list_eq_dec ascii_dec (fst e) name
                           then true else false) entries)
    as [[item n]|] eqn:E; [|discriminate].
  cbn [option_map snd]. intros H. injection H as <-.
  apply find_some in E as [Hin Hname]. cbn [fst] in Hname.
  destruct (list_eq_dec ascii_dec item name) as [<-|]; [exact Hin | discriminate].
Qed.

Lemma childAt_unique (entries : list (str * node)) (name : str) (child : node) :
  NoDup (map fst entries) -> In (name, child) entries ->
  childAt (Dir entries) name = Some child.
Proof.
  cbn [childAt]. induction entries as [|[item n] rest IH]; intros Hnd Hin;
    [contradiction|].
  cbn [map fst] in Hnd. inversion Hnd as [|? ? Hnotin Hrest]; subst.
  cbn [find fst]. destruct (list_eq_dec ascii_dec item name) as [->|Hne].
  - destruct Hin as [Heq | Hin]; [now injection Heq as <-|].
    exfalso. apply Hnotin. now apply (in_map fst) in Hin.
  - destruct Hin as [Heq | Hin]; [injection Heq as -> _; congruence|].
    now apply IH.
Qed.

(** The files one allowed folder contributes. *)
Lemma allowed_folder_files (testFolder allowed : str)
  (entries : list (str * node)) (files folderFiles : list str) :
  NoDup (map fst entries) ->
  match childAt (Dir entries) allowed with
  | Some at_allowed =>
    match getAllTemplateFiles (testFolder ++ `"/" ++ allowed) (Some at_allowed) with
    | Ok folderFiles => Ok (files ++ folderFiles)
    | Throw e => Throw e
    end
  | None => Ok files
  end = Ok (files ++ folderFiles) ->
  forall p, In p folderFiles <->
            exists sub, In (allowed, Dir sub) entries
                        /\ templateUnder (testFolder ++ `"/" ++ allowed) sub p.
Proof.
  intros Hnd H p.
  destruct (childAt (Dir entries) allowed) as [[content | sub]|] eqn:Hchild.
  - discriminate.
  - cbn [getAllTemplateFiles] in H. injection H as H.
    apply app_inv_head in H as <-. split.
    + intros Hin. exists sub. split; [now apply childAt_In|].
      now apply (templateFilesIn_sound (Dir sub)).
    + intros [sub' [Hentry Hunder]].
      apply (childAt_unique _ _ _ Hnd) in Hentry.
      rewrite Hentry in Hchild. injection Hchild as ->.
      now apply templateFilesIn_complete.
  - injection H as H. rewrite <- (app_nil_r files) in H at 1.
    apply app_inv_head in H as <-. split; [contradiction|].
    intros [sub [Hentry _]].
    apply (childAt_unique _ _ _ Hnd) in Hentry. congruence.
Qed.

(** X11: of a test folder whose entries have distinct names, the filtered
    walk returns exactly the template files below its folders core and
    fixtures, at any depth; each of them is a file the full walk of the test
    folder returns, and its path goes through core or through fixtures. *)
Theorem getFilteredTestTemplateFiles_allowed (testFolder : str)
  (entries : list (str * node)) (files : list str) :
  NoDup (map fst entries) ->
  getFilteredTestTemplateFiles testFolder (Some (Dir entries)) = Ok files ->
  forall p,
    (In p files <->
     exists allowed sub,
       (allowed = `"core" \/ allowed = `"fixtures")
       /\ In (allowed, Dir sub) entries
       /\ templateUnder (testFolder ++ `"/" ++ allowed) sub p)
    /\ (In p files -> templateUnder testFolder entries p)
    /\ (In p files ->
        exists allowed stem,
          (allowed = `"core" \/ allowed = `"fixtures")
          /\ p = testFolder ++ `"/" ++ allowed ++ `"/" ++ stem ++ `".template").
Proof.
  intros Hnd H p.
  assert (Hiff : In p files <->
                 exists allowed sub,
                   (allowed = `"core" \/ allowed = `"fixtures")
                   /\ In (allowed, Dir sub) entries
                   /\ templateUnder (testFolder ++ `"/" ++ allowed) sub p).
  { unfold getFilteredTestTemplateFiles in H. cbn [fold_left] in H.
    destruct (match childAt (Dir entries) `"core" with
              | Some at_allowed =>
                match getAllTemplateFiles (testFolder ++ `"/" ++ `"core")
                        (Some at_allowed) with
                | Ok folderFiles => Ok ([] ++ folderFiles)
                | Throw e => Throw e
                end
              | None => Ok []
              end) as [coreFiles | e] eqn:Hcore; [|discriminate].
    assert (Hc : exists fixturesFiles, files = coreFiles ++ fixturesFiles).
    { destruct (childAt (Dir entries) `"fixtures") as [at_allowed|].
      - destruct (getAllTemplateFiles _ (Some at_allowed)) as [ff|];
          [|discriminate].
        injection H as <-. now exists ff.
      - injection H as <-. exists []. now rewrite app_nil_r. }
    destruct Hc as [fixturesFiles ->].
    pose proof (allowed_folder_files testFolder `"core" entries [] coreFiles
                  Hnd Hcore p) as Hcore'.
    pose proof (allowed_folder_files testFolder `"fixtures" entries coreFiles
                  fixturesFiles Hnd H p) as Hfix'.
    rewrite in_app_iff, Hcore', Hfix'. split.
    - intros [[sub Hs] | [sub Hs]].
      + exists `"core", sub. split; [now left | exact Hs].
      + exists `"fixtures", sub. split; [now right | exact Hs].
    - intros [allowed [sub [[-> | ->] Hs]]]; [left | right]; now exists sub. }
  split; [exact Hiff|]. split.
  - intros Hin. apply Hiff in Hin as [allowed [sub [_ [Hentry Hunder]]]].
    now apply template_below with (item := allowed) (sub := sub).
  - intros Hin. apply Hiff in Hin as [allowed [sub [Hallowed [_ Hunder]]]].
    apply templateUnder_path in Hunder as [stem ->].
    exists allowed, stem. split; [exact Hallowed|].
    now rewrite <- !app_assoc.
Qed.

Lemma getFilteredTestTemplateFiles_allowed_witness :
  NoDup (map fst TestFolderExample.entries)
  /\ getFilteredTestTemplateFiles `"/t/test" (Some (Dir TestFolderExample.entries))
     = Ok [ `"/t/test/core/api/api_request_handler_test.template";
            `"/t/test/fixtures/fixture_reader.template" ]
  /\ (In `"/t/test/usecase/usecase_test.template"
         [ `"/t/test/core/api/api_request_handler_test.template";
           `"/t/test/fixtures/fixture_reader.template" ] ->
      exists allowed stem,
        (allowed = `"core" \/ allowed = `"fixtures")
        /\ `"/t/test/usecase/usecase_test.template"
           = `"/t/test" ++ `"/" ++ allowed ++ `"/" ++ stem ++ `".template").
Proof.
  assert (Hnd : NoDup (map fst TestFolderExample.entries)).
  { repeat (constructor;
            [cbn; intros H; repeat destruct H as [H|H];
             try discriminate; contradiction|]).
    constructor. }
  assert (H : getFilteredTestTemplateFiles `"/t/test"
                (Some (Dir TestFolderExample.entries))
              = Ok [ `"/t/test/core/api/api_request_handler_test.template";
                     `"/t/test/fixtures/fixture_reader.template" ])
    by (vm_compute; reflexivity).
  split; [exact Hnd|]. split; [exact H|].
  exact (proj2 (proj2 (getFilteredTestTemplateFiles_allowed `"/t/test"
                         TestFolderExample.entries _ Hnd H
                         `"/t/test/usecase/usecase_test.template"))).
Defined.

(** ** The feature of a clicked folder *)

Lemma split_join (sep : ascii) (parts : list str) :
  parts <> [] -> Forall (fun part => lacks sep part = true) parts ->
  split (join [sep] parts) sep = parts.
Proof.
  induction parts as [|w parts IH]; [congruence|]. intros _ Hall.
  inversion Hall as [|? ? Hw Hparts]; subst.
  destruct parts as [|w' parts'].
  - cbn [join]. unfold split. now rewrite split_from_lacks.
  - change (join [sep] (w :: w' :: parts'))
      with (w ++ sep :: join [sep] (w' :: parts')).
    unfold split. rewrite split_from_part by assumption.
    cbn [app]. f_equal. apply IH; [discriminate | assumption].
Qed.

Lemma indexOf_at_first (x : str) (pre rest : list str) (i : nat) :
  ~ In x pre ->
  Usecase.indexOf_at i (pre ++ x :: rest) x 0 = Some (i + length pre).
Proof.
  revert i. induction pre as [|y pre IH]; intros i Hnotin.
  - cbn [app Usecase.indexOf_at length Nat.leb andb].
    destruct (list_eq_dec ascii_dec x x); [|congruence].
    f_equal. lia.
  - cbn [app Usecase.indexOf_at length Nat.leb andb].
    destruct (list_eq_dec ascii_dec y x) as [->|_].
    + exfalso. apply Hnotin. now left.
    + rewrite IH by (intros H; apply Hnotin; now right). f_equal. lia.
Qed.

Lemma indexOf_at_absent (x : str) (l : list str) (i from : nat) :
  ~ In x l -> Usecase.indexOf_at i l x from = None.
Proof.
  revert i. induction l as [|y l IH]; intros i Hnotin; [reflexivity|].
  cbn [Usecase.indexOf_at].
  destruct (list_eq_dec ascii_dec y x) as [->|_].
  - exfalso. apply Hnotin. now left.
  - rewrite andb_false_r. apply IH. intros H. apply Hnotin. now right.
Qed.

Lemma indexOf_at_sound (x : str) (l : list str) :
  forall i from k,
    Usecase.indexOf_at i l x from = Some k ->
    from <= k /\ i <= k /\ nth_error l (k - i) = Some x.
Proof.
  induction l as [|y l IH]; intros i from k H; [discriminate|].
  cbn [Usecase.indexOf_at] in H.
  destruct (Nat.leb from i && (if list_eq_dec ascii_dec y x then true else false))
    eqn:E.
  - injection H as <-. apply andb_true_iff in E as [Hle Heq].
    apply Nat.leb_le in Hle.
    destruct (list_eq_dec ascii_dec y x) as [->|]; [|discriminate].
    rewrite Nat.sub_diag. split; [lia|]. split; [lia | reflexivity].
  - apply IH in H as [Hfrom [Hi Hnth]].
    split; [lia|]. split; [lia|].
    replace (k - i) with (S (k - S i)) by lia. exact Hnth.
Qed.

Lemma indexOf_at_from (x : str) (l : list str) :
  forall i from j,
    nth_error l j = Some x -> from <= i + j ->
    exists k, Usecase.indexOf_at i l x from = Some k /\ from <= k.
Proof.
  induction l as [|y l IH]; intros i from j Hnth Hle.
  - destruct j; discriminate.
  - cbn [Usecase.indexOf_at].
    destruct (Nat.leb from i && (if list_eq_dec ascii_dec y x then true else false))
      eqn:E.
    + exists i. split; [reflexivity|].
      apply andb_true_iff in E as [E _]. now apply Nat.leb_le in E.
    + destruct j as [|j].
      * cbn [nth_error] in Hnth. injection Hnth as ->.
        destruct (list_eq_dec ascii_dec x x); [|congruence].
        rewrite andb_true_r in E. apply Nat.leb_gt in E. lia.
      * apply (IH (S i) from j); [exact Hnth | lia].
Qed.

(** X12: the reworked command takes as feature the part of the clicked
    folder's path that follows the first part src, whatever else the path
    holds. *)
Theorem getFeatureNameFromPath_after_src (pre rest : list str) (feature : str) :
  Forall (fun part => lacks "/" part = true)
         (pre ++ `"src" :: feature :: rest) ->
  ~ In `"src" pre ->
  ReworkedUsecase.getFeatureNameFromPath
    (join `"/" (pre ++ `"src" :: feature :: rest))
  = feature.
Proof.
  intros Hparts Hpre. unfold ReworkedUsecase.getFeatureNameFromPath.
  change `"/" with [ "/" ].
  rewrite split_join by (assumption || now destruct pre).
  unfold Usecase.indexOf. rewrite indexOf_at_first by exact Hpre.
  cbn [Nat.add].
  replace (Nat.ltb (length pre + 1) (length (pre ++ `"src" :: feature :: rest)))
    with true
    by (symmetry; apply Nat.ltb_lt; rewrite length_app; cbn [length]; lia).
  rewrite app_nth2 by lia.
  replace (length pre + 1 - length pre) with 1 by lia. reflexivity.
Qed.

Lemma getFeatureNameFromPath_after_src_witness :
  Forall (fun part => lacks "/" part = true)
         ([ `"C:"; `"w"; `"proj"; `"lib" ] ++ `"src" :: `"auth" :: [ `"domain" ])
  /\ ~ In `"src" [ `"C:"; `"w"; `"proj"; `"lib" ]
  /\ ReworkedUsecase.getFeatureNameFromPath
       (join `"/" ([ `"C:"; `"w"; `"proj"; `"lib" ]
                   ++ `"src" :: `"auth" :: [ `"domain" ]))
     = `"auth".
Proof.
  assert (Hparts : Forall (fun part => lacks "/" part = true)
                          ([ `"C:"; `"w"; `"proj"; `"lib" ]
                           ++ `"src" :: `"auth" :: [ `"domain" ]))
    by (repeat constructor).
  assert (Hpre : ~ In `"src" [ `"C:"; `"w"; `"proj"; `"lib" ])
    by (cbn; intros H; repeat destruct H as [H|H]; try discriminate; contradiction).
  split; [exact Hparts|]. split; [exact Hpre|].
  exact (getFeatureNameFromPath_after_src _ _ _ Hparts Hpre).
Defined.

(** X13: for a clicked folder without a part src, the reworked command
    takes as feature the part before the first part domain, when that is
    not the first part of the path. *)
Theorem getFeatureNameFromPath_before_domain (pre rest : list str)
  (feature : str) :
  Forall (fun part => lacks "/" part = true)
         (pre ++ feature :: `"domain" :: rest) ->
  ~ In `"src" (pre ++ feature :: `"domain" :: rest) ->
  ~ In `"domain" (pre ++ [feature]) ->
  ReworkedUsecase.getFeatureNameFromPath
    (join `"/" (pre ++ feature :: `"domain" :: rest))
  = feature.
Proof.
  intros Hparts Hsrc Hdomain. unfold ReworkedUsecase.getFeatureNameFromPath.
  change `"/" with [ "/" ].
  rewrite split_join by (assumption || now destruct pre).
  unfold Usecase.indexOf. rewrite indexOf_at_absent by exact Hsrc.
  replace (pre ++ feature :: `"domain" :: rest)
    with ((pre ++ [feature]) ++ `"domain" :: rest)
    by (now rewrite <- app_assoc).
  rewrite indexOf_at_first by exact Hdomain.
  rewrite length_app. cbn [length Nat.add].
  replace (length pre + 1) with (S (length pre)) by lia.
  rewrite <- app_assoc. cbn [app].
  rewrite app_nth2 by lia. now rewrite Nat.sub_diag.
Qed.

Lemma getFeatureNameFromPath_before_domain_witness :
  Forall (fun part => lacks "/" part = true)
         ([ `"C:"; `"w"; `"proj"; `"lib"; `"features" ]
          ++ `"auth" :: `"domain" :: [ `"usecases" ])
  /\ ReworkedUsecase.getFeatureNameFromPath
       (join `"/" ([ `"C:"; `"w"; `"proj"; `"lib"; `"features" ]
                   ++ `"auth" :: `"domain" :: [ `"usecases" ]))
     = `"auth".
Proof.
  assert (Hparts : Forall (fun part => lacks "/" part = true)
                          ([ `"C:"; `"w"; `"proj"; `"lib"; `"features" ]
                           ++ `"auth" :: `"domain" :: [ `"usecases" ]))
    by (repeat constructor).
  split; [exact Hparts|].
  apply (getFeatureNameFromPath_before_domain _ _ _ Hparts);
    cbn; intros H; repeat destruct H as [H|H]; try discriminate; contradiction.
Defined.

(** X14: the feature the reworked command takes is a part of the clicked
    folder's path, or the empty text; it never holds a slash. *)
Theorem getFeatureNameFromPath_is_part (clickedFolder : str) :
  (In (ReworkedUsecase.getFeatureNameFromPath clickedFolder)
      (split clickedFolder "/")
   \/ ReworkedUsecase.getFeatureNameFromPath clickedFolder = [])
  /\ lacks "/" (ReworkedUsecase.getFeatureNameFromPath clickedFolder) = true.
Proof.
  assert (Hnth : forall n,
             In (nth n (split clickedFolder "/") []) (split clickedFolder "/")
             \/ nth n (split clickedFolder "/") [] = []).
  { intros n. destruct (nth_in_or_default n (split clickedFolder "/") []);
      [now left | now right]. }
  assert (H : In (ReworkedUsecase.getFeatureNameFromPath clickedFolder)
                 (split clickedFolder "/")
              \/ ReworkedUsecase.getFeatureNameFromPath clickedFolder = []).
  { unfold ReworkedUsecase.getFeatureNameFromPath.
    repeat match goal with
           | |- context [match ?x with _ => _ end] => destruct x
           end; try apply Hnth; now right. }
  split; [exact H|]. destruct H as [Hin | ->]; [|reflexivity].
  pose proof (split_from_parts_lack "/" clickedFolder [] eq_refl) as Hall.
  rewrite Forall_forall in Hall. now apply Hall.
Qed.

(** ** The feature of the use case command *)

(** X15: for a template whose first part that holds feature_name stands at
    the fourth place of its path or later, the use case command takes as
    feature the part of the clicked folder's path before the first part
    domain. *)
Theorem getFeatureName_before_domain {CC : ChangeCase}
  (clickedFolder template rootFsPath : str)
  (tpre trest pre rest : list str) (tpart feature : str) :
  split (replaceName template `"{{root_folder}}" rootFsPath) "/"
  = tpre ++ tpart :: trest ->
  Forall (fun part => Usecase.isFeature part = false) tpre ->
  Usecase.isFeature tpart = true ->
  3 <= length tpre ->
  clickedFolder = join `"/" (pre ++ feature :: `"domain" :: rest) ->
  Forall (fun part => lacks "/" part = true)
         (pre ++ feature :: `"domain" :: rest) ->
  ~ In `"domain" (pre ++ [feature]) ->
  Usecase.getFeatureName clickedFolder template rootFsPath = Some feature.
Proof.
  intros Htemplate Htpre Htpart Hthree -> Hparts Hdomain.
  unfold Usecase.getFeatureName. rewrite Htemplate.
  assert (Hfind : find Usecase.isFeature (tpre ++ tpart :: trest) = Some tpart).
  { clear Htemplate Hthree. induction tpre as [|y tpre IH].
    - cbn [app find]. now rewrite Htpart.
    - inversion Htpre as [|? ? Hy Hrest]; subst.
      cbn [app find]. rewrite Hy. now apply IH. }
  rewrite Hfind.
  destruct (indexOf_at_from tpart (tpre ++ tpart :: trest) 0 3 (length tpre))
    as [k [Hk Hle]].
  { rewrite nth_error_app2 by lia. now rewrite Nat.sub_diag. }
  { lia. }
  unfold Usecase.indexOf at 1. rewrite Hk.
  destruct k as [|k]; [lia|].
  change `"/" with [ "/" ].
  rewrite split_join by (assumption || now destruct pre).
  replace (pre ++ feature :: `"domain" :: rest)
    with ((pre ++ [feature]) ++ `"domain" :: rest)
    by (now rewrite <- app_assoc).
  unfold Usecase.indexOf. rewrite indexOf_at_first by exact Hdomain.
  rewrite length_app. cbn [length Nat.add].
  replace (length pre + 1) with (S (length pre)) by lia.
  rewrite <- app_assoc. cbn [app].
  rewrite nth_error_app2 by lia. now rewrite Nat.sub_diag.
Qed.

Lemma getFeatureName_before_domain_witness :
  split (replaceName UsecaseExample.template `"{{root_folder}}"
           UsecaseExample.rootFsPath) "/"
  = [ `"C:\w\proj"; `"lib"; `"src" ]
    ++ `"{{feature_name}}"
       :: [ `"domain"; `"usecases"; `"{{usecase_name.snakeCase}}_usecase.template" ]
  /\ Usecase.getFeatureName
       (join `"/" ([ `"C:"; `"w"; `"proj"; `"lib"; `"src" ]
                   ++ `"auth" :: `"domain" :: []))
       UsecaseExample.template UsecaseExample.rootFsPath
     = Some `"auth".
Proof.
  assert (Htemplate :
            split (replaceName UsecaseExample.template `"{{root_folder}}"
                     UsecaseExample.rootFsPath) "/"
            = [ `"C:\w\proj"; `"lib"; `"src" ]
              ++ `"{{feature_name}}"
                 :: [ `"domain"; `"usecases";
                      `"{{usecase_name.snakeCase}}_usecase.template" ])
    by (vm_compute; reflexivity).
  split; [exact Htemplate|].
  apply (@getFeatureName_before_domain CaseTransformer.changeCase
           (join `"/" ([ `"C:"; `"w"; `"proj"; `"lib"; `"src" ]
                       ++ `"auth" :: `"domain" :: []))
           UsecaseExample.template UsecaseExample.rootFsPath
           [ `"C:\w\proj"; `"lib"; `"src" ]
           [ `"domain"; `"usecases"; `"{{usecase_name.snakeCase}}_usecase.template" ]
           [ `"C:"; `"w"; `"proj"; `"lib"; `"src" ] []
           `"{{feature_name}}" `"auth" Htemplate).
  - repeat constructor.
  - vm_compute. reflexivity.
  - cbn. lia.
  - reflexivity.
  - repeat constructor.
  - cbn. intros H. repeat destruct H as [H|H]; try discriminate; contradiction.
Defined.

(** X16: for a template none of whose parts from the fourth on holds
    feature_name, the use case command takes the empty text as feature,
    whatever the clicked folder is, and so passes the template over. *)
Theorem getFeatureName_without_feature_part {CC : ChangeCase}
  (clickedFolder template rootFsPath : str) :
  (forall j part,
     3 <= j ->
     nth_error (split (replaceName template `"{{root_folder}}" rootFsPath) "/") j
     = Some part ->
     Usecase.isFeature part = false) ->
  Usecase.getFeatureName clickedFolder template rootFsPath = Some [].
Proof.
  intros Hnone. unfold Usecase.getFeatureName.
  destruct (find Usecase.isFeature _) as [tpart|] eqn:Hfind; [|reflexivity].
  apply find_some in Hfind as [_ Htpart].
  destruct (Usecase.indexOf _ tpart 3) as [k|] eqn:Hk; [|reflexivity].
  apply indexOf_at_sound in Hk as [Hthree [_ Hnth]].
  rewrite Nat.sub_0_r in Hnth.
  rewrite (Hnone k tpart Hthree Hnth) in Htpart. discriminate.
Qed.

Lemma getFeatureName_without_feature_part_witness :
  split (replaceName `"foo/{{usecase_name.snakeCase}}_usecase.template"
           `"{{root_folder}}" UsecaseExample.rootFsPath) "/"
  = [ `"foo"; `"{{usecase_name.snakeCase}}_usecase.template" ]
  /\ Usecase.getFeatureName UsecaseExample.uriFsPath
       `"foo/{{usecase_name.snakeCase}}_usecase.template"
       UsecaseExample.rootFsPath
     = Some [].
Proof.
  assert (Hparts :
            split (replaceName `"foo/{{usecase_name.snakeCase}}_usecase.template"
                     `"{{root_folder}}" UsecaseExample.rootFsPath) "/"
            = [ `"foo"; `"{{usecase_name.snakeCase}}_usecase.template" ])
    by (vm_compute; reflexivity).
  split; [exact Hparts|].
  apply (@getFeatureName_without_feature_part CaseTransformer.changeCase).
  intros j part Hj. rewrite Hparts.
  destruct j as [|[|[|j]]]; try lia. discriminate.
Defined.

(** ** The two loops of the use case command *)

Lemma mapSet_keys_in (m : list (str * str)) (key value x : str) :
  In x (map fst (Usecase.mapSet m key value)) ->
  x = key \/ In x (map fst m).
Proof.
  induction m as [|[k v] m IH]; cbn [Usecase.mapSet map fst In].
  - intros [<- | []]. now left.
  - destruct (list_eq_dec ascii_dec k key) as [->|_]; cbn [map fst In].
    + intros [<- | H]; [now left | right; now right].
    + intros [<- | H]; [right; now left|].
      destruct (IH H) as [-> | H']; [now left | right; now right].
Qed.

Lemma mapSet_keys_NoDup (m : list (str * str)) (key value : str) :
  NoDup (map fst m) -> NoDup (map fst (Usecase.mapSet m key value)).
Proof.
  induction m as [|[k v] m IH]; cbn [Usecase.mapSet map fst]; intros Hnd.
  - repeat constructor. intros [].
  - inversion Hnd as [|? ? Hnotin Hrest]; subst.
    destruct (list_eq_dec ascii_dec k key) as [->|Hne]; cbn [map fst].
    + now constructor.
    + constructor; [|now apply IH].
      intros H. apply mapSet_keys_in in H as [-> | H]; [congruence | contradiction].
Qed.

Lemma mapSet_values (Q : str -> Prop) (m : list (str * str)) (key value : str) :
  Forall (fun entry => Q (snd entry)) m -> Q value ->
  Forall (fun entry => Q (snd entry)) (Usecase.mapSet m key value).
Proof.
  intros Hm Hvalue. induction m as [|[k v] m IH]; cbn [Usecase.mapSet].
  - now repeat constructor.
  - inversion Hm as [|? ? Hv Hrest]; subst.
    destruct (list_eq_dec ascii_dec k key); constructor; auto.
Qed.

Lemma mapSet_entries (Q : str * str -> Prop) (m : list (str * str))
  (key value : str) :
  Forall Q m -> Q (key, value) -> Forall Q (Usecase.mapSet m key value).
Proof.
  intros Hm Hnew. induction m as [|[k v] m IH]; cbn [Usecase.mapSet].
  - now repeat constructor.
  - inversion Hm as [|? ? Hkv Hrest]; subst.
    destruct (list_eq_dec ascii_dec k key) as [->|_]; constructor; auto.
Qed.

Section UsecaseLoops.

Context {CC : ChangeCase}.
Variable readFileSync : str -> option str.
Variables clickedFolder usecaseName packageName rootFolder rootFsPath : str.

Local Abbreviation collect :=
  (Usecase.collectTemplate readFileSync clickedFolder usecaseName packageName
                           rootFolder rootFsPath).

(** Whatever the template, the feature is the empty text or one and the
    same reading of the clicked folder. *)
Lemma getFeatureName_cases :
  exists d, forall template,
      Usecase.getFeatureName clickedFolder template rootFsPath = Some []
      \/ Usecase.getFeatureName clickedFolder template rootFsPath = d.
Proof.
  exists (match Usecase.indexOf (split clickedFolder "/") `"domain" 0 with
          | Some (S i) => nth_error (split clickedFolder "/") i
          | _ => None
          end).
  intros template. unfold Usecase.getFeatureName.
  destruct (find Usecase.isFeature _) as [tpart|]; [|now left].
  destruct (Usecase.indexOf _ tpart 3) as [[|k]|]; auto.
Qed.

Lemma collect_featureName (st : Usecase.loopState) (element : str) :
  Usecase.featureName (collect st element)
  = Usecase.getFeatureName clickedFolder element rootFsPath.
Proof.
  unfold Usecase.collectTemplate.
  destruct (Usecase.getFeatureName clickedFolder element rootFsPath)
    as [[|c f]|]; try reflexivity.
  destruct (readFileSync _) as [[|d content]|]; reflexivity.
Qed.

Lemma collect_templatesMap (st : Usecase.loopState) (element : str) :
  Usecase.templatesMap (collect st element) = Usecase.templatesMap st
  \/ exists c f d content,
       Usecase.getFeatureName clickedFolder element rootFsPath = Some (c :: f)
       /\ readFileSync (rootFolder ++ `"/.my_templates/"
                          ++ Usecase.templateFileNameOf element)
          = Some (d :: content)
       /\ Usecase.templatesMap (collect st element)
          = Usecase.mapSet (Usecase.templatesMap st)
              (Usecase.pathFileName element (c :: f) clickedFolder usecaseName
                                    packageName rootFolder)
              (d :: content).
Proof.
  unfold Usecase.collectTemplate.
  destruct (Usecase.getFeatureName clickedFolder element rootFsPath)
    as [[|c f]|]; try (now left).
  destruct (readFileSync _) as [[|d content]|] eqn:Hread; try (now left).
  right. now exists c, f, d, content.
Qed.

(** With files to write, the feature is defined. *)
Lemma collect_defined (templates : list str) :
  forall st,
    (Usecase.templatesMap st = []
     \/ Usecase.featureName st <> None
        /\ exists c f template,
             Usecase.getFeatureName clickedFolder template rootFsPath
             = Some (c :: f)) ->
    Usecase.templatesMap (fold_left collect templates st) = []
    \/ Usecase.featureName (fold_left collect templates st) <> None.
Proof.
  destruct getFeatureName_cases as [d Hd].
  induction templates as [|element templates IH]; intros st Hst.
  - cbn [fold_left]. destruct Hst as [H | [H _]]; [now left | now right].
  - cbn [fold_left]. apply IH.
    destruct (collect_templatesMap st element)
      as [Hsame | [c [f [d' [content [Hfn _]]]]]].
    + rewrite Hsame. destruct Hst as [H | [_ [c [f [template Hfn]]]]];
        [now left|].
      right. split; [|now exists c, f, template].
      rewrite collect_featureName.
      destruct (Hd element) as [-> | ->]; [discriminate|].
      destruct (Hd template) as [H | <-]; [congruence|].
      rewrite Hfn. discriminate.
    + right. split; [|now exists c, f, element].
      rewrite collect_featureName, Hfn. discriminate.
Qed.

Lemma collect_keys_NoDup (templates : list str) :
  forall st, NoDup (map fst (Usecase.templatesMap st)) ->
             NoDup (map fst (Usecase.templatesMap (fold_left collect templates st))).
Proof.
  induction templates as [|element templates IH]; intros st Hst; [exact Hst|].
  cbn [fold_left]. apply IH.
  destruct (collect_templatesMap st element)
    as [-> | [c [f [d [content [_ [_ ->]]]]]]]; [exact Hst|].
  now apply mapSet_keys_NoDup.
Qed.

Lemma collect_values (all templates : list str) :
  incl templates all ->
  forall st,
    Forall (fun entry =>
              exists element,
                In element all
                /\ readFileSync (rootFolder ++ `"/.my_templates/"
                                   ++ Usecase.templateFileNameOf element)
                   = Some (snd entry))
           (Usecase.templatesMap st) ->
    Forall (fun entry =>
              exists element,
                In element all
                /\ readFileSync (rootFolder ++ `"/.my_templates/"
                                   ++ Usecase.templateFileNameOf element)
                   = Some (snd entry))
           (Usecase.templatesMap (fold_left collect templates st)).
Proof.
  induction templates as [|element templates IH]; intros Hincl st Hst;
    [exact Hst|].
  cbn [fold_left]. apply IH; [intros x Hx; apply Hincl; now right|].
  destruct (collect_templatesMap st element)
    as [-> | [c [f [d [content [_ [Hread ->]]]]]]]; [exact Hst|].
  apply (mapSet_values
           (fun content' =>
              exists element,
                In element all
                /\ readFileSync (rootFolder ++ `"/.my_templates/"
                                   ++ Usecase.templateFileNameOf element)
                   = Some content')); [exact Hst|].
  exists element. split; [apply Hincl; now left | exact Hread].
Qed.

(** Every entry of the map comes from one template: a template from which
    a feature that is not empty is derived and whose file is read with a
    content that is not empty; the key is the rewritten path of that
    template and the value the content read for it. *)
Lemma collect_origin (all templates : list str) :
  incl templates all ->
  forall st,
    Forall (fun entry =>
              exists element c f,
                In element all
                /\ Usecase.getFeatureName clickedFolder element rootFsPath
                   = Some (c :: f)
                /\ fst entry
                   = Usecase.pathFileName element (c :: f) clickedFolder
                       usecaseName packageName rootFolder
                /\ readFileSync (rootFolder ++ `"/.my_templates/"
                                   ++ Usecase.templateFileNameOf element)
                   = Some (snd entry)
                /\ snd entry <> [])
           (Usecase.templatesMap st) ->
    Forall (fun entry =>
              exists element c f,
                In element all
                /\ Usecase.getFeatureName clickedFolder element rootFsPath
                   = Some (c :: f)
                /\ fst entry
                   = Usecase.pathFileName element (c :: f) clickedFolder
                       usecaseName packageName rootFolder
                /\ readFileSync (rootFolder ++ `"/.my_templates/"
                                   ++ Usecase.templateFileNameOf element)
                   = Some (snd entry)
                /\ snd entry <> [])
           (Usecase.templatesMap (fold_left collect templates st)).
Proof.
  induction templates as [|element templates IH]; intros Hincl st Hst;
    [exact Hst|].
  cbn [fold_left]. apply IH; [intros x Hx; apply Hincl; now right|].
  destruct (collect_templatesMap st element)
    as [-> | [c [f [d [content [Hfn [Hread ->]]]]]]]; [exact Hst|].
  apply mapSet_entries; [exact Hst|].
  exists element, c, f. cbn [fst snd].
  split; [apply Hincl; now left|]. split; [exact Hfn|].
  split; [reflexivity|]. split; [exact Hread | discriminate].
Qed.

(** After the first loop the feature is undefined, the empty text, or the
    reading of the clicked folder. *)
Lemma collect_feature_cases (d : option str) :
  (forall template,
      Usecase.getFeatureName clickedFolder template rootFsPath = Some []
      \/ Usecase.getFeatureName clickedFolder template rootFsPath = d) ->
  forall (templates : list str) (st : Usecase.loopState),
    (Usecase.featureName st = None
     \/ Usecase.featureName st = Some []
     \/ Usecase.featureName st = d) ->
    Usecase.featureName (fold_left collect templates st) = None
    \/ Usecase.featureName (fold_left collect templates st) = Some []
    \/ Usecase.featureName (fold_left collect templates st) = d.
Proof.
  intros Hd. induction templates as [|element templates IH]; intros st Hst;
    [exact Hst|].
  cbn [fold_left]. apply IH. rewrite collect_featureName.
  destruct (Hd element) as [-> | ->]; auto.
Qed.

End UsecaseLoops.

Lemma writesOf_paths {CC : ChangeCase} (st : Usecase.loopState)
  (clickedFolder usecaseName packageName rootFolder : str)
  (files : list (str * str)) :
  Usecase.writesOf st clickedFolder usecaseName packageName rootFolder
  = Ok files ->
  map fst files = map fst (Usecase.templatesMap st).
Proof.
  unfold Usecase.writesOf.
  destruct (Usecase.templatesMap st) as [|entry m] eqn:Hm;
    [intros H; now injection H as <-|].
  destruct (Usecase.featureName st) as [feature|]; [|discriminate].
  intros H. injection H as <-. cbn [map fst]. f_equal. now rewrite map_map.
Qed.

(** X17: the use case command never throws in its second loop: when there
    is a file to write, the feature that the first loop left behind is
    defined, whatever the configured templates and the clicked folder
    are. *)
Theorem createUsecase_returns {CC : ChangeCase}
  (readFileSync : str -> option str)
  (uriFsPath rootFsPath usecaseName : str) (filePathConfigList : list str) :
  exists files,
    Usecase.createUsecase readFileSync uriFsPath rootFsPath usecaseName
      filePathConfigList = Ok files.
Proof.
  unfold Usecase.createUsecase.
  destruct usecaseName as [|c name]; [now exists []|].
  set (st := fold_left _ _ _).
  assert (Hst : Usecase.templatesMap st = [] \/ Usecase.featureName st <> None).
  { apply collect_defined. now left. }
  unfold Usecase.writesOf.
  destruct (Usecase.templatesMap st) as [|entry m] eqn:Hm; [now exists []|].
  destruct Hst as [H | H]; [discriminate|].
  destruct (Usecase.featureName st) as [feature|]; [|congruence].
  eexists. reflexivity.
Qed.

(** X18: the files the use case command hands over to be written have
    pairwise distinct paths: of two templates with the same rewritten path,
    the content of the later one is written at the place of the first. *)
Theorem createUsecase_paths_distinct {CC : ChangeCase}
  (readFileSync : str -> option str)
  (uriFsPath rootFsPath usecaseName : str) (filePathConfigList : list str)
  (files : list (str * str)) :
  Usecase.createUsecase readFileSync uriFsPath rootFsPath usecaseName
    filePathConfigList = Ok files ->
  NoDup (map fst files).
Proof.
  unfold Usecase.createUsecase.
  destruct usecaseName as [|c name]; [intros H; injection H as <-; constructor|].
  set (st := fold_left _ _ _).
  assert (Hst : NoDup (map fst (Usecase.templatesMap st)))
    by (apply collect_keys_NoDup; constructor).
  intros H. apply writesOf_paths in H. now rewrite H.
Qed.

Lemma createUsecase_paths_distinct_witness :
  Usecase.createUsecase UsecaseExample.readFileSync UsecaseExample.uriFsPath
    UsecaseExample.rootFsPath `"LoginUser"
    [UsecaseExample.template; UsecaseExample.template]
  = Ok [(UsecaseExample.destination, `"class LoginUserUsecase {} // auth")]
  /\ NoDup (map fst [(UsecaseExample.destination,
                      `"class LoginUserUsecase {} // auth")]).
Proof.
  assert (H : Usecase.createUsecase UsecaseExample.readFileSync
                UsecaseExample.uriFsPath UsecaseExample.rootFsPath `"LoginUser"
                [UsecaseExample.template; UsecaseExample.template]
              = Ok [(UsecaseExample.destination,
                     `"class LoginUserUsecase {} // auth")])
    by (vm_compute; reflexivity).
  split; [exact H|].
  exact (@createUsecase_paths_distinct CaseTransformer.changeCase _ _ _ _ _ _ H).
Defined.

(** X19: every content the use case command hands over to be written is the
    content read for one of the configured templates, rewritten with the
    feature of the last template of the list: for a last template without a
    part that holds feature_name that is the empty text, also in the files
    of the templates before it. *)
Theorem createUsecase_feature_of_last_template {CC : ChangeCase}
  (readFileSync : str -> option str)
  (uriFsPath rootFsPath usecaseName : str) (filePathConfigList : list str)
  (templates : list str) (lastTemplate feature : str)
  (files : list (str * str)) :
  Usecase.getTemplatesFileList filePathConfigList = templates ++ [lastTemplate] ->
  Usecase.getFeatureName (getClickedFolder uriFsPath) lastTemplate rootFsPath
  = Some feature ->
  Usecase.createUsecase readFileSync uriFsPath rootFsPath usecaseName
    filePathConfigList = Ok files ->
  Forall (fun file =>
            exists element content,
              In element (templates ++ [lastTemplate])
              /\ readFileSync (replaceAll rootFsPath [ "\" ] `"/"
                                 ++ `"/.my_templates/"
                                 ++ Usecase.templateFileNameOf element)
                 = Some content
              /\ snd file
                 = Usecase.replaceChain content
                     (Usecase.bindings feature (getClickedFolder uriFsPath)
                        usecaseName
                        (replaceAll (getPackageName (Some rootFsPath)) [ "\" ] `"/")
                        (replaceAll rootFsPath [ "\" ] `"/")))
         files.
Proof.
  intros Hlist Hlast. unfold Usecase.createUsecase.
  destruct usecaseName as [|c name]; [intros H; injection H as <-; constructor|].
  rewrite Hlist.
  fold (getClickedFolder uriFsPath).
  change (last (split rootFsPath "\") []) with (getPackageName (Some rootFsPath)).
  set (st := fold_left _ _ _).
  assert (Hfeature : Usecase.featureName st = Some feature).
  { subst st. rewrite fold_left_app. cbn [fold_left].
    now rewrite collect_featureName. }
  assert (Hvalues :
            Forall (fun entry =>
                      exists element,
                        In element (templates ++ [lastTemplate])
                        /\ readFileSync (replaceAll rootFsPath [ "\" ] `"/"
                                           ++ `"/.my_templates/"
                                           ++ Usecase.templateFileNameOf element)
                           = Some (snd entry))
                   (Usecase.templatesMap st)).
  { subst st. apply collect_values; [apply incl_refl | constructor]. }
  unfold Usecase.writesOf. rewrite Hfeature. revert Hvalues.
  destruct (Usecase.templatesMap st) as [|entry m];
    [intros _ H; injection H as <-; constructor|].
  intros Hvalues H. injection H as <-.
  change (Forall ?P (?x :: map ?f m)) with (Forall P (map f (entry :: m))).
  apply Forall_map. revert Hvalues. apply Forall_impl.
  intros entry' [element [Hin Hread]]. cbn [snd].
  now exists element, (snd entry').
Qed.

Lemma createUsecase_feature_of_last_template_witness :
  Usecase.getTemplatesFileList
    [UsecaseExample.template; `"docs/usecase.md"; `"notes/readme.template"]
  = [UsecaseExample.template] ++ [ `"notes/readme.template" ]
  /\ Usecase.getFeatureName (getClickedFolder UsecaseExample.uriFsPath)
       `"notes/readme.template" UsecaseExample.rootFsPath
     = Some []
  /\ Usecase.createUsecase UsecaseExample.readFileSync UsecaseExample.uriFsPath
       UsecaseExample.rootFsPath `"LoginUser"
       [UsecaseExample.template; `"docs/usecase.md"; `"notes/readme.template"]
     = Ok [(UsecaseExample.destination, `"class LoginUserUsecase {} // ")]
  /\ Forall (fun file =>
               exists element content,
                 In element ([UsecaseExample.template] ++ [ `"notes/readme.template" ])
                 /\ UsecaseExample.readFileSync
                      (replaceAll UsecaseExample.rootFsPath [ "\" ] `"/"
                         ++ `"/.my_templates/"
                         ++ Usecase.templateFileNameOf element)
                    = Some content
                 /\ snd file
                    = Usecase.replaceChain content
                        (Usecase.bindings [] (getClickedFolder UsecaseExample.uriFsPath)
                           `"LoginUser"
                           (replaceAll (getPackageName (Some UsecaseExample.rootFsPath))
                                       [ "\" ] `"/")
                           (replaceAll UsecaseExample.rootFsPath [ "\" ] `"/")))
            [(UsecaseExample.destination, `"class LoginUserUsecase {} // ")].
Proof.
  assert (Hlist : Usecase.getTemplatesFileList
                    [UsecaseExample.template; `"docs/usecase.md";
                     `"notes/readme.template"]
                  = [UsecaseExample.template] ++ [ `"notes/readme.template" ])
    by (vm_compute; reflexivity).
  assert (Hlast : Usecase.getFeatureName
                    (getClickedFolder UsecaseExample.uriFsPath)
                    `"notes/readme.template" UsecaseExample.rootFsPath
                  = Some []) by (vm_compute; reflexivity).
  assert (H : Usecase.createUsecase UsecaseExample.readFileSync
                UsecaseExample.uriFsPath UsecaseExample.rootFsPath `"LoginUser"
                [UsecaseExample.template; `"docs/usecase.md";
                 `"notes/readme.template"]
              = Ok [(UsecaseExample.destination,
                     `"class LoginUserUsecase {} // ")])
    by (vm_compute; reflexivity).
  split; [exact Hlist|]. split; [exact Hlast|]. split; [exact H|].
  exact (@createUsecase_feature_of_last_template CaseTransformer.changeCase
           _ _ _ _ _ _ _ _ _ Hlist Hlast H).
Defined.

(** ** The use case command and the feature of a template *)

(** C3, amended: the chain of replacements of the command maps the path
    foo/{{usecase_name.snakeCase}}_usecase.template, for the use case name
    LoginUser and whatever the other four values are, to
    foo/login_user_usecase.dart; of the change-case package only this is
    used: snakeCase turns LoginUser into login_user.  But the command
    writes a file only for a configured template path from which
    [getFeatureName] derives a feature that is not empty and whose
    template file, under .my_templates of the root folder, is read with a
    content that is not empty: every file it hands to the writer has the
    rewritten path of such a template, and its content is the content read
    for that template after the chain of replacements, with the feature
    of that template or with the empty text as the feature.  So for the
    path above, from which no feature is derived, it writes no file.  For
    a single configured path that ends in .template, a use case name that
    is not empty, a feature derived from the path that is not empty and a
    template file read with a content that is not empty, it writes exactly
    one file: at the path rewritten by the chain, with .template replaced
    by .dart, and with the content read after the same chain. *)
Theorem C3_usecase_path_and_feature_guard {CC : ChangeCase} :
  snakeCase `"LoginUser" = `"login_user" ->
  (forall featureName clickedFolder packageName rootFolder : str,
     Usecase.pathFileName `"foo/{{usecase_name.snakeCase}}_usecase.template"
       featureName clickedFolder `"LoginUser" packageName rootFolder
     = `"foo/login_user_usecase.dart")
  /\ (forall (readFileSync : str -> option str) (uriFsPath rootFsPath : str),
        Usecase.createUsecase readFileSync uriFsPath rootFsPath `"LoginUser"
          [ `"foo/{{usecase_name.snakeCase}}_usecase.template" ]
        = Ok [])
  /\ (forall (readFileSync : str -> option str)
             (uriFsPath rootFsPath usecaseName : str)
             (filePathConfigList : list str) (files : list (str * str))
             (path content : str),
        Usecase.createUsecase readFileSync uriFsPath rootFsPath usecaseName
          filePathConfigList = Ok files ->
        In (path, content) files ->
        exists element feature templateContent lastFeature,
          In element filePathConfigList
          /\ endsWith element `".template" = true
          /\ Usecase.getFeatureName (getClickedFolder uriFsPath) element
               rootFsPath = Some feature
          /\ feature <> []
          /\ readFileSync (replaceAll rootFsPath [ "\" ] `"/"
                             ++ `"/.my_templates/"
                             ++ Usecase.templateFileNameOf element)
             = Some templateContent
          /\ templateContent <> []
          /\ path
             = Usecase.pathFileName element feature
                 (getClickedFolder uriFsPath) usecaseName
                 (replaceAll (getPackageName (Some rootFsPath)) [ "\" ] `"/")
                 (replaceAll rootFsPath [ "\" ] `"/")
          /\ content
             = Usecase.replaceChain templateContent
                 (Usecase.bindings lastFeature (getClickedFolder uriFsPath)
                    usecaseName
                    (replaceAll (getPackageName (Some rootFsPath)) [ "\" ] `"/")
                    (replaceAll rootFsPath [ "\" ] `"/"))
          /\ (lastFeature = feature \/ lastFeature = []))
  /\ (forall (readFileSync : str -> option str)
             (uriFsPath rootFsPath usecaseName element feature
              templateContent : str),
        usecaseName <> [] ->
        endsWith element `".template" = true ->
        Usecase.getFeatureName (getClickedFolder uriFsPath) element rootFsPath
        = Some feature ->
        feature <> [] ->
        readFileSync (replaceAll rootFsPath [ "\" ] `"/"
                        ++ `"/.my_templates/"
                        ++ Usecase.templateFileNameOf element)
        = Some templateContent ->
        templateContent <> [] ->
        Usecase.createUsecase readFileSync uriFsPath rootFsPath usecaseName
          [element]
        = Ok [(Usecase.pathFileName element feature
                 (getClickedFolder uriFsPath) usecaseName
                 (replaceAll (getPackageName (Some rootFsPath)) [ "\" ] `"/")
                 (replaceAll rootFsPath [ "\" ] `"/"),
               Usecase.replaceChain templateContent
                 (Usecase.bindings feature (getClickedFolder uriFsPath)
                    usecaseName
                    (replaceAll (getPackageName (Some rootFsPath)) [ "\" ] `"/")
                    (replaceAll rootFsPath [ "\" ] `"/")))]).
Proof.
  intros Hsnake.
  split; [exact (pathFileName_foo Hsnake)|].
  split; [exact createUsecase_foo|]. split.
  - intros readFileSync uriFsPath rootFsPath usecaseName filePathConfigList
           files path content.
    unfold Usecase.createUsecase.
    destruct usecaseName as [|u name];
      [intros H; injection H as <-; intros []|].
    fold (getClickedFolder uriFsPath).
    change (last (split rootFsPath "\") [])
      with (getPackageName (Some rootFsPath)).
    set (clicked := getClickedFolder uriFsPath).
    set (package := replaceAll (getPackageName (Some rootFsPath)) [ "\" ] `"/").
    set (root := replaceAll rootFsPath [ "\" ] `"/").
    set (st := fold_left _ _ _).
    destruct (getFeatureName_cases clicked rootFsPath) as [d Hd].
    assert (Hlast : Usecase.featureName st = None
                    \/ Usecase.featureName st = Some []
                    \/ Usecase.featureName st = d).
    { subst st. apply collect_feature_cases; [exact Hd | now left]. }
    assert (Horigin :
              Forall (fun entry =>
                        exists element c f,
                          In element (Usecase.getTemplatesFileList
                                        filePathConfigList)
                          /\ Usecase.getFeatureName clicked element rootFsPath
                             = Some (c :: f)
                          /\ fst entry
                             = Usecase.pathFileName element (c :: f) clicked
                                 (u :: name) package root
                          /\ readFileSync (root ++ `"/.my_templates/"
                                             ++ Usecase.templateFileNameOf
                                                  element)
                             = Some (snd entry)
                          /\ snd entry <> [])
                     (Usecase.templatesMap st)).
    { subst st. apply collect_origin; [apply incl_refl | constructor]. }
    unfold Usecase.writesOf. revert Horigin.
    destruct (Usecase.templatesMap st) as [|entry m];
      [intros _ H; injection H as <-; intros []|].
    destruct (Usecase.featureName st) as [lastFeature|]; [|discriminate].
    intros Horigin H. injection H as <-. intros Hin.
    change (In (path, content)
               (map (fun entry0 =>
                       (fst entry0,
                        Usecase.replaceChain (snd entry0)
                          (Usecase.bindings lastFeature clicked (u :: name)
                                            package root)))
                    (entry :: m))) in Hin.
    apply in_map_iff in Hin as [entry' [Heq Hin]].
    injection Heq as <- <-.
    rewrite Forall_forall in Horigin.
    destruct (Horigin entry' Hin)
      as [element [c [f [Helement [Hfn [Hpath [Hread Hne]]]]]]].
    apply filter_In in Helement as [Helement Hsuffix].
    exists element, (c :: f), (snd entry'), lastFeature.
    split; [exact Helement|]. split; [exact Hsuffix|].
    split; [exact Hfn|]. split; [discriminate|].
    split; [exact Hread|]. split; [exact Hne|].
    split; [exact Hpath|]. split; [reflexivity|].
    destruct (Hd element) as [H | H]; [congruence|].
    destruct Hlast as [H' | [H' | H']];
      [discriminate | right; congruence | left; congruence].
  - intros readFileSync uriFsPath rootFsPath usecaseName element feature
           templateContent Hname Hsuffix Hfn Hfeature Hread Hcontent.
    unfold Usecase.createUsecase.
    destruct usecaseName as [|u name]; [congruence|].
    fold (getClickedFolder uriFsPath).
    change (last (split rootFsPath "\") [])
      with (getPackageName (Some rootFsPath)).
    unfold Usecase.getTemplatesFileList. cbn [filter]. rewrite Hsuffix.
    cbn [fold_left]. unfold Usecase.collectTemplate.
    rewrite Hfn. destruct feature as [|c f]; [congruence|].
    rewrite Hread. destruct templateContent as [|t content]; [congruence|].
    reflexivity.
Qed.

Lemma C3_usecase_path_and_feature_guard_witness :
  CaseTransformer.snake `"LoginUser" = `"login_user"
  /\ Usecase.pathFileName `"foo/{{usecase_name.snakeCase}}_usecase.template"
       `"auth" `"/w/proj/lib/src/auth/domain" `"LoginUser" `"proj" `"/w/proj"
     = `"foo/login_user_usecase.dart"
  /\ Usecase.getFeatureName (getClickedFolder UsecaseExample.uriFsPath)
       UsecaseExample.template UsecaseExample.rootFsPath
     = Some `"auth"
  /\ UsecaseExample.readFileSync UsecaseExample.templateFile
     = Some `"class {{usecase_name.pascalCase}}Usecase {} // {{feature_name}}"
  /\ Usecase.createUsecase UsecaseExample.readFileSync UsecaseExample.uriFsPath
       UsecaseExample.rootFsPath `"LoginUser" [UsecaseExample.template]
     = Ok [(UsecaseExample.destination,
            `"class LoginUserUsecase {} // auth")]
  /\ (exists element feature templateContent lastFeature,
        In element [UsecaseExample.template]
        /\ endsWith element `".template" = true
        /\ Usecase.getFeatureName (getClickedFolder UsecaseExample.uriFsPath)
             element UsecaseExample.rootFsPath = Some feature
        /\ feature <> []
        /\ UsecaseExample.readFileSync
             (replaceAll UsecaseExample.rootFsPath [ "\" ] `"/"
                ++ `"/.my_templates/" ++ Usecase.templateFileNameOf element)
           = Some templateContent
        /\ templateContent <> []
        /\ UsecaseExample.destination
           = Usecase.pathFileName element feature
               (getClickedFolder UsecaseExample.uriFsPath) `"LoginUser"
               (replaceAll (getPackageName (Some UsecaseExample.rootFsPath))
                           [ "\" ] `"/")
               (replaceAll UsecaseExample.rootFsPath [ "\" ] `"/")
        /\ `"class LoginUserUsecase {} // auth"
           = Usecase.replaceChain templateContent
               (Usecase.bindings lastFeature
                  (getClickedFolder UsecaseExample.uriFsPath) `"LoginUser"
                  (replaceAll (getPackageName (Some UsecaseExample.rootFsPath))
                              [ "\" ] `"/")
                  (replaceAll UsecaseExample.rootFsPath [ "\" ] `"/"))
        /\ (lastFeature = feature \/ lastFeature = [])).
Proof.
  assert (Hsnake : CaseTransformer.snake `"LoginUser" = `"login_user")
    by (vm_compute; reflexivity).
  assert (Hfn : Usecase.getFeatureName
                  (getClickedFolder UsecaseExample.uriFsPath)
                  UsecaseExample.template UsecaseExample.rootFsPath
                = Some `"auth") by (vm_compute; reflexivity).
  assert (Hread : UsecaseExample.readFileSync UsecaseExample.templateFile
                  = Some `"class {{usecase_name.pascalCase}}Usecase {} // {{feature_name}}")
    by (vm_compute; reflexivity).
  assert (Hrun : Usecase.createUsecase UsecaseExample.readFileSync
                   UsecaseExample.uriFsPath UsecaseExample.rootFsPath
                   `"LoginUser" [UsecaseExample.template]
                 = Ok [(UsecaseExample.destination,
                        `"class LoginUserUsecase {} // auth")]).
  { refine (eq_trans
              (proj2 (proj2 (proj2 (@C3_usecase_path_and_feature_guard
                                      CaseTransformer.changeCase Hsnake)))
                     UsecaseExample.readFileSync UsecaseExample.uriFsPath
                     UsecaseExample.rootFsPath `"LoginUser"
                     UsecaseExample.template `"auth"
                     `"class {{usecase_name.pascalCase}}Usecase {} // {{feature_name}}"
                     _ _ Hfn _ _ _) _).
    - discriminate.
    - vm_compute. reflexivity.
    - discriminate.
    - vm_compute. reflexivity.
    - discriminate.
    - vm_compute. reflexivity. }
  split; [exact Hsnake|]. split.
  - exact (proj1 (@C3_usecase_path_and_feature_guard
                    CaseTransformer.changeCase Hsnake)
                 `"auth" `"/w/proj/lib/src/auth/domain" `"proj" `"/w/proj").
  - split; [exact Hfn|]. split; [exact Hread|]. split; [exact Hrun|].
    exact (proj1 (proj2 (proj2 (@C3_usecase_path_and_feature_guard
                                  CaseTransformer.changeCase Hsnake)))
                 UsecaseExample.readFileSync UsecaseExample.uriFsPath
                 UsecaseExample.rootFsPath `"LoginUser"
                 [UsecaseExample.template]
                 [(UsecaseExample.destination,
                   `"class LoginUserUsecase {} // auth")]
                 UsecaseExample.destination
                 `"class LoginUserUsecase {} // auth"
                 Hrun (or_introl eq_refl)).
Defined.

(** ** The reworked use case command *)

(** X20: the reworked use case command stops at the first template it
    cannot process: when the template of the use case exists and its read
    throws or the write of its file rejects, the command shows the error
    and throws, no file is counted, and the test template is not touched,
    the world being the one the failed attempt left. *)
Theorem createUsecase_stops_at_first_failure {CC : ChangeCase} (World : Type)
  (existsSync : World -> str -> bool)
  (readFileSync : World -> str -> option str)
  (writeFileExtPromise : World -> str -> str -> World * bool)
  (w w' : World) (uriFsPath rootFsPath packageName : str)
  (c : ascii) (name : str) (d : ascii) (feature : str) :
  ReworkedUsecase.getFeatureNameFromPath (getClickedFolder uriFsPath)
  = d :: feature ->
  existsSync w
    ((replaceAll rootFsPath [ "\" ] `"/"
        ++ `"/.my_templates/flutter_tdd_clean_templates")
       ++ `"/feature/usecase/params/" ++ (c :: name) ++ `"_usecase.template")
  = true ->
  ReworkedUsecase.processUsecaseTemplate readFileSync writeFileExtPromise w
    ((replaceAll rootFsPath [ "\" ] `"/"
        ++ `"/.my_templates/flutter_tdd_clean_templates")
       ++ `"/feature/usecase/params/" ++ (c :: name) ++ `"_usecase.template")
    (replaceAll rootFsPath [ "\" ] `"/" ++ `"/lib/src/" ++ (d :: feature)
       ++ `"/domain/usecases/" ++ (c :: name) ++ `"_usecase.dart")
    (d :: feature) (c :: name) (replaceAll packageName [ "\" ] `"/")
    (getClickedFolder uriFsPath) (replaceAll rootFsPath [ "\" ] `"/")
  = (w', false) ->
  ReworkedUsecase.createUsecase existsSync readFileSync writeFileExtPromise w
    uriFsPath rootFsPath packageName (Some (c :: name))
  = ReworkedUsecase.Thrown
      {| ReworkedUsecase.fs := w';
         ReworkedUsecase.shown := [ReworkedUsecase.ErrorCreatingUsecase];
         ReworkedUsecase.filesCreated := 0 |}.
Proof.
  intros Hfeature Hexists Hprocess.
  unfold ReworkedUsecase.createUsecase. rewrite Hfeature.
  unfold ReworkedUsecase.usecaseTemplates.
  cbn [ReworkedUsecase.processTemplates ReworkedUsecase.fs].
  rewrite Hexists, Hprocess. reflexivity.
Qed.

Lemma createUsecase_stops_at_first_failure_witness :
  ReworkedUsecase.getFeatureNameFromPath
    (getClickedFolder `"C:\w\proj\lib\src\auth\domain")
  = `"auth"
  /\ ReworkedUsecase.createUsecase ReworkedExample.existsSync
       ReworkedExample.readFileSync ReworkedExample.writeFileExtPromise []
       `"C:\w\proj\lib\src\auth\domain" `"C:\w\proj" `"proj"
       (Some `"login_user")
     = ReworkedUsecase.Thrown
         {| ReworkedUsecase.fs := [];
            ReworkedUsecase.shown := [ReworkedUsecase.ErrorCreatingUsecase];
            ReworkedUsecase.filesCreated := 0 |}.
Proof.
  assert (Hfeature : ReworkedUsecase.getFeatureNameFromPath
                       (getClickedFolder `"C:\w\proj\lib\src\auth\domain")
                     = `"auth") by (vm_compute; reflexivity).
  split; [exact Hfeature|].
  apply (@createUsecase_stops_at_first_failure CaseTransformer.changeCase
           ReworkedExample.World ReworkedExample.existsSync
           ReworkedExample.readFileSync ReworkedExample.writeFileExtPromise
           [] [] `"C:\w\proj\lib\src\auth\domain" `"C:\w\proj" `"proj"
           "l" `"ogin_user" "a" `"uth" Hfeature);
    vm_compute; reflexivity.
Defined.

(** ** The project folder of the template check *)

Lemma startsWith_before_first (sep p s : str) (c : ascii) :
  unbordered sep = true ->
  includes (c :: p) sep = false ->
  startsWith ((c :: p) ++ sep ++ s) sep = false.
Proof.
  intros Hub Hnone. apply includes_false_cons in Hnone as [Hhere _].
  destruct (startsWith ((c :: p) ++ sep ++ s) sep) eqn:E; [|reflexivity].
  apply startsWith_app_cases in E as [[a2 Ha] | [r [Hsep [Hr Hpre]]]].
  - rewrite Ha, startsWith_app in Hhere. discriminate.
  - apply startsWith_shorter in Hpre.
    + rewrite (unbordered_spec sep Hub (c :: p) r) in Hpre;
        [discriminate | assumption | discriminate | assumption].
    + rewrite Hsep, length_app. lia.
Qed.

Lemma stringIndexOf_first (sep p s : str) (i : nat) :
  unbordered sep = true ->
  includes p sep = false ->
  stringIndexOf_from i (p ++ sep ++ s) sep = Some (i + length p).
Proof.
  intros Hub. revert i. induction p as [|c p IH]; intros i Hnone.
  - cbn [app length]. destruct (sep ++ s) eqn:E;
      cbn [stringIndexOf_from]; rewrite <- E, startsWith_app;
      f_equal; lia.
  - pose proof (startsWith_before_first sep p s c Hub Hnone) as Hhere.
    apply includes_false_cons in Hnone as [_ Hnone].
    cbn [app] in *. cbn [stringIndexOf_from]. rewrite Hhere.
    rewrite IH by exact Hnone. cbn [length]. f_equal. lia.
Qed.

Lemma stringIndexOf_absent (s p : str) (i : nat) :
  includes s p = false -> stringIndexOf_from i s p = None.
Proof.
  revert i. induction s as [|c s IH]; intros i H.
  - cbn [includes] in H. apply orb_false_iff in H as [H _].
    cbn [stringIndexOf_from]. now rewrite H.
  - apply includes_false_cons in H as [Hhere H].
    cbn [stringIndexOf_from]. rewrite Hhere. now apply IH.
Qed.

Lemma substring_middle (a m b : str) :
  substring (a ++ m ++ b) (length a) (length a + length m) = m.
Proof.
  unfold substring. rewrite !length_app.
  replace (Nat.min (length a) (length a + (length m + length b)))
    with (length a) by lia.
  replace (Nat.min (length a + length m) (length a + (length m + length b)))
    with (length a + length m) by lia.
  replace (Nat.max (length a) (length a + length m)
           - Nat.min (length a) (length a + length m))
    with (length m) by lia.
  replace (Nat.min (length a) (length a + length m)) with (length a) by lia.
  rewrite skipn_app, Nat.sub_diag, skipn_all. cbn [skipn app].
  rewrite firstn_app, Nat.sub_diag, firstn_all. cbn [firstn].
  apply app_nil_r.
Qed.

(** X21: the check of the use case templates takes as project folder the
    text between the first character of the uri's path and the first /lib
    in it, and looks there for the two templates named with the token of
    the use case name; for a path without /lib it takes the first character
    of the path as project folder. *)
Theorem usecaseTemplatesOk_project_folder (existsSync : str -> bool)
  (c : ascii) (root : str) :
  includes (c :: root) `"/lib" = false ->
  (forall rest,
      Extension.usecaseTemplatesOk existsSync (c :: root ++ `"/lib" ++ rest)
      = existsSync
          ((root ++ `"/.my_templates/flutter_tdd_clean_templates")
             ++ `"/feature/usecase/params/{{usecase_name.snakeCase}}_usecase.template")
        && existsSync
             ((root ++ `"/.my_templates/flutter_tdd_clean_templates")
                ++ `"/test/usecase/params/{{usecase_name.snakeCase}}_usecase_test.template"))
  /\ Extension.usecaseTemplatesOk existsSync (c :: root)
     = existsSync
         (([c] ++ `"/.my_templates/flutter_tdd_clean_templates")
            ++ `"/feature/usecase/params/{{usecase_name.snakeCase}}_usecase.template")
       && existsSync
            (([c] ++ `"/.my_templates/flutter_tdd_clean_templates")
               ++ `"/test/usecase/params/{{usecase_name.snakeCase}}_usecase_test.template").
Proof.
  intros Hnone. split.
  - intros rest. unfold Extension.usecaseTemplatesOk, stringIndexOf.
    change (c :: root ++ `"/lib" ++ rest) with ((c :: root) ++ `"/lib" ++ rest).
    rewrite stringIndexOf_first by (reflexivity || assumption).
    assert (Hroot : substring ((c :: root) ++ `"/lib" ++ rest) 1
                              (0 + length (c :: root)) = root)
      by exact (substring_middle [c] root (`"/lib" ++ rest)).
    rewrite Hroot. cbn [forallb]. now rewrite andb_true_r.
  - unfold Extension.usecaseTemplatesOk, stringIndexOf.
    rewrite stringIndexOf_absent by exact Hnone.
    assert (Hroot : substring (c :: root) 1 0 = [c]) by reflexivity.
    rewrite Hroot. cbn [forallb]. now rewrite andb_true_r.
Qed.

Lemma usecaseTemplatesOk_project_folder_witness :
  includes ("/" :: `"c:/w/proj") `"/lib" = false
  /\ Extension.usecaseTemplatesOk (fun path => startsWith path `"c:/w/proj/")
       ("/" :: `"c:/w/proj" ++ `"/lib" ++ `"/src/auth/domain")
     = true.
Proof.
  assert (H : includes ("/" :: `"c:/w/proj") `"/lib" = false)
    by (vm_compute; reflexivity).
  split; [exact H|].
  rewrite (proj1 (usecaseTemplatesOk_project_folder
                    (fun path => startsWith path `"c:/w/proj/")
                    "/" `"c:/w/proj" H) `"/src/auth/domain").
  vm_compute. reflexivity.
Defined.

(** ** The path of a use case file *)

Lemma chainRules_braces {CC : ChangeCase} (bs : list (str * str))
  (rule : str * str) :
  In rule (Usecase.chainRules bs) -> exists x, fst rule = `"{{" ++ x.
Proof.
  unfold Usecase.chainRules. intros H.
  apply in_flat_map in H as [style [_ H]].
  apply in_map_iff in H as [kv [<- _]]. cbn [fst]. now eexists.
Qed.

(** X22: in the path of a template that holds no two opening braces in a
    row, the use case command replaces every .template by .dart, in the
    names of the folders as well as at the end of the file name. *)
Theorem pathFileName_every_template {CC : ChangeCase} (pieces : list str)
  (featureName clickedFolder usecaseName packageName rootFolder : str) :
  Forall (fun piece => includes piece `".template" = false) pieces ->
  includes (join `".template" pieces) `"{{" = false ->
  Usecase.pathFileName (join `".template" pieces) featureName clickedFolder
    usecaseName packageName rootFolder
  = join `".dart" pieces.
Proof.
  intros Hpieces Hbraces. unfold Usecase.pathFileName, Usecase.replaceChain.
  rewrite rewrite_all_absent.
  - apply replaceAll_join; try assumption; [discriminate | reflexivity | reflexivity].
  - intros rule Hin. apply chainRules_braces in Hin as [x ->].
    now apply includes_prefix_false.
Qed.

Lemma pathFileName_every_template_witness :
  Forall (fun piece => includes piece `".template" = false)
         [ `"lib/my"; `"s/user_usecase"; [] ]
  /\ join `".template" [ `"lib/my"; `"s/user_usecase"; [] ]
     = `"lib/my.templates/user_usecase.template"
  /\ Usecase.pathFileName (join `".template" [ `"lib/my"; `"s/user_usecase"; [] ])
       `"auth" `"C:/w/proj/lib" `"LoginUser" `"proj" `"C:/w/proj"
     = `"lib/my.darts/user_usecase.dart".
Proof.
  assert (Hpieces : Forall (fun piece => includes piece `".template" = false)
                           [ `"lib/my"; `"s/user_usecase"; [] ])
    by (repeat constructor).
  split; [exact Hpieces|]. split; [reflexivity|].
  exact (@pathFileName_every_template CaseTransformer.changeCase
           [ `"lib/my"; `"s/user_usecase"; [] ]
           `"auth" `"C:/w/proj/lib" `"LoginUser" `"proj" `"C:/w/proj"
           Hpieces eq_refl).
Defined.

(** ** The tokens of a key without a label *)

Lemma includes_across (a b label : str) (c : ascii) :
  lacks c label = true -> label <> [] ->
  includes a label = false -> includes b label = false ->
  includes (a ++ c :: b) label = false.
Proof.
  intros Hc Hne Ha Hb.
  assert (Hhead : startsWith (c :: b) label = false).
  { destruct label as [|d label]; [congruence|].
    cbn [lacks forallb] in Hc. apply andb_true_iff in Hc as [Hd _].
    apply negb_true_iff in Hd. cbn [startsWith].
    rewrite Ascii.eqb_sym, Hd. reflexivity. }
  induction a as [|d a IH].
  - cbn [app includes]. now rewrite Hhead, Hb.
  - apply includes_false_cons in Ha as [Hhere Ha].
    cbn [app includes]. rewrite (IH Ha), orb_false_r.
    destruct (startsWith (d :: a ++ c :: b) label) eqn:E; [|reflexivity].
    change (d :: a ++ c :: b) with ((d :: a) ++ c :: b) in E.
    apply startsWith_app_cases in E as [[a2 Heq] | [p2 [Heq [Hp2 Hstart]]]].
    + rewrite Heq, startsWith_app in Hhere. discriminate.
    + destruct p2 as [|e p2]; [congruence|].
      cbn [startsWith] in Hstart. apply andb_true_iff in Hstart as [He _].
      apply Ascii.eqb_eq in He. subst e.
      rewrite Heq in Hc. unfold lacks in Hc. rewrite forallb_app in Hc.
      apply andb_true_iff in Hc as [_ Hc]. cbn [forallb] in Hc.
      rewrite Ascii.eqb_refl in Hc. discriminate.
Qed.

Lemma token_includes_label (key style label : str) :
  In label labels ->
  includes key label = false -> includes style label = false ->
  includes ("{" :: "{" :: key ++ "." :: style ++ "}" :: "}" :: []) label = false.
Proof.
  intros Hlabel Hkey Hstyle.
  assert (Hne : label <> [])
    by (cbn in Hlabel; intuition (subst; discriminate)).
  assert (Hchars : lacks "{" label = true /\ lacks "." label = true
                   /\ lacks "}" label = true)
    by (cbn in Hlabel; intuition (subst; reflexivity)).
  destruct Hchars as [Ho [Hd Hc]].
  assert (Hnil : includes [] label = false) by (destruct label; [congruence | reflexivity]).
  apply (includes_across [] _ label "{"); try assumption.
  apply (includes_across [] _ label "{"); try assumption.
  apply (includes_across key _ label "."); try assumption.
  apply (includes_across style _ label "}"); try assumption.
  apply (includes_across [] _ label "}"); assumption.
Qed.

Lemma plain_token_includes_label (key label : str) :
  In label labels ->
  includes key label = false ->
  includes ("{" :: "{" :: key ++ "}" :: "}" :: []) label = false.
Proof.
  intros Hlabel Hkey.
  assert (Hne : label <> [])
    by (cbn in Hlabel; intuition (subst; discriminate)).
  assert (Hchars : lacks "{" label = true /\ lacks "}" label = true)
    by (cbn in Hlabel; intuition (subst; reflexivity)).
  destruct Hchars as [Ho Hc].
  assert (Hnil : includes [] label = false) by (destruct label; [congruence | reflexivity]).
  apply (includes_across [] _ label "{"); try assumption.
  apply (includes_across [] _ label "{"); try assumption.
  apply (includes_across key _ label "}"); try assumption.
  apply (includes_across [] _ label "}"); assumption.
Qed.

Lemma token_own_label (key style : str) :
  includes ("{" :: "{" :: key ++ "." :: style ++ "}" :: "}" :: []) style = true.
Proof.
  apply includes_iff. exists ("{" :: "{" :: key ++ ["."]), ["}"; "}"].
  cbn [app]. now rewrite <- app_assoc.
Qed.

Ltac other_labels key style :=
  rewrite !(token_includes_label key style)
    by first [assumption | reflexivity | (cbn; auto 10)].

(** The passes of the six tokens of a key that holds none of the labels. *)
Lemma passes_of_label_free_key {CC : ChangeCase} (key value : str) :
  Forall (fun label => includes key label = false) labels ->
  passes (`"{{" ++ key ++ `"}}") value = [value]
  /\ passes (`"{{" ++ key ++ `".lowerCase}}") value
     = [toLowerCase value; value]
  /\ passes (`"{{" ++ key ++ `".upperCase}}") value
     = [toUpperCase value; value]
  /\ passes (`"{{" ++ key ++ `".snakeCase}}") value
     = [snakeCase value; value]
  /\ passes (`"{{" ++ key ++ `".pascalCase}}") value
     = [pascalCase value; value]
  /\ passes (`"{{" ++ key ++ `".camelCase}}") value
     = [camelCase value; value].
Proof.
  intros Hkey. unfold labels in Hkey.
  inversion Hkey as [|? ? Hlower H1]; subst.
  inversion H1 as [|? ? Hupper H2]; subst.
  inversion H2 as [|? ? Hsnake H3]; subst.
  inversion H3 as [|? ? Hpascal H4]; subst.
  inversion H4 as [|? ? Hcamel _]; subst.
  clear Hkey H1 H2 H3 H4.
  repeat split; unfold passes.
  - change (`"{{" ++ key ++ `"}}") with ("{" :: "{" :: key ++ "}" :: "}" :: []).
    rewrite !plain_token_includes_label
      by first [assumption | (cbn; auto 10)].
    reflexivity.
  - change (`"{{" ++ key ++ `".lowerCase}}")
      with ("{" :: "{" :: key ++ "." :: `"lowerCase" ++ "}" :: "}" :: []).
    rewrite token_own_label. other_labels key `"lowerCase". reflexivity.
  - change (`"{{" ++ key ++ `".upperCase}}")
      with ("{" :: "{" :: key ++ "." :: `"upperCase" ++ "}" :: "}" :: []).
    rewrite token_own_label. other_labels key `"upperCase". reflexivity.
  - change (`"{{" ++ key ++ `".snakeCase}}")
      with ("{" :: "{" :: key ++ "." :: `"snakeCase" ++ "}" :: "}" :: []).
    rewrite token_own_label. other_labels key `"snakeCase". reflexivity.
  - change (`"{{" ++ key ++ `".pascalCase}}")
      with ("{" :: "{" :: key ++ "." :: `"pascalCase" ++ "}" :: "}" :: []).
    rewrite token_own_label. other_labels key `"pascalCase". reflexivity.
  - change (`"{{" ++ key ++ `".camelCase}}")
      with ("{" :: "{" :: key ++ "." :: `"camelCase" ++ "}" :: "}" :: []).
    rewrite token_own_label. other_labels key `"camelCase". reflexivity.
Qed.

(** X23: for a key that holds none of the five labels, each of the six
    tokens of the key makes [replaceName] do what its style says: with the
    plain token it replaces the token by the value, with every other token
    it replaces the token by the value in the style of the token, and then
    what is left of the token by the value. *)
Theorem tokens_of_label_free_key {CC : ChangeCase} (key value : str) :
  Forall (fun label => includes key label = false) labels ->
  forall this,
    replaceName this (`"{{" ++ key ++ `"}}") value
    = replaceAll this (`"{{" ++ key ++ `"}}") value
    /\ replaceName this (`"{{" ++ key ++ `".lowerCase}}") value
       = replaceAll
           (replaceAll this (`"{{" ++ key ++ `".lowerCase}}") (toLowerCase value))
           (`"{{" ++ key ++ `".lowerCase}}") value
    /\ replaceName this (`"{{" ++ key ++ `".upperCase}}") value
       = replaceAll
           (replaceAll this (`"{{" ++ key ++ `".upperCase}}") (toUpperCase value))
           (`"{{" ++ key ++ `".upperCase}}") value
    /\ replaceName this (`"{{" ++ key ++ `".snakeCase}}") value
       = replaceAll
           (replaceAll this (`"{{" ++ key ++ `".snakeCase}}") (snakeCase value))
           (`"{{" ++ key ++ `".snakeCase}}") value
    /\ replaceName this (`"{{" ++ key ++ `".pascalCase}}") value
       = replaceAll
           (replaceAll this (`"{{" ++ key ++ `".pascalCase}}") (pascalCase value))
           (`"{{" ++ key ++ `".pascalCase}}") value
    /\ replaceName this (`"{{" ++ key ++ `".camelCase}}") value
       = replaceAll
           (replaceAll this (`"{{" ++ key ++ `".camelCase}}") (camelCase value))
           (`"{{" ++ key ++ `".camelCase}}") value.
Proof.
  intros Hkey this.
  destruct (passes_of_label_free_key key value Hkey)
    as [Hplain [Hlower [Hupper [Hsnake [Hpascal Hcamel]]]]].
  rewrite !replaceName_passes.
  rewrite Hplain, Hlower, Hupper, Hsnake, Hpascal, Hcamel.
  repeat split.
Qed.

Lemma tokens_of_label_free_key_witness :
  Forall (fun label => includes `"usecase_name" label = false) labels
  /\ replaceName `"{{usecase_name.snakeCase}}_usecase.dart"
       `"{{usecase_name.snakeCase}}" `"LoginUser"
     = `"login_user_usecase.dart".
Proof.
  assert (H : Forall (fun label => includes `"usecase_name" label = false) labels)
    by (repeat constructor).
  split; [exact H|].
  refine (eq_trans
            (proj1 (proj2 (proj2 (proj2
               (@tokens_of_label_free_key CaseTransformer.changeCase
                  `"usecase_name" `"LoginUser" H
                  `"{{usecase_name.snakeCase}}_usecase.dart"))))) _).
  vm_compute. reflexivity.
Defined.

(** ** The content of a copied template *)

(** X24: in a template content that holds no two opening braces in a row,
    [copyInitialTemplatesFromFolder] rewrites every package:gymtor/ to
    package: followed by the package name and a slash and leaves the rest
    as it is, when the package name holds no dollar sign. *)
Theorem contentOf_hardcoded_package {CC : ChangeCase}
  (rootFolder clickedFolder packageName : str) (pieces : list str) :
  noDollar packageName = true ->
  Forall (fun piece => includes piece `"package:gymtor/" = false) pieces ->
  includes (join `"package:gymtor/" pieces) `"{{" = false ->
  contentOf rootFolder clickedFolder packageName
    (join `"package:gymtor/" pieces)
  = join (`"package:" ++ packageName ++ `"/") pieces.
Proof.
  intros Hpkg Hpieces Hbraces. unfold contentOf, fixDartImports.
  unfold replacePlaceholdersInContent.
  rewrite rewriting_without_braces by exact Hbraces.
  apply replaceAll_join; try assumption.
  - discriminate.
  - reflexivity.
  - unfold noDollar in *. rewrite !forallb_app, Hpkg. reflexivity.
Qed.

Lemma contentOf_hardcoded_package_witness :
  noDollar `"my_app" = true
  /\ Forall (fun piece => includes piece `"package:gymtor/" = false)
            [ `"import '"; `"core/api.dart';" ]
  /\ contentOf `"C:/w/proj" `"C:/w/proj/lib" `"my_app"
       (join `"package:gymtor/" [ `"import '"; `"core/api.dart';" ])
     = `"import 'package:my_app/core/api.dart';".
Proof.
  assert (Hpieces : Forall (fun piece => includes piece `"package:gymtor/" = false)
                           [ `"import '"; `"core/api.dart';" ])
    by (repeat constructor).
  split; [reflexivity|]. split; [exact Hpieces|].
  exact (@contentOf_hardcoded_package CaseTransformer.changeCase
           `"C:/w/proj" `"C:/w/proj/lib" `"my_app"
           [ `"import '"; `"core/api.dart';" ] eq_refl Hpieces eq_refl).
Defined.

(** ** No template twice *)

Lemma wellNamed_Dir (entries : list (str * node)) :
  wellNamed (Dir entries) ->
  NoDup (map fst entries)
  /\ Forall (fun item => lacks "/" item = true) (map fst entries)
  /\ Forall (fun e => wellNamed (snd e)) entries.
Proof.
  cbn [wellNamed]. intros [Hnd [Hnames Hall]]. split; [exact Hnd|].
  split; [exact Hnames|]. clear Hnd Hnames.
  induction entries as [|[item child] rest IH]; [constructor|].
  destruct Hall as [Hchild Hrest]. constructor; [exact Hchild | now apply IH].
Qed.

(** A name is read off the head of a path without ambiguity. *)
Lemma name_of_path (a b ta tb : str) :
  lacks "/" a = true -> lacks "/" b = true ->
  (ta = [] \/ exists t, ta = "/" :: t) ->
  (tb = [] \/ exists t, tb = "/" :: t) ->
  a ++ ta = b ++ tb -> a = b.
Proof.
  revert b. induction a as [|c a IH]; intros [|d b] Ha Hb Hta Htb Heq.
  - reflexivity.
  - cbn [app] in Heq. cbn [lacks forallb] in Hb.
    apply andb_true_iff in Hb as [Hd _].
    destruct Hta as [-> | [t ->]]; [discriminate|].
    injection Heq as <- _. discriminate.
  - cbn [app] in Heq. cbn [lacks forallb] in Ha.
    apply andb_true_iff in Ha as [Hc _].
    destruct Htb as [-> | [t ->]]; [discriminate|].
    injection Heq as -> _. discriminate.
  - cbn [app] in Heq. injection Heq as -> Heq.
    cbn [lacks forallb] in Ha, Hb.
    apply andb_true_iff in Ha as [_ Ha]. apply andb_true_iff in Hb as [_ Hb].
    f_equal. now apply IH.
Qed.

Lemma entryFiles_path (dir : str) (e : str * node) (p : str) :
  In p (entryFiles dir e) ->
  exists tail, p = dir ++ `"/" ++ fst e ++ tail
               /\ (tail = [] \/ exists t, tail = "/" :: t).
Proof.
  destruct e as [item [content | sub]]; unfold entryFiles; cbn [fst snd].
  - destruct (endsWith item `".template"); [|contradiction].
    intros [<- | []]. exists []. split; [now rewrite app_nil_r | now left].
  - intros Hin. apply (templateFilesIn_sound (Dir sub) _ sub) in Hin;
      [|reflexivity].
    apply templateUnder_path in Hin as [stem ->].
    exists (`"/" ++ stem ++ `".template"). split.
    + now rewrite <- !app_assoc.
    + right. now eexists.
Qed.

Lemma templateFilesIn_NoDup (n : node) :
  forall dir, wellNamed n -> NoDup (templateFilesIn dir n).
Proof.
  induction n as [content | entries IH] using node_entries_ind;
    intros dir Hwell; [constructor|].
  apply wellNamed_Dir in Hwell as [Hnd [Hnames Hall]].
  rewrite templateFilesIn_Dir.
  induction entries as [|[item child] rest IHrest]; [constructor|].
  inversion IH as [|? ? IHchild IH']; subst.
  inversion Hall as [|? ? Hchild Hall']; subst.
  cbn [map fst] in Hnd, Hnames.
  inversion Hnd as [|? ? Hnotin Hnd']; subst.
  inversion Hnames as [|? ? Hitem Hnames']; subst.
  cbn [flat_map]. apply NoDup_app.
  - unfold entryFiles. cbn [fst snd] in *. destruct child as [content | sub].
    + destruct (endsWith item `".template"); repeat constructor. intros [].
    + now apply IHchild.
  - now apply IHrest.
  - intros p Hp Hrest.
    apply entryFiles_path in Hp as [tail [-> Htail]]. cbn [fst] in *.
    apply in_flat_map in Hrest as [[item' child'] [Hin' Hp']].
    apply entryFiles_path in Hp' as [tail' [Heq Htail']]. cbn [fst] in Heq.
    apply app_inv_head in Heq. cbn [list_ascii_of_string app] in Heq.
    injection Heq as Heq.
    assert (Hitem' : lacks "/" item' = true).
    { rewrite Forall_forall in Hnames'. apply Hnames'.
      now apply (in_map fst) in Hin'. }
    apply (name_of_path item item' tail tail' Hitem Hitem' Htail Htail') in Heq.
    subst item'. apply Hnotin. now apply (in_map fst) in Hin'.
Qed.

(** X25: in a tree in which the entries of every directory have distinct
    names without a slash, the walker returns no path twice. *)
Theorem getAllTemplateFiles_NoDup (dir : str) (n : node) (files : list str) :
  wellNamed n ->
  getAllTemplateFiles dir (Some n) = Ok files ->
  NoDup files.
Proof.
  intros Hwell. destruct n as [content | entries]; cbn [getAllTemplateFiles];
    intros H; [discriminate|].
  injection H as <-. exact (templateFilesIn_NoDup (Dir entries) dir Hwell).
Qed.

Lemma getAllTemplateFiles_NoDup_witness :
  wellNamed (Dir BatchExample.entries)
  /\ NoDup [ `"/t/core/a.template"; `"/t/core/unreadable.template";
             `"/t/core/sub/denied.template"; `"/t/core/d.template" ].
Proof.
  assert (Hwell : wellNamed (Dir BatchExample.entries)).
  { cbn. repeat split;
      repeat (constructor;
              [first [reflexivity
                     | intros H; repeat destruct H as [H|H];
                       try discriminate; contradiction]|]);
      constructor. }
  split; [exact Hwell|].
  exact (getAllTemplateFiles_NoDup `"/t/core" (Dir BatchExample.entries) _
           Hwell eq_refl).
Defined.
